(** * Netcap: record writer, IP profile registry, TCP reassembly callbacks
      and the HTTP end-of-capture flush, embedded from the Go sources.

    The development follows the source files:
    - [writer.go]            -> [Module Writer]
    - the IP profile file    -> [Module Profiles]
    - the reassembly file    -> [Module Reassembly]
    - the HTTP encoder file  -> [Module HTTP]

    Go's fixed-width integers are integers of [Z] with the wrap-around
    written out ([wrapU64], [wrapS64], [wrapS32]); Go maps are [gmap]s;
    nil-able pointers and interfaces are [option]s; a panic or a call of
    [log.Fatal] is a constructor of [result]. *)

From Stdlib Require Import ZArith String Ascii List Bool Lia.
From stdpp Require Import gmap strings list fin_maps sorting.

Local Open Scope string_scope.
Local Open Scope Z_scope.

(** ** Machine integers *)

Definition wrapU64 (x : Z) : Z := x mod 2 ^ 64.
Definition wrapS64 (x : Z) : Z := (x + 2 ^ 63) mod 2 ^ 64 - 2 ^ 63.
Definition wrapS32 (x : Z) : Z := (x + 2 ^ 31) mod 2 ^ 32 - 2 ^ 31.
Arguments wrapU64 : simpl never.
Arguments wrapS64 : simpl never.
Arguments wrapS32 : simpl never.

Definition max_uint64 : Z := 2 ^ 64 - 1.
Definition max_int64 : Z := 2 ^ 63 - 1.
Definition min_int64 : Z := - 2 ^ 63.


Lemma wrapU64_small x : 0 <= x <= max_uint64 -> wrapU64 x = x.
Proof. unfold wrapU64, max_uint64. intros H. apply Z.mod_small. lia. Qed.

Lemma wrapS64_small x : min_int64 <= x <= max_int64 -> wrapS64 x = x.
Proof.
  unfold wrapS64, min_int64, max_int64. intros H.
  rewrite Z.mod_small by lia. lia.
Qed.


Lemma wrapS64_idemp_l a b : wrapS64 (wrapS64 a + b) = wrapS64 (a + b).
Proof.
  unfold wrapS64. f_equal.
  replace ((a + 2 ^ 63) mod 2 ^ 64 - 2 ^ 63 + b + 2 ^ 63)
    with ((a + 2 ^ 63) mod 2 ^ 64 + b) by lia.
  rewrite Zplus_mod_idemp_l. f_equal. lia.
Qed.

Lemma wrapS64_idemp_r a b : wrapS64 (a + wrapS64 b) = wrapS64 (a + b).
Proof. rewrite (Z.add_comm a), wrapS64_idemp_l. f_equal. lia. Qed.

Lemma wrapS64_bounds x : min_int64 <= wrapS64 x <= max_int64.
Proof.
  unfold wrapS64, min_int64, max_int64.
  pose proof (Z.mod_pos_bound (x + 2 ^ 63) (2 ^ 64) ltac:(lia)). lia.
Qed.

Lemma wrapU64_idemp a b : wrapU64 (wrapU64 a + wrapU64 b) = wrapU64 (a + b).
Proof. unfold wrapU64. symmetry. apply Z.add_mod. lia. Qed.

Lemma wrapU64_idemp_l a b : wrapU64 (wrapU64 a + b) = wrapU64 (a + b).
Proof. unfold wrapU64. apply Zplus_mod_idemp_l. Qed.

(** ** Outcomes of a call: a value, a Go panic, or [log.Fatal] *)

Inductive result (A : Type) : Type :=
| Ok (a : A)
| Panic (msg : string)
| Fatal (msg : string).
Arguments Ok {A} a.
Arguments Panic {A} msg.
Arguments Fatal {A} msg.

Definition rbind {A B} (r : result A) (k : A -> result B) : result B :=
  match r with
  | Ok a => k a
  | Panic m => Panic m
  | Fatal m => Fatal m
  end.

Notation "x <-! r ; k" := (rbind r (fun x => k))
  (at level 100, r at next level, right associativity).

Lemma Ok_inj {A} (a b : A) : Ok a = Ok b -> a = b.
Proof. intros H. exact (f_equal (fun r => match r with Ok x => x | _ => a end) H). Qed.

(** * writer.go: the audit record writer *)

Module Writer.

(** What a layer of the writer chain writes into. The Go code links the
    layers by pointers ([gzip.NewWriter(w.bWriter)], ...); here a layer
    names the field of the [Writer] that holds its target. *)
Inductive Layer : Type := LFile | LBuf | LGzip | LChan.

(** [os.File]: the name it was created with, the bytes written so far and
    whether the handle was closed. *)
Record File : Type := mkFile { fname : string; fsize : Z; fclosed : bool }.

(** [bufio.Writer] over the file: capacity and number of buffered bytes. *)
Record BufioWriter : Type := mkBufio { bsize : Z; bn : Z }.

(** [pgzip.Writer]: its target, the bytes taken but not yet written out,
    the closed flag and the concurrency settings. *)
Record GzipWriter : Type := mkGzip {
  gwr : Layer; gpending : Z; gclosed : bool; gblockSize : Z; gblocks : Z }.

(** [io.ChanWriter]: the sizes of the byte slices sent so far. *)
Record ChanWriter : Type := mkChan { sent : list Z }.

Record Writer : Type := mkWriter {
  Name : string;
  file : option File;
  bWriter : option BufioWriter;
  gWriter : option GzipWriter;
  dWriter : option Layer;
  aWriter : option Layer;
  cWriter : option ChanWriter;
  csvWriter : option Layer;
  compress : bool;
  buffer : bool;
  csv : bool;
  out : string;
  IsChanWriter : bool }.

Definition set_file (f : option File) (w : Writer) : Writer :=
  mkWriter (Name w) f (bWriter w) (gWriter w) (dWriter w) (aWriter w)
    (cWriter w) (csvWriter w) (compress w) (buffer w) (csv w) (out w)
    (IsChanWriter w).
Definition set_bWriter (b : option BufioWriter) (w : Writer) : Writer :=
  mkWriter (Name w) (file w) b (gWriter w) (dWriter w) (aWriter w)
    (cWriter w) (csvWriter w) (compress w) (buffer w) (csv w) (out w)
    (IsChanWriter w).
Definition set_gWriter (g : option GzipWriter) (w : Writer) : Writer :=
  mkWriter (Name w) (file w) (bWriter w) g (dWriter w) (aWriter w)
    (cWriter w) (csvWriter w) (compress w) (buffer w) (csv w) (out w)
    (IsChanWriter w).
Definition set_dWriter (d : option Layer) (w : Writer) : Writer :=
  mkWriter (Name w) (file w) (bWriter w) (gWriter w) d (aWriter w)
    (cWriter w) (csvWriter w) (compress w) (buffer w) (csv w) (out w)
    (IsChanWriter w).
Definition set_aWriter (a : option Layer) (w : Writer) : Writer :=
  mkWriter (Name w) (file w) (bWriter w) (gWriter w) (dWriter w) a
    (cWriter w) (csvWriter w) (compress w) (buffer w) (csv w) (out w)
    (IsChanWriter w).
Definition set_cWriter (c : option ChanWriter) (w : Writer) : Writer :=
  mkWriter (Name w) (file w) (bWriter w) (gWriter w) (dWriter w) (aWriter w)
    c (csvWriter w) (compress w) (buffer w) (csv w) (out w)
    (IsChanWriter w).
Definition set_csvWriter (c : option Layer) (w : Writer) : Writer :=
  mkWriter (Name w) (file w) (bWriter w) (gWriter w) (dWriter w) (aWriter w)
    (cWriter w) c (compress w) (buffer w) (csv w) (out w)
    (IsChanWriter w).

(** *** The libraries below the writer

    [os], [bufio] and [pgzip] are not code of the repository; they are
    modelled at the level [NewWriter] and [Close] observe: byte counts,
    the closed flags and the errors the calls return ([inl]). *)

(** [bufio.defaultBufSize] and pgzip's [tailSize]. *)
Definition bufio_defaultBufSize : Z := 4096.
Definition pgzip_tailSize : Z := 16384.

(** [bufio.NewWriterSize(file, size)]: a size of zero or less falls back to
    the library's default. *)
Definition bufio_NewWriterSize (size : Z) : BufioWriter :=
  mkBufio (if size <=? 0 then bufio_defaultBufSize else size) 0.

(** [gzip.NewWriter(target)]. *)
Definition gzip_NewWriter (target : Layer) : GzipWriter :=
  mkGzip target 0 false 0 0.

(** [gzip.Writer.SetConcurrency]: refuses a block no larger than the
    tail and a block count of zero or less. *)
Definition gzip_SetConcurrency (blockSize blocks : Z) (g : GzipWriter)
  : string + GzipWriter :=
  if blockSize <=? pgzip_tailSize then inl "gzip: block size too small"
  else if blocks <=? 0 then inl "gzip: blocks cannot be zero or less"
  else inr (mkGzip (gwr g) (gpending g) (gclosed g) blockSize blocks).

(** [os.File.Write] of [n] bytes. *)
Definition file_Write (n : Z) (w : Writer) : string + Writer :=
  match file w with
  | None => inl "invalid argument"
  | Some f =>
      if fclosed f then inl "file already closed"
      else inr (set_file (Some (mkFile (fname f) (fsize f + n) false)) w)
  end.

(** [bufio.Writer.Flush]: nothing to do on an empty buffer, else the
    buffered bytes go to the file. *)
Definition bufio_Flush (b : BufioWriter) (w : Writer) : string + Writer :=
  if bn b =? 0 then inr w
  else match file_Write (bn b) w with
       | inl e => inl e
       | inr w' => inr (set_bWriter (Some (mkBufio (bsize b) 0)) w')
       end.

(** [bufio.Writer.Write] of [n] bytes: they are buffered when they fit;
    a large write on an empty buffer goes straight to the file; otherwise
    the buffer is filled and flushed first. *)
Definition bufio_Write (n : Z) (w : Writer) : string + Writer :=
  match bWriter w with
  | None => inl "nil bufio.Writer"
  | Some b =>
      if n <=? bsize b - bn b
      then inr (set_bWriter (Some (mkBufio (bsize b) (bn b + n))) w)
      else if bn b =? 0 then file_Write n w
      else match file_Write (bsize b) w with
           | inl e => inl e
           | inr w' =>
               let r := n - (bsize b - bn b) in
               if r <=? bsize b
               then inr (set_bWriter (Some (mkBufio (bsize b) r)) w')
               else match file_Write r w' with
                    | inl e => inl e
                    | inr w'' => inr (set_bWriter (Some (mkBufio (bsize b) 0)) w'')
                    end
           end
  end.

(** A write of the gzip layer into its target. *)
Definition target_Write (l : Layer) (n : Z) (w : Writer) : string + Writer :=
  match l with
  | LFile => file_Write n w
  | LBuf => bufio_Write n w
  | LGzip => inl "gzip cannot wrap itself"
  | LChan => inl "gzip over a channel is never built"
  end.

Section Env.

(** Bytes pgzip emits when it flushes [p] pending bytes (header and
    compressed blocks), and when it closes with [p] bytes pending (the
    last blocks and the trailer). *)
Variable gzFlushOut : Z -> Z.
Variable gzCloseOut : Z -> Z.

(** [gzip.Writer.Flush]: returns at once on a closed writer. *)
Definition gzip_Flush (g : GzipWriter) (w : Writer) : string + Writer :=
  if gclosed g then inr w
  else match target_Write (gwr g) (gzFlushOut (gpending g)) w with
       | inl e => inl e
       | inr w' =>
           inr (set_gWriter
                  (Some (mkGzip (gwr g) 0 false (gblockSize g) (gblocks g))) w')
       end.

(** [gzip.Writer.Close]: returns at once on a closed writer; else marks
    it closed and writes what is left and the trailer. *)
Definition gzip_Close (g : GzipWriter) (w : Writer) : string + Writer :=
  if gclosed g then inr w
  else match target_Write (gwr g) (gzCloseOut (gpending g)) w with
       | inl e => inl e
       | inr w' =>
           inr (set_gWriter
                  (Some (mkGzip (gwr g) 0 true (gblockSize g) (gblocks g))) w')
       end.

(** *** Constants and helpers of the package that the file uses *)

(** [DefaultBufferSize] is declared in another file of the package; its
    value is a parameter here. *)
Variable DefaultBufferSize : Z.

(** Modelled from the spec: [DefaultCompressionBlockSize] (declared outside
    writer.go): "a block size (default 1 MiB)". *)
Definition DefaultCompressionBlockSize : Z := 1048576.

(** [runtime.GOMAXPROCS(0)]. *)
Variable GOMAXPROCS : Z.

(** Whether the operating system lets the file of this path be created. *)
Variable creatable : string -> bool.

(** The elements of a path: what stands between its separators [/]. *)
Fixpoint pathElements (path : string) : list string :=
  match path with
  | EmptyString => [EmptyString]
  | String c rest =>
      if Ascii.eqb c "/"%char then EmptyString :: pathElements rest
      else match pathElements rest with
           | e :: es => String c e :: es
           | [] => [String c EmptyString]
           end
  end.

(** One round of the loop of [filepath.Clean] of the Go library, for the
    element [e]; [kept] holds the elements written so far, the last one
    first. An empty element and [.] are skipped; [..] takes the last
    element away when there is one to go back over, is written when the
    path is not rooted, and is dropped at the root. *)
Definition cleanElement (rooted : bool) (kept : list string) (e : string)
  : list string :=
  if String.eqb e "" then kept
  else if String.eqb e "." then kept
  else if String.eqb e ".." then
    match kept with
    | top :: kept' =>
        if String.eqb top ".." then (if rooted then kept else ".." :: kept)
        else kept'
    | [] => if rooted then kept else [".."]
    end
  else e :: kept.

(** [filepath.Clean] where the separator is [/]: the shortest path that
    names the same file by its spelling alone; the empty path becomes
    [.]. *)
Definition filepath_Clean (path : string) : string :=
  if String.eqb path "" then "."
  else
    let rooted :=
      match path with
      | String c _ => Ascii.eqb c "/"%char
      | EmptyString => false
      end in
    let kept := foldl (cleanElement rooted) [] (pathElements path) in
    let cleaned :=
      String.append (if rooted then "/" else "")
        (String.concat "/" (rev kept)) in
    if String.eqb cleaned "" then "." else cleaned.

(** [filepath.Join(out, name)]: the elements from the first one that is
    not empty are joined with [/] and the result is cleaned; with no such
    element the result is the empty string. *)
Definition filepath_Join (out name : string) : string :=
  if negb (String.eqb out "")
  then filepath_Clean (String.append out (String.append "/" name))
  else if negb (String.eqb name "") then filepath_Clean name
  else "".

(** Modelled from the spec: [CreateFile] (a helper of the package, missing
    from src/) creates the file [name ++ ext]; a failure to allocate the
    resource is fatal (error kind K2 of the spec). *)
Definition CreateFile (name ext : string) : result File :=
  let path := String.append name ext in
  if creatable path then Ok (mkFile path 0 false)
  else Fatal "cannot create file".

(** What [CloseFile] reports when the writer has no file (channel mode);
    the spec does not say, so it is a parameter. *)
Variable CloseFile_nil : string -> string -> string * Z.

(** Modelled from the spec: [CloseFile] (a helper of the package, missing
    from src/): "close file, report final size"; [close()] gives
    "(name, bytesWritten)". The handle is closed and the name and size of
    the file are reported. *)
Definition CloseFile (out : string) (f : option File) (typ : string)
  : (string * Z) * option File :=
  match f with
  | None => (CloseFile_nil out typ, None)
  | Some f => ((fname f, fsize f), Some (mkFile (fname f) (fsize f) true))
  end.

(** *** Constructor *)

(** The block [if w.gWriter != nil { SetConcurrency ... log.Fatal }] that
    ends both branches of [NewWriter]. *)
Definition configureCompression (w : Writer) : result Writer :=
  match gWriter w with
  | None => Ok w
  | Some g =>
      match gzip_SetConcurrency DefaultCompressionBlockSize
              (wrapS64 (GOMAXPROCS * 2)) g with
      | inl e => Fatal (String.append "failed to configure compression package: " e)
      | inr g' => Ok (set_gWriter (Some g') w)
      end
  end.

Definition chanPanic : string :=
  "buffering or compression cannot be activated when running using writeChan".

Definition NewWriter (name : string) (buffer compress csv : bool)
  (out : string) (writeChan : bool) (memBufferSize : Z) : result Writer :=
  let w := mkWriter name None None None None None None None
             compress buffer csv out writeChan in
  let memBufferSize :=
    if memBufferSize <=? 0 then DefaultBufferSize else memBufferSize in
  if csv then
    f <-! (if compress
           then CreateFile (filepath_Join out (Name w)) ".csv.gz"
           else CreateFile (filepath_Join out (Name w)) ".csv");
    let w := set_file (Some f) w in
    let w :=
      if buffer then
        let w := set_bWriter (Some (bufio_NewWriterSize memBufferSize)) w in
        if compress
        then set_csvWriter (Some LGzip)
               (set_gWriter (Some (gzip_NewWriter LBuf)) w)
        else set_csvWriter (Some LBuf) w
      else
        if compress
        then set_csvWriter (Some LGzip)
               (set_gWriter (Some (gzip_NewWriter LFile)) w)
        else set_csvWriter (Some LFile) w in
    configureCompression w
  else
    if (writeChan && buffer) || (writeChan && compress) then Panic chanPanic
    else
      w <-! (if writeChan then Ok (set_cWriter (Some (mkChan [])) w)
             else
               f <-! (if compress
                      then CreateFile (filepath_Join out (Name w)) ".ncap.gz"
                      else CreateFile (filepath_Join out (Name w)) ".ncap");
               Ok (set_file (Some f) w));
      let w :=
        if buffer then
          let w := set_bWriter (Some (bufio_NewWriterSize DefaultBufferSize)) w in
          if compress
          then set_dWriter (Some LGzip)
                 (set_gWriter (Some (gzip_NewWriter LBuf)) w)
          else set_dWriter (Some LBuf) w
        else
          if compress
          then set_dWriter (Some LGzip)
                 (set_gWriter (Some (gzip_NewWriter LFile)) w)
          else
            if writeChan then set_dWriter (Some LChan) w
            else set_dWriter (Some LFile) w in
      let w := set_aWriter (dWriter w) w in
      configureCompression w.

(** *** Close *)

Definition nilDeref : string :=
  "invalid memory address or nil pointer dereference".

(** [CloseGzipWriters(w.gWriter)]: the loop over the variadic list runs once,
    on the gzip writer of [w]; [Flush] and [Close] act on the same object. *)
Definition CloseGzipWriters (w : Writer) : result Writer :=
  match gWriter w with
  | None => Panic nilDeref
  | Some g =>
      match gzip_Flush g w with
      | inl e => Panic e
      | inr w1 =>
          match gWriter w1 with
          | None => Panic nilDeref
          | Some g1 =>
              match gzip_Close g1 w1 with
              | inl e => Panic e
              | inr w2 => Ok w2
              end
          end
      end
  end.

(** [FlushWriters(w.bWriter)]. *)
Definition FlushWriters (w : Writer) : result Writer :=
  match bWriter w with
  | None => Panic nilDeref
  | Some b =>
      match bufio_Flush b w with
      | inl e => Panic e
      | inr w1 => Ok w1
      end
  end.

Definition Close (w : Writer) : result ((string * Z) * Writer) :=
  w1 <-! (if compress w then CloseGzipWriters w else Ok w);
  w2 <-! (if buffer w1 then FlushWriters w1 else Ok w1);
  let '(r, f) := CloseFile (out w2) (file w2) (Name w2) in
  Ok (r, set_file f w2).

(** *** Writing records *)

(** [proto.Message]. The record writers of the [io] and [delimited]
    packages are not under src/: a call of one of them is given by the layer
    the writer sits on, and hands back its error, if any, and the writer
    with its layers after the bytes went in ([WriteRecord] and the CSV
    [WriteHeader] hand back a byte count as well). *)
Variable Message : Type.
Variable PutProto : Layer -> Message -> Writer -> option string * Writer.
Variable WriteRecord : Layer -> Message -> Writer -> Z * option string * Writer.
Variable CSVWriteHeader : Layer -> Message -> Writer -> Z * option string * Writer.

(** [types.Type], and the helpers [InitRecord] and [NewHeader] of the
    package, which are not under src/ either. *)
Variable RecordType : Type.
Variable InitRecord : RecordType -> Message.
Variable NewHeader : RecordType -> string -> string -> bool -> Message.

(** [WriteProto]: a call through the nil [aWriter] of a CSV writer
    panics. The mutex is not modelled: calls come one after the other. *)
Definition WriteProto (w : Writer) (msg : Message)
  : result (option string * Writer) :=
  match aWriter w with
  | None => Panic nilDeref
  | Some l => Ok (PutProto l msg w)
  end.

Definition WriteCSV (w : Writer) (msg : Message)
  : result (Z * option string * Writer) :=
  match csvWriter w with
  | None => Panic nilDeref
  | Some l => Ok (WriteRecord l msg w)
  end.

Definition WriteCSVHeader (w : Writer) (msg : Message)
  : result (Z * option string * Writer) :=
  match csvWriter w with
  | None => Panic nilDeref
  | Some l => Ok (CSVWriteHeader l msg w)
  end.

(** [Write]: the error handed back and the writer afterwards; an error of
    the record writer is turned into a panic. *)
Definition Write (w : Writer) (msg : Message)
  : result (option string * Writer) :=
  if csv w then
    (* write as csv *)
    r <-! WriteCSV w msg;
    match r with
    | (_, Some err, _) => Panic err
    | (_, None, w') => Ok (None, w')
    end
  else
    (* write protobuf *)
    r <-! WriteProto w msg;
    match r with
    | (Some err, _) => Panic err
    | (None, w') => Ok (None, w')
    end.

Definition WriteHeader (w : Writer) (t : RecordType) (source version : string)
  (includesPayloads : bool) : result (option string * Writer) :=
  if csv w then
    (* write as csv *)
    r <-! WriteCSVHeader w (InitRecord t);
    match r with
    | (_, Some err, _) => Panic err
    | (_, None, w') => Ok (None, w')
    end
  else
    (* write protobuf *)
    r <-! WriteProto w (NewHeader t source version includesPayloads);
    match r with
    | (Some err, _) => Panic err
    | (None, w') => Ok (None, w')
    end.

(** [GetChan]: [w.cWriter.Chan()] reads the channel out of the channel
    writer, which panics when there is none. *)
Definition GetChan (w : Writer) : result ChanWriter :=
  match cWriter w with
  | None => Panic nilDeref
  | Some cw => Ok cw
  end.

Definition IsCSV (w : Writer) : bool := csv w.

(** *** Predicates and values of the statements *)

(** The configuration flags of a writer; no library call changes them. *)
Definition flags (w : Writer) : bool * bool * string * string :=
  (compress w, buffer w, out w, Name w).

(** The state in which the first [Close] leaves the writer: the gzip layer
    (if compressing) closed, the buffer (if buffering) empty. *)
Definition closedLayers (w : Writer) : Prop :=
  (compress w = true -> exists g, gWriter w = Some g /\ gclosed g = true) /\
  (buffer w = true -> exists b, bWriter w = Some b /\ bn b = 0).

(** What [NewWriter] establishes and the first [Close] needs: the layers
    the flags ask for are there, and the file below them is open. *)
Definition ready (w : Writer) : Prop :=
  (compress w = true ->
   exists g, gWriter w = Some g /\
             (gwr g = LFile \/ gwr g = LBuf /\ is_Some (bWriter w)))
  /\ (buffer w = true -> is_Some (bWriter w))
  /\ (compress w || buffer w = true ->
      exists f, file w = Some f /\ fclosed f = false).

Definition fileOpen (w : Writer) : Prop :=
  exists f, file w = Some f /\ fclosed f = false.

(** The writer of channel mode: no file, no buffer, no gzip; the delimited
    writer sits on the channel writer. *)
Definition chanWriter (name out : string) : Writer :=
  mkWriter name None None None (Some LChan) (Some LChan) (Some (mkChan []))
    None false false false out true.

(** The size [NewWriter] settles on for its [memBufferSize] argument. *)
Definition effectiveBufferSize (m : Z) : Z :=
  if m <=? 0 then DefaultBufferSize else m.

(** The layer on which [NewWriter] puts the record writer of a
    configuration: the gzip layer when compressing, else the buffer when
    buffering, else the channel (outside CSV mode) or the file. *)
Definition topLayer (buffer compress csv writeChan : bool) : Layer :=
  if compress then LGzip
  else if buffer then LBuf
  else if negb csv && writeChan then LChan
  else LFile.

(** The bytes in the file, the bytes waiting in the buffer, and the bytes
    the gzip layer still has to put out when it is flushed and closed. *)
Definition fileSize (w : Writer) : Z :=
  match file w with Some f => fsize f | None => 0 end.
Definition buffered (w : Writer) : Z :=
  match bWriter w with Some b => bn b | None => 0 end.
Definition gzOwed (w : Writer) : Z :=
  match gWriter w with
  | Some g => if gclosed g then 0 else gzFlushOut (gpending g) + gzCloseOut 0
  | None => 0
  end.

(** The gzip layer sits where [NewWriter] puts it: on the buffer when
    buffering, on the file otherwise. *)
Definition layered (w : Writer) : Prop :=
  compress w = true ->
  exists g, gWriter w = Some g /\ gwr g = (if buffer w then LBuf else LFile).

(** The case analysis of [NewWriter]: its branches, and the calls that
    can fail in them. *)
Ltac NewWriter_cases :=
  unfold NewWriter, configureCompression, CreateFile, gzip_SetConcurrency, rbind;
  simpl;
  repeat match goal with
         | |- context [creatable ?p] => destruct (creatable p)
         | |- context [DefaultCompressionBlockSize <=? ?p] =>
             destruct (DefaultCompressionBlockSize <=? p)
         | |- context [wrapS64 ?p <=? 0] => destruct (wrapS64 p <=? 0)
         end; simpl; try discriminate.

(** *** Facts about [Close] *)

Lemma file_Write_inv n w w1 :
  file_Write n w = inr w1 ->
  flags w1 = flags w /\ gWriter w1 = gWriter w /\ bWriter w1 = bWriter w.
Proof.
  unfold file_Write. destruct (file w) as [f|]; [|discriminate].
  destruct (fclosed f); [discriminate|].
  intros [= <-]. auto.
Qed.

Lemma bufio_Write_inv n w w1 :
  bufio_Write n w = inr w1 ->
  flags w1 = flags w /\ gWriter w1 = gWriter w /\ is_Some (bWriter w1).
Proof.
  unfold bufio_Write. destruct (bWriter w) as [b|] eqn:Hb; [|discriminate].
  destruct (n <=? bsize b - bn b).
  { intros [= <-]. simpl. eauto. }
  destruct (bn b =? 0).
  { intros H. apply file_Write_inv in H as (? & ? & ->). rewrite Hb. eauto. }
  destruct (file_Write (bsize b) w) as [e|w'] eqn:H1; [discriminate|].
  apply file_Write_inv in H1 as (Hf & Hg & _).
  destruct (n - (bsize b - bn b) <=? bsize b).
  { intros [= <-]. simpl. eauto. }
  destruct (file_Write _ w') as [e|w''] eqn:H2; [discriminate|].
  apply file_Write_inv in H2 as (Hf2 & Hg2 & _).
  intros [= <-]. simpl. unfold flags in *. simpl.
  split; [congruence|]. split; [congruence|eauto].
Qed.

Lemma target_Write_inv l n w w1 :
  target_Write l n w = inr w1 ->
  flags w1 = flags w /\ gWriter w1 = gWriter w /\
  (is_Some (bWriter w) -> is_Some (bWriter w1)).
Proof.
  destruct l; simpl; try discriminate.
  - intros H. apply file_Write_inv in H as (? & ? & ->). auto.
  - intros H. apply bufio_Write_inv in H as (? & ? & ?). auto.
Qed.

(** After [CloseGzipWriters] the gzip writer is there and closed. *)
Lemma CloseGzipWriters_closed w w1 :
  CloseGzipWriters w = Ok w1 ->
  flags w1 = flags w /\
  (exists g, gWriter w1 = Some g /\ gclosed g = true) /\
  (is_Some (bWriter w) -> is_Some (bWriter w1)).
Proof.
  unfold CloseGzipWriters.
  destruct (gWriter w) as [g|] eqn:Hg; [|discriminate].
  unfold gzip_Flush. destruct (gclosed g) eqn:Hc.
  - rewrite Hg. unfold gzip_Close. rewrite Hc. intros [= <-]. eauto.
  - destruct (target_Write _ _ w) as [e|w'] eqn:H1; [discriminate|].
    apply target_Write_inv in H1 as (Hf & _ & Hb).
    simpl. unfold gzip_Close. simpl.
    destruct (target_Write (gwr g) _ _) as [e|w''] eqn:H2; [discriminate|].
    apply target_Write_inv in H2 as (Hf2 & _ & Hb2).
    intros [= <-]. simpl. split; [|split]; eauto.
    unfold flags in *. simpl in *. congruence.
Qed.

(** On a closed gzip writer [CloseGzipWriters] does nothing. *)
Lemma CloseGzipWriters_idem w g :
  gWriter w = Some g -> gclosed g = true -> CloseGzipWriters w = Ok w.
Proof.
  intros Hg Hc. unfold CloseGzipWriters, gzip_Flush, gzip_Close.
  rewrite Hg, Hc, Hg, Hc. reflexivity.
Qed.

(** After [FlushWriters] the buffer is there and empty. *)
Lemma FlushWriters_empty w w1 :
  FlushWriters w = Ok w1 ->
  flags w1 = flags w /\ gWriter w1 = gWriter w /\
  exists b, bWriter w1 = Some b /\ bn b = 0.
Proof.
  unfold FlushWriters, bufio_Flush.
  destruct (bWriter w) as [b|] eqn:Hb; [|discriminate].
  destruct (bn b =? 0) eqn:Hn.
  - intros [= <-]. apply Z.eqb_eq in Hn. eauto.
  - destruct (file_Write (bn b) w) as [e|w'] eqn:H1; [discriminate|].
    apply file_Write_inv in H1 as (? & ? & ?).
    intros [= <-]. simpl. eauto.
Qed.

(** On an empty buffer [FlushWriters] does nothing. *)
Lemma FlushWriters_idem w b :
  bWriter w = Some b -> bn b = 0 -> FlushWriters w = Ok w.
Proof.
  intros Hb Hn. unfold FlushWriters, bufio_Flush. rewrite Hb, Hn. reflexivity.
Qed.

Lemma Close_closedLayers w r w1 :
  Close w = Ok (r, w1) ->
  closedLayers w1 /\ flags w1 = flags w /\
  r = fst (CloseFile (out w1) (file w1) (Name w1)).
Proof.
  unfold Close, rbind.
  destruct (if compress w then CloseGzipWriters w else Ok w)
    as [wa| |] eqn:Ha; try discriminate.
  destruct (if buffer wa then FlushWriters wa else Ok wa)
    as [wb| |] eqn:Hb; try discriminate.
  assert (Hfa : flags wa = flags w /\
                (compress w = true ->
                 exists g, gWriter wa = Some g /\ gclosed g = true)).
  { destruct (compress w) eqn:Hc.
    - apply CloseGzipWriters_closed in Ha as (? & ? & _). auto.
    - injection Ha as <-. split; [reflexivity|discriminate]. }
  destruct Hfa as [Hfa Hga].
  assert (Hfb : flags wb = flags wa /\ gWriter wb = gWriter wa /\
                (buffer wa = true ->
                 exists b, bWriter wb = Some b /\ bn b = 0)).
  { destruct (buffer wa) eqn:Hc.
    - apply FlushWriters_empty in Hb as (? & ? & ?). auto.
    - injection Hb as <-. repeat split; discriminate. }
  destruct Hfb as (Hfb & Hgb & Hbb).
  destruct (CloseFile (out wb) (file wb) (Name wb)) as [r' f'] eqn:Hcf.
  intros [= <- <-].
  assert (Hfl : flags (set_file f' wb) = flags w)
    by (unfold flags in *; simpl; congruence).
  unfold closedLayers. simpl.
  unfold flags in *. simpl in *.
  injection Hfa as ? ? ? ?. injection Hfb as ? ? ? ?.
  repeat split.
  - intros Hc. rewrite Hgb. apply Hga. congruence.
  - intros Hc. apply Hbb. congruence.
  - congruence.
  - unfold CloseFile in *. destruct (file wb) as [f|]; simpl in *.
    + injection Hcf as <- <-. reflexivity.
    + injection Hcf as <- <-. reflexivity.
Qed.

(** In that state [Close] changes nothing and reports the file again. *)
Lemma Close_on_closedLayers w :
  closedLayers w ->
  Close w =
  Ok (fst (CloseFile (out w) (file w) (Name w)),
      set_file (snd (CloseFile (out w) (file w) (Name w))) w).
Proof.
  intros [Hg Hb]. unfold Close, rbind.
  assert (Ha : (if compress w then CloseGzipWriters w else Ok w) = Ok w).
  { destruct (compress w); [|reflexivity].
    destruct (Hg eq_refl) as (g & ? & ?). eauto using CloseGzipWriters_idem. }
  rewrite Ha.
  assert (Hc : (if buffer w then FlushWriters w else Ok w) = Ok w).
  { destruct (buffer w); [|reflexivity].
    destruct (Hb eq_refl) as (b & ? & ?). eauto using FlushWriters_idem. }
  rewrite Hc. destruct (CloseFile _ _ _). reflexivity.
Qed.

(** When a [Close] returns [(name, size)], the next [Close] returns as
    well (no panic) and reports the same [(name, size)]. *)
Lemma Close_again w r w1 :
  Close w = Ok (r, w1) -> exists w2, Close w1 = Ok (r, w2).
Proof.
  intros H. pose proof (Close_closedLayers _ _ _ H) as (Hcl & _ & Hr).
  rewrite (Close_on_closedLayers _ Hcl). eexists. rewrite Hr. reflexivity.
Qed.

Lemma file_Write_open n w :
  fileOpen w -> exists w1, file_Write n w = inr w1 /\ fileOpen w1.
Proof.
  intros (f & Hf & Hc). unfold file_Write. rewrite Hf, Hc.
  eexists. split; [reflexivity|]. unfold fileOpen. simpl. eauto.
Qed.

Lemma bufio_Write_open n w :
  fileOpen w -> is_Some (bWriter w) ->
  exists w1, bufio_Write n w = inr w1 /\ fileOpen w1.
Proof.
  intros Ho [b Hb]. unfold bufio_Write. rewrite Hb.
  destruct (n <=? bsize b - bn b); [eauto|].
  destruct (bn b =? 0); [apply file_Write_open; assumption|].
  destruct (file_Write_open (bsize b) w Ho) as (w' & -> & Ho').
  destruct (_ <=? bsize b); [eauto|].
  destruct (file_Write_open (n - (bsize b - bn b)) w' Ho') as (w'' & -> & Ho'').
  eauto.
Qed.

Lemma target_Write_open l n w :
  fileOpen w -> l = LFile \/ l = LBuf /\ is_Some (bWriter w) ->
  exists w1, target_Write l n w = inr w1 /\ fileOpen w1.
Proof.
  intros Ho [->|[-> Hb]]; simpl.
  - apply file_Write_open; assumption.
  - apply bufio_Write_open; assumption.
Qed.

Lemma Close_ready w : ready w -> exists r w1, Close w = Ok (r, w1).
Proof.
  intros (Hg & Hb & Hf). unfold Close, rbind.
  assert (Ha : exists wa,
             (if compress w then CloseGzipWriters w else Ok w) = Ok wa /\
             buffer wa = buffer w /\
             (is_Some (bWriter w) -> is_Some (bWriter wa)) /\
             (fileOpen w -> fileOpen wa)).
  { destruct (compress w) eqn:Hc; [|eauto 10].
    destruct (Hg eq_refl) as (g & Hgw & Ht).
    destruct (Hf eq_refl) as (f & Hfo).
    unfold CloseGzipWriters, gzip_Flush, gzip_Close. rewrite Hgw.
    destruct (gclosed g) eqn:Hcl.
    { rewrite Hgw, Hcl. eauto 10. }
    destruct (target_Write_open (gwr g) (gzFlushOut (gpending g)) w)
      as (w1 & H1 & Ho1); [exists f; exact Hfo|exact Ht|].
    rewrite H1. simpl.
    pose proof (target_Write_inv _ _ _ _ H1) as (Hfl1 & _ & Hb1).
    destruct (target_Write_open (gwr g) (gzCloseOut 0) (set_gWriter
                (Some (mkGzip (gwr g) 0 false (gblockSize g) (gblocks g))) w1))
      as (w2 & H2 & Ho2).
    { exact Ho1. }
    { destruct Ht as [?|[? ?]]; [left; assumption|right; auto]. }
    rewrite H2.
    pose proof (target_Write_inv _ _ _ _ H2) as (Hfl2 & _ & Hb2).
    eexists. split; [reflexivity|]. simpl.
    unfold flags in *. simpl in *.
    injection Hfl1 as ? ? ? ?. injection Hfl2 as ? ? ? ?.
    split; [congruence|]. split; [auto|]. intros _. exact Ho2. }
  destruct Ha as (wa & -> & Hbu & Hbw & Hfo).
  assert (Hc : exists wb,
             (if buffer wa then FlushWriters wa else Ok wa) = Ok wb).
  { rewrite Hbu. destruct (buffer w) eqn:Hc; [|eauto].
    destruct (Hbw (Hb eq_refl)) as [b Hbb].
    unfold FlushWriters, bufio_Flush. rewrite Hbb.
    destruct (bn b =? 0); [eauto|].
    destruct (file_Write_open (bn b) wa) as (w1 & -> & _); [|eauto].
    apply Hfo. apply Hf. rewrite orb_true_r. reflexivity. }
  destruct Hc as (wb & ->).
  destruct (CloseFile _ _ _). eauto.
Qed.

Lemma NewWriter_ready name buffer compress csv out writeChan m w :
  NewWriter name buffer compress csv out writeChan m = Ok w -> ready w.
Proof.
  unfold NewWriter, configureCompression, CreateFile, gzip_SetConcurrency, rbind.
  destruct csv, buffer, compress, writeChan; simpl;
    repeat match goal with
           | |- context [creatable ?p] => destruct (creatable p)
           | |- context [DefaultCompressionBlockSize <=? ?p] =>
               destruct (DefaultCompressionBlockSize <=? p)
           | |- context [wrapS64 ?p <=? 0] => destruct (wrapS64 p <=? 0)
           end; simpl; try discriminate;
    intros H%Ok_inj; subst w; unfold ready; simpl;
    (split; [|split]); try discriminate; eauto 10.
Qed.

(** C7. Closing a writer twice in succession. For every writer in a
    state [NewWriter] can leave it in (every configuration, with any amount
    of data in its layers), the first [Close] returns some [(name, size)],
    and the second [Close] returns as well (no panic) and reports the same
    [(name, size)]. *)
Theorem Close_twice_same w :
  ready w ->
  exists r w1 w2, Close w = Ok (r, w1) /\ Close w1 = Ok (r, w2).
Proof.
  intros Hr. destruct (Close_ready w Hr) as (r & w1 & H1).
  destruct (Close_again w r w1 H1) as (w2 & H2). eauto.
Qed.

(** In particular for the writer of every configuration for which
    [NewWriter] returns one. *)
Lemma Close_twice_after_NewWriter name buffer compress csv out writeChan m w :
  NewWriter name buffer compress csv out writeChan m = Ok w ->
  exists r w1 w2, Close w = Ok (r, w1) /\ Close w1 = Ok (r, w2).
Proof.
  intros H. destruct (Close_ready w (NewWriter_ready _ _ _ _ _ _ _ _ H))
    as (r & w1 & H1).
  destruct (Close_again w r w1 H1) as (w2 & H2). eauto.
Qed.

(** *** Facts about [NewWriter] *)

(** C8 (as the code has it). Outside CSV mode, [NewWriter] with
    [writeChan] set panics when buffering or compression is requested as
    well, and builds the channel writer when both are off. *)
Theorem NewWriter_channel_guard name buffer compress out m :
  NewWriter name buffer compress false out true m =
    (if buffer || compress then Panic chanPanic
     else Ok (chanWriter name out)).
Proof. unfold NewWriter. destruct buffer, compress; reflexivity. Qed.

(** In CSV mode the check is not reached: [NewWriter] does not panic
    there, whatever [writeChan], [buffer] and [compress] are. *)
Lemma NewWriter_csv_no_panic name buffer compress out writeChan m :
  match NewWriter name buffer compress true out writeChan m with
  | Panic _ => False
  | _ => True
  end.
Proof.
  unfold NewWriter, configureCompression, CreateFile, gzip_SetConcurrency,
    rbind.
  destruct buffer, compress; simpl;
    repeat match goal with
           | |- context [creatable ?p] => destruct (creatable p)
           | |- context [DefaultCompressionBlockSize <=? ?p] =>
               destruct (DefaultCompressionBlockSize <=? p)
           | |- context [wrapS64 ?p <=? 0] => destruct (wrapS64 p <=? 0)
           end; simpl; exact I.
Qed.

(** C9. When [NewWriter] returns a writer: if buffering is on, the
    buffered layer is made with the size [memBufferSize]
    ([DefaultBufferSize] when the argument is zero or less) in CSV mode and
    with the size [DefaultBufferSize] outside CSV mode, and, with a
    positive [DefaultBufferSize], that is the size it has; outside CSV
    mode, and without buffering, the writer returned is the same for every
    [memBufferSize]. *)
Theorem memBufferSize_only_csv name buffer compress csv out writeChan m w :
  NewWriter name buffer compress csv out writeChan m = Ok w ->
  (buffer = true ->
   bWriter w
   = Some (bufio_NewWriterSize
             (if csv then effectiveBufferSize m else DefaultBufferSize)) /\
   (0 < DefaultBufferSize ->
    exists b, bWriter w = Some b /\
              bsize b = if csv then effectiveBufferSize m
                        else DefaultBufferSize))
  /\ (csv = false \/ buffer = false ->
      forall m', NewWriter name buffer compress csv out writeChan m' = Ok w).
Proof.
  intros H.
  assert (Hb : buffer = true ->
               bWriter w
               = Some (bufio_NewWriterSize
                         (if csv then effectiveBufferSize m
                          else DefaultBufferSize))).
  { intros ->. revert H.
    unfold NewWriter, configureCompression, CreateFile, gzip_SetConcurrency,
      rbind.
    fold (effectiveBufferSize m).
    destruct csv, compress, writeChan; simpl;
      repeat match goal with
             | |- context [creatable ?p] => destruct (creatable p)
             | |- context [DefaultCompressionBlockSize <=? ?p] =>
                 destruct (DefaultCompressionBlockSize <=? p)
             | |- context [wrapS64 ?p <=? 0] => destruct (wrapS64 p <=? 0)
             end; simpl; try discriminate;
      intros H%Ok_inj; subst w; reflexivity. }
  split.
  - intros Hbuf. split; [auto|]. intros Hpos. rewrite (Hb Hbuf).
    eexists. split; [reflexivity|]. unfold bufio_NewWriterSize. simpl.
    assert (Hsz : 0 < (if csv then effectiveBufferSize m else DefaultBufferSize)).
    { unfold effectiveBufferSize. destruct csv; [|assumption].
      destruct (m <=? 0) eqn:Hm; lia. }
    destruct (_ <=? 0) eqn:Hle; [lia|reflexivity].
  - intros Hor m'. rewrite <- H. unfold NewWriter.
    destruct Hor as [->| ->]; [reflexivity|]. destruct csv; reflexivity.
Qed.

(** *** What [NewWriter] builds, and writing through it *)

(** The record writer of the mode is there, on the layer of the
    configuration, and the flag [csv] is the one given. *)
Lemma NewWriter_top name buffer compress csv out writeChan m w :
  NewWriter name buffer compress csv out writeChan m = Ok w ->
  Writer.csv w = csv /\
  csvWriter w = (if csv then Some (topLayer buffer compress csv writeChan)
                 else None) /\
  dWriter w = (if csv then None
               else Some (topLayer buffer compress csv writeChan)) /\
  aWriter w = dWriter w /\
  cWriter w = (if negb csv && writeChan then Some (mkChan []) else None).
Proof.
  destruct csv, buffer, compress, writeChan; NewWriter_cases;
    intros H%Ok_inj; subst w; simpl; repeat split; reflexivity.
Qed.

(** X1. The chain of layers [NewWriter] builds. When it returns a writer,
    the writer carries the name and the flags given; the gzip layer is
    there exactly when compressing, open, configured with the block size
    and twice [GOMAXPROCS] blocks, and it sits on the buffer when buffering
    and on the file otherwise; the buffer is there exactly when buffering;
    the record writer (CSV in CSV mode, delimited otherwise, and then the
    atomic writer is the same) sits on the gzip layer, else on the buffer,
    else on the channel or the file; the channel writer is there exactly
    outside CSV mode with [writeChan]; and a file, empty and open, is there
    exactly in CSV mode or without [writeChan]. *)
Theorem NewWriter_layers name buffer compress csv out writeChan m w :
  NewWriter name buffer compress csv out writeChan m = Ok w ->
  flags w = (compress, buffer, out, name) /\
  IsCSV w = csv /\ IsChanWriter w = writeChan /\
  gWriter w
  = (if compress
     then Some (mkGzip (if buffer then LBuf else LFile) 0 false
                  DefaultCompressionBlockSize (wrapS64 (GOMAXPROCS * 2)))
     else None) /\
  (if buffer then exists b, bWriter w = Some b /\ bn b = 0
   else bWriter w = None) /\
  csvWriter w = (if csv then Some (topLayer buffer compress csv writeChan)
                 else None) /\
  dWriter w = (if csv then None
               else Some (topLayer buffer compress csv writeChan)) /\
  aWriter w = dWriter w /\
  cWriter w = (if negb csv && writeChan then Some (mkChan []) else None) /\
  (if csv || negb writeChan
   then exists f, file w = Some f /\ fsize f = 0 /\ fclosed f = false
   else file w = None).
Proof.
  intros H. pose proof (NewWriter_top _ _ _ _ _ _ _ _ H) as (Hc & Hcsv & Hd & Ha & Hch).
  unfold IsCSV. rewrite Hc, Hcsv, Hd, Ha, Hch. clear Hc Hcsv Hd Ha Hch.
  revert H.
  destruct csv, buffer, compress, writeChan; NewWriter_cases;
    intros H%Ok_inj; subst w; unfold flags; simpl;
    repeat split; eauto.
Qed.

(** X2. Writing through a writer made by [NewWriter]. [Write] hands the
    message to the CSV writer in CSV mode and to the protobuf writer
    otherwise, each on the layer of the configuration; it never calls
    through a nil writer; it panics with the error of that writer when there
    is one, and hands back nil otherwise. [WriteHeader] does the same with
    the record of [InitRecord] and the header of [NewHeader]. [GetChan]
    hands back the empty channel of the writer outside CSV mode with
    [writeChan], and panics on the nil channel writer in every other
    configuration, also in CSV mode with [writeChan] set. *)
Theorem Write_after_NewWriter name buffer compress csv out writeChan m w :
  NewWriter name buffer compress csv out writeChan m = Ok w ->
  let top := topLayer buffer compress csv writeChan in
  (forall msg,
      Write w msg
      = if csv then
          match WriteRecord top msg w with
          | (_, Some err, _) => Panic err
          | (_, None, w') => Ok (None, w')
          end
        else
          match PutProto top msg w with
          | (Some err, _) => Panic err
          | (None, w') => Ok (None, w')
          end) /\
  (forall t source version includesPayloads,
      WriteHeader w t source version includesPayloads
      = if csv then
          match CSVWriteHeader top (InitRecord t) w with
          | (_, Some err, _) => Panic err
          | (_, None, w') => Ok (None, w')
          end
        else
          match PutProto top (NewHeader t source version includesPayloads) w with
          | (Some err, _) => Panic err
          | (None, w') => Ok (None, w')
          end) /\
  GetChan w = (if negb csv && writeChan then Ok (mkChan []) else Panic nilDeref).
Proof.
  intros H top.
  pose proof (NewWriter_top _ _ _ _ _ _ _ _ H) as (Hc & Hcsv & Hd & Ha & Hch).
  unfold Write, WriteHeader, WriteCSV, WriteCSVHeader, WriteProto, GetChan, rbind.
  rewrite Hc, Hcsv, Ha, Hd, Hch. fold top.
  split; [|split].
  - intros msg. destruct csv; reflexivity.
  - intros t source version includesPayloads. destruct csv; reflexivity.
  - destruct (negb csv && writeChan); reflexivity.
Qed.

(** *** The flushing steps of [Close] *)

Lemma file_Write_size n w w1 :
  file_Write n w = inr w1 ->
  fileSize w1 = fileSize w + n /\ buffered w1 = buffered w.
Proof.
  unfold file_Write, fileSize, buffered.
  destruct (file w) as [f|]; [|discriminate].
  destruct (fclosed f); [discriminate|].
  intros [= <-]. simpl. auto.
Qed.

Lemma bufio_Write_size n w w1 :
  bufio_Write n w = inr w1 ->
  fileSize w1 + buffered w1 = fileSize w + buffered w + n.
Proof.
  unfold bufio_Write. destruct (bWriter w) as [b|] eqn:Hb; [|discriminate].
  assert (Hbw : buffered w = bn b) by (unfold buffered; rewrite Hb; reflexivity).
  destruct (n <=? bsize b - bn b).
  { intros [= <-]. unfold fileSize, buffered in *. simpl. lia. }
  destruct (bn b =? 0) eqn:Hn.
  { intros H. apply file_Write_size in H as [-> ->]. lia. }
  destruct (file_Write (bsize b) w) as [e|w'] eqn:H1; [discriminate|].
  apply file_Write_size in H1 as [Hf1 Hb1].
  destruct (n - (bsize b - bn b) <=? bsize b).
  { intros [= <-]. unfold fileSize, buffered in *. simpl in *. lia. }
  destruct (file_Write _ w') as [e|w''] eqn:H2; [discriminate|].
  apply file_Write_size in H2 as [Hf2 Hb2].
  intros [= <-]. unfold fileSize, buffered in *. simpl in *. lia.
Qed.

(** A write of the gzip layer into its target: what goes in is in the file
    or in the buffer afterwards, and nothing enters the buffer when the
    target is the file. *)
Lemma target_Write_size l n w w1 :
  target_Write l n w = inr w1 ->
  fileSize w1 + buffered w1 = fileSize w + buffered w + n /\
  (l = LFile -> buffered w1 = buffered w).
Proof.
  destruct l; simpl; try discriminate.
  - intros H. apply file_Write_size in H as [-> ->]. split; [lia|auto].
  - intros H. apply bufio_Write_size in H. split; [lia|discriminate].
Qed.

Lemma CloseGzipWriters_size w w1 g :
  gWriter w = Some g -> CloseGzipWriters w = Ok w1 ->
  fileSize w1 + buffered w1 = fileSize w + buffered w + gzOwed w /\
  (gwr g = LFile -> buffered w1 = buffered w) /\
  gzOwed w1 = 0.
Proof.
  intros Hg. unfold CloseGzipWriters, gzOwed at 1. rewrite Hg.
  unfold gzip_Flush. destruct (gclosed g) eqn:Hc.
  - rewrite Hg. unfold gzip_Close. rewrite Hc. intros H%Ok_inj. subst w1.
    unfold gzOwed. rewrite Hg, Hc. split; [lia|auto].
  - destruct (target_Write _ _ w) as [e|w'] eqn:H1; [discriminate|].
    apply target_Write_size in H1 as [Hs1 Hb1].
    simpl. unfold gzip_Close. simpl.
    destruct (target_Write (gwr g) _ _) as [e|w''] eqn:H2; [discriminate|].
    apply target_Write_size in H2 as [Hs2 Hb2].
    intros H%Ok_inj. subst w1.
    unfold fileSize, buffered, gzOwed in *. simpl in *.
    split; [lia|]. split; [|reflexivity].
    intros Hl. rewrite (Hb2 Hl), (Hb1 Hl). reflexivity.
Qed.

Lemma FlushWriters_size w w1 :
  FlushWriters w = Ok w1 ->
  fileSize w1 = fileSize w + buffered w /\ buffered w1 = 0 /\
  gWriter w1 = gWriter w.
Proof.
  unfold FlushWriters, bufio_Flush.
  destruct (bWriter w) as [b|] eqn:Hb; [|discriminate].
  assert (Hbw : buffered w = bn b) by (unfold buffered; rewrite Hb; reflexivity).
  destruct (bn b =? 0) eqn:Hn.
  - intros H%Ok_inj. subst w1. apply Z.eqb_eq in Hn. rewrite Hbw.
    split; [lia|]. split; [assumption|reflexivity].
  - destruct (file_Write (bn b) w) as [e|w'] eqn:H1; [discriminate|].
    pose proof (file_Write_inv _ _ _ H1) as (_ & Hg & _).
    apply file_Write_size in H1 as [Hf1 Hb1].
    intros H%Ok_inj. subst w1. unfold fileSize, buffered in *. simpl in *.
    split; [lia|]. split; [reflexivity|assumption].
Qed.

(** The two flushing steps return on a writer that is [ready]. *)
Lemma flushing_steps_return w :
  ready w ->
  exists w1 w2,
    (if compress w then CloseGzipWriters w else Ok w) = Ok w1 /\
    (if buffer w1 then FlushWriters w1 else Ok w1) = Ok w2.
Proof.
  intros (Hg & Hb & Hf).
  assert (Ha : exists wa,
             (if compress w then CloseGzipWriters w else Ok w) = Ok wa /\
             buffer wa = buffer w /\
             (is_Some (bWriter w) -> is_Some (bWriter wa)) /\
             (fileOpen w -> fileOpen wa)).
  { destruct (compress w) eqn:Hc; [|eauto 10].
    destruct (Hg eq_refl) as (g & Hgw & Ht).
    destruct (Hf eq_refl) as (f & Hfo).
    unfold CloseGzipWriters, gzip_Flush, gzip_Close. rewrite Hgw.
    destruct (gclosed g) eqn:Hcl.
    { rewrite Hgw, Hcl. eauto 10. }
    destruct (target_Write_open (gwr g) (gzFlushOut (gpending g)) w)
      as (w1 & H1 & Ho1); [exists f; exact Hfo|exact Ht|].
    rewrite H1. simpl.
    pose proof (target_Write_inv _ _ _ _ H1) as (Hfl1 & _ & Hb1).
    destruct (target_Write_open (gwr g) (gzCloseOut 0) (set_gWriter
                (Some (mkGzip (gwr g) 0 false (gblockSize g) (gblocks g))) w1))
      as (w2 & H2 & Ho2).
    { exact Ho1. }
    { destruct Ht as [?|[? ?]]; [left; assumption|right; auto]. }
    rewrite H2.
    pose proof (target_Write_inv _ _ _ _ H2) as (Hfl2 & _ & Hb2).
    eexists. split; [reflexivity|]. simpl.
    unfold flags in *. simpl in *.
    injection Hfl1 as ? ? ? ?. injection Hfl2 as ? ? ? ?.
    split; [congruence|]. split; [auto|]. intros _. exact Ho2. }
  destruct Ha as (wa & Ha & Hbu & Hbw & Hfo).
  exists wa. rewrite Ha, Hbu.
  destruct (buffer w) eqn:Hc; [|eauto].
  destruct (Hbw (Hb eq_refl)) as [b Hbb].
  unfold FlushWriters, bufio_Flush. rewrite Hbb.
  destruct (bn b =? 0); [eauto|].
  destruct (file_Write_open (bn b) wa) as (w1 & -> & _); [|eauto].
  apply Hfo. apply Hf. rewrite orb_true_r. reflexivity.
Qed.

(** X3. [Close] loses no byte on its way to [CloseFile]. For a writer in
    a state [NewWriter] can leave it in, with the gzip layer where
    [NewWriter] puts it, the two flushing steps of [Close] return (no
    panic): the gzip layer is flushed and closed first, the buffer is
    flushed after it. Afterwards the file holds what it held, plus what was
    in the buffer (when buffering), plus what the gzip layer had to put out
    for its pending bytes and its trailer (when compressing); the buffer is
    empty and the gzip layer is closed. *)
Theorem Close_drains w :
  ready w -> layered w ->
  exists w1 w2,
    (if compress w then CloseGzipWriters w else Ok w) = Ok w1 /\
    (if buffer w1 then FlushWriters w1 else Ok w1) = Ok w2 /\
    fileSize w2
    = fileSize w + (if buffer w then buffered w else 0)
      + (if compress w then gzOwed w else 0) /\
    (buffer w = true -> buffered w2 = 0) /\
    (compress w = true -> exists g, gWriter w2 = Some g /\ gclosed g = true).
Proof.
  intros Hr Hl. destruct (flushing_steps_return w Hr) as (w1 & w2 & H1 & H2).
  exists w1, w2. split; [exact H1|]. split; [exact H2|].
  assert (Hb1 : buffer w1 = buffer w).
  { destruct (compress w); [|apply Ok_inj in H1; subst; reflexivity].
    apply CloseGzipWriters_closed in H1 as (Hf & _).
    unfold flags in Hf. congruence. }
  assert (Hs1 : fileSize w1 + buffered w1
                = fileSize w + buffered w + (if compress w then gzOwed w else 0)
                /\ (buffer w = false -> buffered w1 = buffered w)
                /\ (compress w = true ->
                    exists g, gWriter w1 = Some g /\ gclosed g = true)).
  { destruct (compress w) eqn:Hc.
    - destruct (Hl Hc) as (g & Hg & Ht).
      pose proof (CloseGzipWriters_closed _ _ H1) as (_ & Hcl & _).
      apply (CloseGzipWriters_size _ _ _ Hg) in H1 as (Hs & Hb & _).
      split; [assumption|]. split; [|auto].
      intros Hbf. apply Hb. rewrite Ht, Hbf. reflexivity.
    - apply Ok_inj in H1. subst w1. split; [lia|]. split; [auto|discriminate]. }
  destruct Hs1 as (Hs1 & Hk1 & Ho1).
  rewrite Hb1 in H2. destruct (buffer w) eqn:Hbf.
  - apply FlushWriters_size in H2 as (Hf2 & Hb2 & Hg2).
    split; [lia|]. split; [auto|].
    intros Hc. rewrite Hg2. auto.
  - apply Ok_inj in H2. subst w2. rewrite (Hk1 eq_refl) in Hs1.
    split; [lia|]. split; [discriminate|assumption].
Qed.

End Env.

(** *** Concrete runs *)

(** A compressing, buffering writer in the middle of its work: 20 bytes in
    the file, 5 in the buffer, 100 taken by the gzip layer. *)
Definition busyWriter : Writer :=
  mkWriter "HTTP" (Some (mkFile "out/HTTP.ncap.gz" 20 false))
    (Some (mkBufio 4096 5)) (Some (mkGzip LBuf 100 false 1048576 8))
    (Some LGzip) (Some LGzip) None None true true false "out" false.

Definition busyWriterClosed : Writer :=
  mkWriter "HTTP" (Some (mkFile "out/HTTP.ncap.gz" 93 true))
    (Some (mkBufio 4096 0)) (Some (mkGzip LBuf 0 true 1048576 8))
    (Some LGzip) (Some LGzip) None None true true false "out" false.

(** A gzip layer that halves its input behind a 10 byte header and ends
    with an 8 byte trailer. *)
Definition halving (p : Z) : Z := p / 2 + 10.
Definition trailer (p : Z) : Z := p + 8.
Definition noFile (_ _ : string) : string * Z := ("", 0).

Lemma busyWriter_ready : ready busyWriter.
Proof.
  unfold ready, busyWriter; simpl. split; [|split].
  - intros _. eexists. split; [reflexivity|]. right. simpl. eauto.
  - intros _. eauto.
  - intros _. eexists. split; reflexivity.
Defined.

Lemma Close_twice_same_witness :
  ready busyWriter /\
  Close halving trailer noFile busyWriter
    = Ok (("out/HTTP.ncap.gz", 93), busyWriterClosed) /\
  Close halving trailer noFile busyWriterClosed
    = Ok (("out/HTTP.ncap.gz", 93), busyWriterClosed) /\
  exists r w1 w2,
    Close halving trailer noFile busyWriter = Ok (r, w1) /\
    Close halving trailer noFile w1 = Ok (r, w2).
Proof.
  split; [exact busyWriter_ready|]. split; [reflexivity|].
  split; [reflexivity|].
  exact (Close_twice_same halving trailer noFile busyWriter busyWriter_ready).
Defined.

Definition anyFile (_ : string) : bool := true.

(** C8, the claim as written fails in CSV mode: with [writeChan] and
    [buffer] both set, [NewWriter] returns a buffered, file-backed CSV
    writer (flagged [IsChanWriter]) instead of panicking. *)
Lemma NewWriter_csv_channel_buffered :
  NewWriter 10485760 4 anyFile "HTTP" true false true "out" true 0
  = Ok (mkWriter "HTTP" (Some (mkFile "out/HTTP.csv" 0 false))
          (Some (mkBufio 10485760 0)) None None None None (Some LBuf)
          false true true "out" true).
Proof. reflexivity. Qed.

Lemma memBufferSize_only_csv_witness :
  NewWriter 10485760 4 anyFile "HTTP" true false true "out" false 512
  = Ok (mkWriter "HTTP" (Some (mkFile "out/HTTP.csv" 0 false))
          (Some (mkBufio 512 0)) None None None None (Some LBuf)
          false true true "out" false)
  /\ NewWriter 10485760 4 anyFile "HTTP" true false false "out" false 512
     = NewWriter 10485760 4 anyFile "HTTP" true false false "out" false 0
  /\ exists b, Some (mkBufio 512 0) = Some b /\ bsize b = 512.
Proof.
  split; [reflexivity|]. split; [reflexivity|].
  destruct (memBufferSize_only_csv 10485760 4 anyFile "HTTP" true false true
              "out" false 512 _ eq_refl) as [Hb _].
  destruct (Hb eq_refl) as [_ Hsize]. apply Hsize. lia.
Defined.

(** The writer [NewWriter] builds for compressed, buffered protobuf
    records of type HTTP (buffers of 10 MiB, four processors). *)
Definition gzBufWriter : Writer :=
  mkWriter "HTTP" (Some (mkFile "out/HTTP.ncap.gz" 0 false))
    (Some (mkBufio 10485760 0)) (Some (mkGzip LBuf 0 false 1048576 8))
    (Some LGzip) (Some LGzip) None None true true false "out" false.

Lemma NewWriter_layers_witness :
  NewWriter 10485760 4 anyFile "HTTP" true true false "out" false 0
  = Ok gzBufWriter /\
  gWriter gzBufWriter = Some (mkGzip LBuf 0 false 1048576 8) /\
  dWriter gzBufWriter = Some LGzip /\
  aWriter gzBufWriter = dWriter gzBufWriter /\
  cWriter gzBufWriter = None.
Proof.
  split; [reflexivity|].
  destruct (NewWriter_layers 10485760 4 anyFile "HTTP" true true false "out"
              false 0 gzBufWriter eq_refl)
    as (_ & _ & _ & Hg & _ & _ & Hd & Ha & Hc & _).
  split; [exact Hg|]. split; [exact Hd|]. split; [exact Ha|exact Hc].
Defined.

(** Record writers over messages given by their encoded size: each puts
    the bytes into the file, which is where the plain writer has them go. *)
Definition sizedPutProto (l : Layer) (n : Z) (w : Writer)
  : option string * Writer :=
  match file_Write n w with
  | inl e => (Some e, w)
  | inr w' => (None, w')
  end.
Definition sizedWriteRecord (l : Layer) (n : Z) (w : Writer)
  : Z * option string * Writer :=
  match file_Write n w with
  | inl e => (0, Some e, w)
  | inr w' => (n, None, w')
  end.

(** The plain writer: protobuf records straight into the file. *)
Definition plainWriter (size : Z) (closed : bool) : Writer :=
  mkWriter "HTTP" (Some (mkFile "out/HTTP.ncap" size closed)) None None
    (Some LFile) (Some LFile) None None false false false "out" false.

Lemma Write_after_NewWriter_witness :
  NewWriter 10485760 4 anyFile "HTTP" false false false "out" false 0
  = Ok (plainWriter 0 false) /\
  Write Z sizedPutProto sizedWriteRecord (plainWriter 0 false) 12
  = Ok (None, plainWriter 12 false) /\
  GetChan (plainWriter 0 false) = Panic nilDeref.
Proof.
  split; [reflexivity|].
  destruct (Write_after_NewWriter 10485760 4 anyFile Z sizedPutProto
              sizedWriteRecord sizedWriteRecord unit (fun _ => 0)
              (fun _ _ _ _ => 0) "HTTP" false false false "out" false 0
              (plainWriter 0 false) eq_refl) as (Hw & _ & Hc).
  split; [exact (Hw 12)|exact Hc].
Defined.

(** A failing record writer makes [Write] panic with its error: here the
    file was closed before. *)
Example Write_on_closed_file :
  Write Z sizedPutProto sizedWriteRecord (plainWriter 12 true) 5
  = Panic "file already closed".
Proof. reflexivity. Qed.

Lemma busyWriter_layered : layered busyWriter.
Proof. intros _. eexists. split; reflexivity. Defined.

Lemma Close_drains_witness :
  ready busyWriter /\ layered busyWriter /\
  exists w1 w2,
    CloseGzipWriters halving trailer busyWriter = Ok w1 /\
    FlushWriters w1 = Ok w2 /\
    fileSize w2 = 20 + 5 + (100 / 2 + 10 + 8) /\
    buffered w2 = 0 /\ exists g, gWriter w2 = Some g /\ gclosed g = true.
Proof.
  split; [exact busyWriter_ready|]. split; [exact busyWriter_layered|].
  destruct (Close_drains halving trailer busyWriter busyWriter_ready
              busyWriter_layered) as (w1 & w2 & H1 & H2 & Hs & Hb & Hg).
  exists w1, w2. simpl in H1.
  assert (Hbuf : buffer w1 = true).
  { apply CloseGzipWriters_closed in H1 as (Hf & _).
    unfold flags in Hf. simpl in Hf. congruence. }
  rewrite Hbuf in H2.
  split; [exact H1|]. split; [exact H2|].
  split; [exact Hs|]. split; [exact (Hb eq_refl)|exact (Hg eq_refl)].
Defined.


(** The path of the file of a writer is cleaned: a separator at the end
    of [out], the current directory and a step back leave no trace in the
    name, and an empty [out] gives the name alone. *)
Example filepath_Join_cleans :
  filepath_Join "out" "HTTP" = "out/HTTP" /\
  filepath_Join "out/" "HTTP" = "out/HTTP" /\
  filepath_Join "." "HTTP" = "HTTP" /\
  filepath_Join "" "HTTP" = "HTTP" /\
  filepath_Join "logs/../out" "HTTP" = "out/HTTP" /\
  filepath_Join "/" "HTTP" = "/HTTP" /\
  filepath_Join "" "" = "".
Proof. repeat split; reflexivity. Qed.

End Writer.

(** * The IP profile registry ([getIPProfile]) *)

Module Profiles.

(** [layers.LayerType] of a transport layer, as far as the code tells them
    apart. *)
Inductive LayerType : Type := LayerTypeTCP | LayerTypeUDP | LayerTypeOther.

(** The transport layer of a packet: its type and the two port strings
    [TransportFlow().Src().String()] and [TransportFlow().Dst().String()]. *)
Record TransportLayer : Type := mkTransport {
  tlType : LayerType; tlSrc : string; tlDst : string }.

(** The messages of the generated [types] package. Their declarations are
    not under src/; the counters are 64 bit: [NumTotal] and [Bytes] take
    the [uint64] data length, [SNIs] is built from a [map[string]int64]. *)
Record Port : Type := mkPort { NumTotal : Z; NumTCP : Z; NumUDP : Z }.
Record Protocol : Type := mkProtocol { Packets : Z; Category : string }.

Record IPProfile : Type := mkIPProfile {
  Addr : string;
  NumPackets : Z;
  Geolocation : string;
  DNSNames : list string;
  TimestampFirst : string;
  TimestampLast : string;
  Ja3 : gmap string string;
  Protocols : gmap string Protocol;
  Bytes : Z;
  SrcPorts : gmap string Port;
  DstPorts : gmap string Port;
  SNIs : gmap string Z }.

Section Env.

(** [gopacket.Packet] and what the code reads from it. *)
Variable Packet : Type.
Variable Data : Packet -> list Byte.byte.
Variable TransportLayerOf : Packet -> option TransportLayer.

(** The analysers of other packages: the TLS client hello (its SNI), the
    two JA3 digests, the DPI results, the JA3 database, the constructor of
    a protocol entry, geolocation and DNS. *)
Variable DPIResult : Type.
Variable GetClientHelloBasic : Packet -> option string.
Variable DigestHexPacket : Packet -> string.
Variable DigestHexPacketJa3s : Packet -> string.
Variable GetProtocols : Packet -> gmap string DPIResult.
Variable LookupJa3 : string -> string.
Variable NewProto : DPIResult -> Protocol.
Variable LookupGeolocation : string -> string.
Variable LookupDNSNameLocal : string -> string.
Variable LookupDNSNames : string -> list string.

(** The package variable [LocalDNS]. *)
Variable LocalDNS : bool.

(** [idents]: the packet and its timestamp string. *)
Record idents : Type := mkIdents { timestamp : string; p : Packet }.

(** [dataLen := uint64(len(i.p.Data()))]. *)
Definition dataLenOf (i : idents) : Z :=
  wrapU64 (Z.of_nat (length (Data (p i)))).

(** [port.NumTCP++] or [port.NumUDP++], by the type of the layer. *)
Definition countLayer (t : LayerType) (port : Port) : Port :=
  match t with
  | LayerTypeTCP => mkPort (NumTotal port) (wrapU64 (NumTCP port + 1)) (NumUDP port)
  | LayerTypeUDP => mkPort (NumTotal port) (NumTCP port) (wrapU64 (NumUDP port + 1))
  | LayerTypeOther => port
  end.

(** The update of one port map for the port [key]: the entry is counted
    up when it is there, and created otherwise. *)
Definition observePort (key : string) (t : LayerType) (dataLen : Z)
  (ports : gmap string Port) : gmap string Port :=
  match ports !! key with
  | Some port =>
      <[key := countLayer t
                 (mkPort (wrapU64 (NumTotal port + dataLen)) (NumTCP port)
                    (NumUDP port))]> ports
  | None => <[key := countLayer t (mkPort dataLen 0 0)]> ports
  end.

(** [p.ip.SNIs[ch.SNI]++] when there is a client hello with a name. *)
Definition observeSNI (ch : option string) (snis : gmap string Z)
  : gmap string Z :=
  match ch with
  | Some sni =>
      if String.eqb sni "" then snis
      else <[sni := wrapS64 (default 0 (snis !! sni) + 1)]> snis
  | None => snis
  end.

(** The JA3 digest of the packet, or else its JA3S digest. *)
Definition ja3HashOf (pk : Packet) : string :=
  let ja3Hash := DigestHexPacket pk in
  if String.eqb ja3Hash "" then DigestHexPacketJa3s pk else ja3Hash.

(** The hash is added with its description if it is not there yet. *)
Definition observeJa3 (ja3Hash : string) (ja3 : gmap string string)
  : gmap string string :=
  if String.eqb ja3Hash "" then ja3
  else match ja3 !! ja3Hash with
       | Some _ => ja3
       | None => <[ja3Hash := LookupJa3 ja3Hash]> ja3
       end.

(** One round of the loop over the DPI results. *)
Definition observeProto (proto : string) (res : DPIResult)
  (protos : gmap string Protocol) : gmap string Protocol :=
  match protos !! proto with
  | Some prot =>
      <[proto := mkProtocol (wrapU64 (Packets prot + 1)) (Category prot)]> protos
  | None => <[proto := NewProto res]> protos
  end.

Definition observeProtocols (results : gmap string DPIResult)
  (protos : gmap string Protocol) : gmap string Protocol :=
  map_fold observeProto protos results.

(** The branch of [getIPProfile] for a known address: the profile after the
    packet. *)
Definition updateProfile (i : idents) (ip : IPProfile) : IPProfile :=
  let dataLen := dataLenOf i in
  let '(srcPorts, dstPorts) :=
    match TransportLayerOf (p i) with
    | Some tl =>
        (observePort (tlSrc tl) (tlType tl) dataLen (SrcPorts ip),
         observePort (tlDst tl) (tlType tl) dataLen (DstPorts ip))
    | None => (SrcPorts ip, DstPorts ip)
    end in
  mkIPProfile (Addr ip)
    (wrapS64 (NumPackets ip + 1))
    (Geolocation ip) (DNSNames ip) (TimestampFirst ip)
    (timestamp i)
    (observeJa3 (ja3HashOf (p i)) (Ja3 ip))
    (observeProtocols (GetProtocols (p i)) (Protocols ip))
    (wrapU64 (Bytes ip + dataLen))
    srcPorts dstPorts
    (observeSNI (GetClientHelloBasic (p i)) (SNIs ip)).

(** The branch for an unknown address: the first profile. *)
Definition newProfile (ipAddr : string) (i : idents) : IPProfile :=
  let dataLen := dataLenOf i in
  let loc := LookupGeolocation ipAddr in
  let '(srcPorts, dstPorts) :=
    match TransportLayerOf (p i) with
    | Some tl =>
        (<[tlSrc tl := countLayer (tlType tl) (mkPort dataLen 0 0)]>
           (∅ : gmap string Port),
         <[tlDst tl := countLayer (tlType tl) (mkPort dataLen 0 0)]>
           (∅ : gmap string Port))
    | None => (∅, ∅)
    end in
  let ja3Hash := ja3HashOf (p i) in
  let ja3Map : gmap string string :=
    if String.eqb ja3Hash "" then ∅ else <[ja3Hash := LookupJa3 ja3Hash]> ∅ in
  let sniMap : gmap string Z :=
    match GetClientHelloBasic (p i) with
    | Some sni => <[sni := 1]> ∅
    | None => ∅
    end in
  let protos : gmap string Protocol :=
    map_fold (fun proto res protos => <[proto := NewProto res]> protos)
      ∅ (GetProtocols (p i)) in
  let names :=
    if LocalDNS then
      let name := LookupDNSNameLocal ipAddr in
      if (String.length name =? 0)%nat then [] else [name]
    else LookupDNSNames ipAddr in
  mkIPProfile ipAddr 1 loc names (timestamp i) "" ja3Map protos dataLen
    srcPorts dstPorts sniMap.

(** [getIPProfile]: the profile handed back ([None] for nil) and the
    registry [ipProfiles.Items] after the call. *)
Definition getIPProfile (ipAddr : string) (i : idents)
  (Items : gmap string IPProfile)
  : option IPProfile * gmap string IPProfile :=
  if (String.length ipAddr =? 0)%nat then (None, Items)
  else match Items !! ipAddr with
       | Some ip =>
           let ip' := updateProfile i ip in
           (Some ip', <[ipAddr := ip']> Items)
       | None =>
           let ip' := newProfile ipAddr i in
           (Some ip', <[ipAddr := ip']> Items)
       end.

(** *** Growth of a profile *)



(** *** The registry over a run of calls *)

(** [AtomicIPProfileMap.Size]: [len(a.Items)], the number of profiles
    (the mutex is not modelled: calls come one after the other). *)
Definition Size (Items : gmap string IPProfile) : Z := Z.of_nat (size Items).

(** The registry after a run of calls of [getIPProfile], each with its
    address and its packet. *)
Definition getIPProfileAll (calls : list (string * idents))
  (Items : gmap string IPProfile) : gmap string IPProfile :=
  foldl (fun items c => (getIPProfile c.1 c.2 items).2) Items calls.

(** The number of bytes of a run of packets. *)
Definition totalData (pkts : list idents) : Z :=
  foldl (fun n i => n + Z.of_nat (length (Data (p i)))) 0 pkts.

(** The [NumTotal] counters of a port map, added up. *)
Definition sumTotals (ports : gmap string Port) : Z :=
  map_fold (fun _ port n => NumTotal port + n) 0 ports.

(** The source ports of a profile have counted as many bytes as its
    destination ports, as [uint64]s. *)
Definition balanced (ip : IPProfile) : Prop :=
  wrapU64 (sumTotals (SrcPorts ip)) = wrapU64 (sumTotals (DstPorts ip)).

(** The two loops over the DPI results when the range statement visits
    them in the order of a list: the loop of the branch for a known address
    and that of the branch for a new one. *)
Definition observeProtocolsIn (order : list (string * DPIResult))
  (protos : gmap string Protocol) : gmap string Protocol :=
  foldl (fun protos e => observeProto e.1 e.2 protos) protos order.

Definition newProtocolsIn (order : list (string * DPIResult))
  : gmap string Protocol :=
  foldl (fun protos e => <[e.1 := NewProto e.2]> protos) ∅ order.

(** The entry of the protocol [k] in the profile of [ipAddr], if both are
    there. *)
Definition protocolOf (Items : gmap string IPProfile) (ipAddr k : string)
  : option Protocol :=
  match Items !! ipAddr with
  | Some ip => Protocols ip !! k
  | None => None
  end.

Lemma countLayer_total t port : NumTotal (countLayer t port) = NumTotal port.
Proof. destruct t; reflexivity. Qed.











(** No call removes an address from the registry. *)
Lemma getIPProfile_keeps ipAddr i (Items : gmap string IPProfile) :
  dom Items ⊆ dom (getIPProfile ipAddr i Items).2.
Proof.
  unfold getIPProfile. destruct (_ =? _)%nat; [done|].
  destruct (Items !! ipAddr); simpl; set_solver.
Qed.

(** Nor does any sequence of calls. *)
Lemma getIPProfile_run_keeps (calls : list (string * idents))
  (Items : gmap string IPProfile) :
  dom Items ⊆
  dom (foldl (fun items c => (getIPProfile c.1 c.2 items).2) Items calls).
Proof.
  revert Items. induction calls as [|c calls IH]; intros Items; simpl.
  - done.
  - etrans; [apply (getIPProfile_keeps c.1 c.2)|apply IH].
Qed.



(** C10. For an address of length zero [getIPProfile] hands back nil and
    leaves the registry as it is: no profile is created and none is
    changed. *)
Theorem getIPProfile_empty_addr ipAddr i (Items : gmap string IPProfile) :
  String.length ipAddr = 0%nat ->
  getIPProfile ipAddr i Items = (None, Items).
Proof.
  intros Hlen. unfold getIPProfile. rewrite Hlen. reflexivity.
Qed.

(** *** Facts about runs of calls *)

Lemma length_zero_empty (s : string) :
  (String.length s =? 0)%nat = true <-> s = "".
Proof. destruct s; simpl; split; congruence. Qed.

Lemma getIPProfile_dom ipAddr i (Items : gmap string IPProfile) :
  dom (getIPProfile ipAddr i Items).2
  = if (String.length ipAddr =? 0)%nat then dom Items
    else {[ipAddr]} ∪ dom Items.
Proof.
  unfold getIPProfile. destruct (_ =? _)%nat; [done|].
  destruct (Items !! ipAddr); simpl; apply dom_insert_L.
Qed.

(** X4. The addresses of the registry. After a run of calls of
    [getIPProfile] the registry holds the addresses it held before and the
    non-empty addresses of the calls, and no other; one call makes [Size]
    grow by one when its address is not empty and has no profile yet, and
    leaves [Size] as it is otherwise. *)
Theorem registry_addresses calls (Items : gmap string IPProfile) :
  dom (getIPProfileAll calls Items)
  = dom Items ∪ list_to_set (filter (fun a => a <> "") calls.*1)
  /\ (forall ipAddr i,
        Size (getIPProfile ipAddr i Items).2
        = Size Items
          + (if bool_decide (ipAddr <> "" /\ Items !! ipAddr = None)
             then 1 else 0)).
Proof.
  split.
  - revert Items. induction calls as [|[a i] calls IH]; intros Items.
    + simpl. rewrite (right_id_L ∅ (∪)). reflexivity.
    + unfold getIPProfileAll in *. simpl. rewrite IH, getIPProfile_dom.
      destruct (String.length a =? 0)%nat eqn:Ha.
      * apply length_zero_empty in Ha. subst a.
        rewrite filter_cons_False by (intros H; apply H; reflexivity).
        reflexivity.
      * assert (a <> "") by (intros ->; discriminate).
        rewrite filter_cons_True by assumption.
        rewrite list_to_set_cons, (comm_L (∪) {[a]} (dom Items)).
        rewrite (assoc_L (∪)). reflexivity.
  - intros ipAddr i. unfold Size, getIPProfile.
    destruct (String.length ipAddr =? 0)%nat eqn:Ha.
    + apply length_zero_empty in Ha. subst ipAddr.
      rewrite bool_decide_eq_false_2 by (intros [H _]; apply H; reflexivity).
      simpl. lia.
    + assert (ipAddr <> "") by (intros ->; discriminate).
      destruct (Items !! ipAddr) as [ip|] eqn:Hip; simpl.
      * rewrite map_size_insert_Some by (rewrite Hip; eauto).
        rewrite bool_decide_eq_false_2 by (intros [_ ?]; discriminate). lia.
      * rewrite map_size_insert_None by assumption.
        rewrite bool_decide_eq_true_2 by auto. lia.
Qed.

(** X5. A call of [getIPProfile] touches the profile of its address
    only: every other address keeps its profile. For an address that is not
    empty the profile handed back is the one stored under the address; nil
    is handed back for the empty address and for no other. *)
Theorem getIPProfile_frame ipAddr i (Items : gmap string IPProfile) :
  (forall a, a <> ipAddr -> (getIPProfile ipAddr i Items).2 !! a = Items !! a)
  /\ (ipAddr <> "" ->
      is_Some (getIPProfile ipAddr i Items).1 /\
      (getIPProfile ipAddr i Items).2 !! ipAddr
      = (getIPProfile ipAddr i Items).1)
  /\ ((getIPProfile ipAddr i Items).1 = None <-> ipAddr = "").
Proof.
  unfold getIPProfile. destruct (String.length ipAddr =? 0)%nat eqn:Ha.
  - apply length_zero_empty in Ha. subst ipAddr. simpl.
    split; [auto|]. split; [congruence|tauto].
  - assert (ipAddr <> "") by (intros ->; discriminate).
    destruct (Items !! ipAddr); simpl;
      (split; [intros a Hne; apply lookup_insert_ne; congruence|]);
      (split; [intros _; split; [eauto|apply lookup_insert_eq]|]);
      split; congruence.
Qed.

(** A run of calls for one address that has a profile folds
    [updateProfile] over the packets. *)
Lemma getIPProfileAll_known ipAddr pkts : forall (Items : gmap string IPProfile) ip0,
  ipAddr <> "" -> Items !! ipAddr = Some ip0 ->
  getIPProfileAll (map (pair ipAddr) pkts) Items !! ipAddr
  = Some (foldl (fun ip i => updateProfile i ip) ip0 pkts).
Proof.
  induction pkts as [|i pkts IH]; intros Items ip0 Hne Hip; simpl.
  - exact Hip.
  - unfold getIPProfileAll in *. simpl. unfold getIPProfile at 2.
    destruct (String.length ipAddr =? 0)%nat eqn:Ha.
    { apply length_zero_empty in Ha. contradiction. }
    rewrite Hip. simpl. apply IH; [assumption|apply lookup_insert_eq].
Qed.

Lemma updates_fields pkts : forall i0 ipAddr,
  let ip := foldl (fun ip i => updateProfile i ip) (newProfile ipAddr i0) pkts in
  Addr ip = ipAddr /\
  Geolocation ip = LookupGeolocation ipAddr /\
  TimestampFirst ip = timestamp i0 /\
  TimestampLast ip = List.last (map timestamp pkts) "" /\
  NumPackets ip = wrapS64 (Z.of_nat (length (i0 :: pkts))) /\
  Bytes ip = wrapU64 (totalData (i0 :: pkts)).
Proof.
  induction pkts as [|j pkts IH] using rev_ind; intros i0 ipAddr.
  - unfold newProfile, totalData, dataLenOf. simpl.
    destruct (TransportLayerOf (p i0)); simpl; repeat split; reflexivity.
  - specialize (IH i0 ipAddr). cbv zeta in IH |- *.
    destruct IH as (Ha & Hg & Hf & Hl & Hn & Hb).
    rewrite foldl_snoc, map_app. simpl map. rewrite last_last.
    set (ip := foldl _ _ pkts) in *.
    assert (Hlen : Z.of_nat (length (i0 :: pkts ++ [j]))
                   = Z.of_nat (length (i0 :: pkts)) + 1).
    { simpl. rewrite length_app. simpl. lia. }
    assert (Htot : totalData (i0 :: pkts ++ [j])
                   = totalData (i0 :: pkts) + Z.of_nat (length (Data (p j)))).
    { unfold totalData. simpl. rewrite foldl_snoc. reflexivity. }
    rewrite Hlen, Htot.
    unfold updateProfile.
    destruct (TransportLayerOf (p j)); simpl;
      rewrite Ha, Hg, Hf, Hn, Hb; unfold dataLenOf;
      rewrite wrapS64_idemp_l, wrapU64_idemp; repeat split; reflexivity.
Qed.

(** X6. The counters of a profile over the packets of its address.
    After a run of calls of [getIPProfile] for an address that is not
    empty and had no profile, the profile of the address carries the
    address; the geolocation looked up for it; the timestamp of the first
    packet as [TimestampFirst] and that of the last packet as
    [TimestampLast] (empty when there was one packet only); the number of
    packets as [NumPackets] and the number of their bytes as [Bytes], each
    with the wrap-around of its 64 bit type, so the number itself when it
    fits. *)
Theorem getIPProfile_counts ipAddr i0 pkts (Items : gmap string IPProfile) :
  ipAddr <> "" -> Items !! ipAddr = None ->
  exists ip,
    getIPProfileAll (map (pair ipAddr) (i0 :: pkts)) Items !! ipAddr = Some ip /\
    Addr ip = ipAddr /\
    Geolocation ip = LookupGeolocation ipAddr /\
    TimestampFirst ip = timestamp i0 /\
    TimestampLast ip = List.last (map timestamp pkts) "" /\
    NumPackets ip = wrapS64 (Z.of_nat (length (i0 :: pkts))) /\
    Bytes ip = wrapU64 (totalData (i0 :: pkts)) /\
    (Z.of_nat (length (i0 :: pkts)) <= max_int64 ->
     NumPackets ip = Z.of_nat (length (i0 :: pkts))) /\
    (totalData (i0 :: pkts) <= max_uint64 -> Bytes ip = totalData (i0 :: pkts)).
Proof.
  intros Hne Hnone.
  exists (foldl (fun ip i => updateProfile i ip) (newProfile ipAddr i0) pkts).
  split.
  { change (map (pair ipAddr) (i0 :: pkts))
      with ((ipAddr, i0) :: map (pair ipAddr) pkts).
    unfold getIPProfileAll. simpl.
    fold (getIPProfileAll (map (pair ipAddr) pkts)
            (getIPProfile ipAddr i0 Items).2).
    apply getIPProfileAll_known; [assumption|].
    unfold getIPProfile.
    destruct (String.length ipAddr =? 0)%nat eqn:Ha.
    { apply length_zero_empty in Ha. contradiction. }
    rewrite Hnone. simpl. apply lookup_insert_eq. }
  pose proof (updates_fields pkts i0 ipAddr) as (Ha & Hg & Hf & Hl & Hn & Hb).
  repeat split; try assumption.
  - intros Hfit. rewrite Hn. apply wrapS64_small.
    unfold min_int64. lia.
  - intros Hfit. rewrite Hb. apply wrapU64_small. split; [|assumption].
    unfold totalData. clear.
    generalize (i0 :: pkts). intros l.
    assert (H : forall n, 0 <= n ->
                0 <= foldl (fun n i => n + Z.of_nat (length (Data (p i)))) n l).
    { induction l as [|x l IH]; intros n Hn0; simpl; [assumption|].
      apply IH. lia. }
    apply H. lia.
Qed.

Lemma observeJa3_keeps h (ja3 : gmap string string) : ja3 ⊆ observeJa3 h ja3.
Proof.
  unfold observeJa3. destruct (String.eqb h ""); [done|].
  destruct (ja3 !! h) eqn:Hh; [done|]. apply insert_subseteq. exact Hh.
Qed.

Lemma updateProfile_keeps i ip :
  Ja3 ip ⊆ Ja3 (updateProfile i ip) /\
  Addr (updateProfile i ip) = Addr ip /\
  Geolocation (updateProfile i ip) = Geolocation ip /\
  DNSNames (updateProfile i ip) = DNSNames ip /\
  TimestampFirst (updateProfile i ip) = TimestampFirst ip.
Proof.
  unfold updateProfile. destruct (TransportLayerOf (p i)); simpl;
    repeat split; apply observeJa3_keeps.
Qed.

(** X7. What a profile never loses. Over every run of calls of
    [getIPProfile], for whatever addresses, a profile of the registry stays
    in the registry, and it keeps every JA3 hash it holds with the
    description stored for it, its address, its geolocation, its DNS names
    and the timestamp of its first packet. *)
Theorem profile_keeps_ja3 calls : forall (Items : gmap string IPProfile) a ip,
  Items !! a = Some ip ->
  exists ip',
    getIPProfileAll calls Items !! a = Some ip' /\
    Ja3 ip ⊆ Ja3 ip' /\
    (forall h d, Ja3 ip !! h = Some d -> Ja3 ip' !! h = Some d) /\
    Addr ip' = Addr ip /\ Geolocation ip' = Geolocation ip /\
    DNSNames ip' = DNSNames ip /\ TimestampFirst ip' = TimestampFirst ip.
Proof.
  induction calls as [|[b i] calls IH]; intros Items a ip Hip.
  - exists ip. simpl. repeat split; auto.
  - unfold getIPProfileAll in *. simpl.
    assert (Hstep : exists ip1,
               (getIPProfile b i Items).2 !! a = Some ip1 /\
               Ja3 ip ⊆ Ja3 ip1 /\ Addr ip1 = Addr ip /\
               Geolocation ip1 = Geolocation ip /\
               DNSNames ip1 = DNSNames ip /\
               TimestampFirst ip1 = TimestampFirst ip).
    { unfold getIPProfile. destruct (String.length b =? 0)%nat.
      { exists ip. simpl. repeat split; auto. }
      destruct (decide (a = b)) as [->|Hne].
      - rewrite Hip. simpl. rewrite lookup_insert_eq.
        exists (updateProfile i ip). split; [reflexivity|].
        apply updateProfile_keeps.
      - exists ip. split.
        + destruct (Items !! b); simpl;
            rewrite lookup_insert_ne by congruence; exact Hip.
        + repeat split; auto. }
    destruct Hstep as (ip1 & H1 & Hj1 & Ha1 & Hg1 & Hd1 & Ht1).
    destruct (IH _ a ip1 H1) as (ip' & H' & Hj & _ & Ha & Hg & Hd & Ht).
    exists ip'. split; [exact H'|].
    assert (Hsub : Ja3 ip ⊆ Ja3 ip') by (etrans; eassumption).
    split; [exact Hsub|]. split.
    { intros h d Hh. eapply lookup_weaken; eassumption. }
    repeat split; congruence.
Qed.

Lemma observeProtocols_lookup results protos k :
  observeProtocols results protos !! k
  = match results !! k with
    | None => protos !! k
    | Some res =>
        Some (match protos !! k with
              | Some prot => mkProtocol (wrapU64 (Packets prot + 1)) (Category prot)
              | None => NewProto res
              end)
    end.
Proof.
  unfold observeProtocols.
  apply (map_fold_weak_ind
           (fun r (m : gmap string DPIResult) =>
              r !! k
              = match m !! k with
                | None => protos !! k
                | Some res =>
                    Some (match protos !! k with
                          | Some prot =>
                              mkProtocol (wrapU64 (Packets prot + 1)) (Category prot)
                          | None => NewProto res
                          end)
                end)).
  - rewrite lookup_empty. reflexivity.
  - intros proto res m r Hm IH. unfold observeProto.
    destruct (decide (k = proto)) as [->|Hne].
    + rewrite Hm in IH. rewrite lookup_insert_eq.
      destruct (r !! proto) as [prot|] eqn:Hr;
        rewrite lookup_insert_eq, <- IH; reflexivity.
    + rewrite (lookup_insert_ne m) by congruence.
      destruct (r !! proto); rewrite lookup_insert_ne by congruence; exact IH.
Qed.

Lemma newProtocols_lookup (results : gmap string DPIResult) k :
  map_fold (fun proto res (protos : gmap string Protocol) =>
              <[proto := NewProto res]> protos) ∅ results !! k
  = NewProto <$> results !! k.
Proof.
  apply (map_fold_weak_ind
           (fun (r : gmap string Protocol) (m : gmap string DPIResult) =>
              r !! k = NewProto <$> m !! k)).
  - rewrite !lookup_empty. reflexivity.
  - intros proto res m r Hm IH.
    destruct (decide (k = proto)) as [->|Hne].
    + rewrite !lookup_insert_eq. reflexivity.
    + rewrite !lookup_insert_ne by congruence. exact IH.
Qed.

Lemma observeProtocolsIn_lookup order : forall protos k,
  NoDup order.*1 ->
  observeProtocolsIn order protos !! k
  = match (list_to_map order : gmap string DPIResult) !! k with
    | None => protos !! k
    | Some res =>
        Some (match protos !! k with
              | Some prot => mkProtocol (wrapU64 (Packets prot + 1)) (Category prot)
              | None => NewProto res
              end)
    end.
Proof.
  unfold observeProtocolsIn.
  induction order as [|[k0 v0] order IH]; intros protos k Hnd.
  - simpl. rewrite lookup_empty. reflexivity.
  - rewrite fmap_cons in Hnd. apply NoDup_cons in Hnd as [Hk0 Hnd].
    simpl. rewrite (IH _ k Hnd). clear IH.
    destruct (decide (k = k0)) as [->|Hne].
    + rewrite lookup_insert_eq.
      rewrite (not_elem_of_list_to_map_1 _ _ Hk0).
      unfold observeProto.
      destruct (protos !! k0); rewrite lookup_insert_eq; reflexivity.
    + rewrite (lookup_insert_ne _ k0 k) by congruence.
      assert (Hsame : observeProto k0 v0 protos !! k = protos !! k).
      { unfold observeProto.
        destruct (protos !! k0); rewrite lookup_insert_ne by congruence;
          reflexivity. }
      rewrite Hsame. reflexivity.
Qed.

Lemma newProtocolsIn_lookup order : forall k,
  NoDup order.*1 ->
  newProtocolsIn order !! k
  = NewProto <$> (list_to_map order : gmap string DPIResult) !! k.
Proof.
  unfold newProtocolsIn. intros k.
  assert (H : forall acc : gmap string Protocol,
             NoDup order.*1 ->
             foldl (fun protos e => <[e.1 := NewProto e.2]> protos) acc order !! k
             = match (list_to_map order : gmap string DPIResult) !! k with
               | None => acc !! k
               | Some res => Some (NewProto res)
               end).
  { induction order as [|[k0 v0] order IH]; intros acc Hnd.
    - simpl. rewrite lookup_empty. reflexivity.
    - rewrite fmap_cons in Hnd. apply NoDup_cons in Hnd as [Hk0 Hnd].
      simpl. rewrite (IH _ Hnd). clear IH.
      destruct (decide (k = k0)) as [->|Hne].
      + rewrite !lookup_insert_eq, (not_elem_of_list_to_map_1 _ _ Hk0).
        reflexivity.
      + rewrite !lookup_insert_ne by congruence. reflexivity. }
  intros Hnd. rewrite (H ∅ Hnd), lookup_empty.
  destruct (list_to_map order !! k); reflexivity.
Qed.

Lemma order_of_results (results : gmap string DPIResult) order :
  order ≡ₚ map_to_list results ->
  NoDup order.*1 /\ (list_to_map order : gmap string DPIResult) = results.
Proof.
  intros Hperm. split.
  - rewrite Hperm. apply NoDup_fst_map_to_list.
  - rewrite <- (list_to_map_to_list results).
    apply list_to_map_proper; [|exact Hperm].
    rewrite Hperm. apply NoDup_fst_map_to_list.
Qed.

(** X8. The DPI protocols of a profile after a call. For an address
    that is not empty, the profile handed back holds, for every protocol
    that DPI finds in the packet, the entry the profile of the address had
    for it with its packet counter counted up by one, or the entry of
    [NewProto] when there was none (no profile, or no entry); every other
    protocol has the entry it had. The order in which the range statement
    visits the DPI results makes no difference: visited in any order, the
    loop of either branch ends with the same protocols. *)
Theorem getIPProfile_protocols ipAddr i (Items : gmap string IPProfile) :
  ipAddr <> "" ->
  (exists ip',
      (getIPProfile ipAddr i Items).1 = Some ip' /\
      forall k,
        Protocols ip' !! k
        = match GetProtocols (p i) !! k with
          | None => protocolOf Items ipAddr k
          | Some res =>
              Some (match protocolOf Items ipAddr k with
                    | Some prot =>
                        mkProtocol (wrapU64 (Packets prot + 1)) (Category prot)
                    | None => NewProto res
                    end)
          end)
  /\ (forall order,
        order ≡ₚ map_to_list (GetProtocols (p i)) ->
        (forall ip,
            observeProtocolsIn order (Protocols ip)
            = Protocols (updateProfile i ip)) /\
        newProtocolsIn order = Protocols (newProfile ipAddr i)).
Proof.
  intros Hne. split.
  - unfold getIPProfile, protocolOf.
    destruct (String.length ipAddr =? 0)%nat eqn:Ha.
    { apply length_zero_empty in Ha. contradiction. }
    destruct (Items !! ipAddr) as [ip|]; simpl; eexists; (split; [reflexivity|]).
    + intros k. unfold updateProfile.
      destruct (TransportLayerOf (p i)); simpl; apply observeProtocols_lookup.
    + intros k. unfold newProfile.
      destruct (TransportLayerOf (p i)); simpl; rewrite newProtocols_lookup;
        destruct (GetProtocols (p i) !! k); reflexivity.
  - intros order Hperm. apply order_of_results in Hperm as [Hnd Hmap]. split.
    + intros ip. apply map_eq. intros k.
      rewrite (observeProtocolsIn_lookup _ _ _ Hnd), Hmap.
      unfold updateProfile.
      destruct (TransportLayerOf (p i)); simpl;
        rewrite observeProtocols_lookup; reflexivity.
    + apply map_eq. intros k.
      rewrite (newProtocolsIn_lookup _ _ Hnd), Hmap.
      unfold newProfile.
      destruct (TransportLayerOf (p i)); simpl;
        rewrite newProtocols_lookup; reflexivity.
Qed.

(** X9. A TLS client hello without a server name. When the packet
    carries a client hello whose SNI is the empty string, a call for an
    address that has a profile leaves the SNI counters of the profile as
    they are, while a call for an address without a profile (and not empty)
    makes a profile whose SNI counters hold the empty name, with count 1. *)
Theorem getIPProfile_empty_SNI ipAddr i (Items : gmap string IPProfile) :
  GetClientHelloBasic (p i) = Some "" -> ipAddr <> "" ->
  exists ip',
    (getIPProfile ipAddr i Items).1 = Some ip' /\
    SNIs ip'
    = match Items !! ipAddr with
      | Some ip => SNIs ip
      | None => {["" := 1]}
      end.
Proof.
  intros Hch Hne. unfold getIPProfile.
  destruct (String.length ipAddr =? 0)%nat eqn:Ha.
  { apply length_zero_empty in Ha. contradiction. }
  destruct (Items !! ipAddr) as [ip|]; simpl; eexists; (split; [reflexivity|]).
  - unfold updateProfile.
    destruct (TransportLayerOf (p i)); simpl; rewrite Hch; reflexivity.
  - unfold newProfile.
    destruct (TransportLayerOf (p i)); simpl; rewrite Hch; reflexivity.
Qed.

Lemma sumTotals_insert_None (m : gmap string Port) k v :
  m !! k = None -> sumTotals (<[k := v]> m) = NumTotal v + sumTotals m.
Proof.
  intros Hk. unfold sumTotals.
  rewrite map_fold_insert_L; [reflexivity| |exact Hk]. intros. lia.
Qed.

Lemma sumTotals_insert_Some (m : gmap string Port) k v old :
  m !! k = Some old ->
  sumTotals (<[k := v]> m) = NumTotal v + sumTotals m - NumTotal old.
Proof.
  intros Hk.
  assert (Hm : sumTotals m = NumTotal old + sumTotals (delete k m)).
  { unfold sumTotals.
    rewrite (map_fold_delete_L _ _ k old m); [reflexivity| |exact Hk].
    intros. lia. }
  assert (Hi : <[k := v]> m = <[k := v]> (delete k m)).
  { rewrite insert_delete. destruct (decide (k = k)); congruence. }
  rewrite Hi, sumTotals_insert_None by apply lookup_delete_eq. lia.
Qed.

Lemma observePort_sum key t dataLen (ports : gmap string Port) :
  wrapU64 (sumTotals (observePort key t dataLen ports))
  = wrapU64 (sumTotals ports + dataLen).
Proof.
  unfold observePort. destruct (ports !! key) as [port|] eqn:Hk.
  - rewrite (sumTotals_insert_Some _ _ _ _ Hk), countLayer_total. simpl.
    replace (wrapU64 (NumTotal port + dataLen) + sumTotals ports - NumTotal port)
      with (wrapU64 (NumTotal port + dataLen) + (sumTotals ports - NumTotal port))
      by lia.
    rewrite wrapU64_idemp_l. f_equal. lia.
  - rewrite (sumTotals_insert_None _ _ _ Hk), countLayer_total. simpl.
    f_equal. lia.
Qed.

Lemma wrapU64_add_r a b d :
  wrapU64 a = wrapU64 b -> wrapU64 (a + d) = wrapU64 (b + d).
Proof.
  intros H. rewrite <- (wrapU64_idemp_l a), <- (wrapU64_idemp_l b), H.
  reflexivity.
Qed.

Lemma updateProfile_balanced i ip : balanced ip -> balanced (updateProfile i ip).
Proof.
  unfold balanced, updateProfile. intros Hb.
  destruct (TransportLayerOf (p i)) as [tl|]; simpl; [|exact Hb].
  rewrite !observePort_sum. apply wrapU64_add_r. exact Hb.
Qed.

Lemma newProfile_balanced ipAddr i : balanced (newProfile ipAddr i).
Proof.
  unfold balanced, newProfile.
  destruct (TransportLayerOf (p i)) as [tl|]; simpl; [|reflexivity].
  rewrite !sumTotals_insert_None by apply lookup_empty.
  rewrite !countLayer_total. reflexivity.
Qed.

(** X10. The ports of a profile stay balanced. Every packet with a
    transport layer adds its length to the [NumTotal] of one source port
    and of one destination port of the profile, and a packet without one
    adds it to none. So when, in every profile of the registry, the
    [NumTotal] counters of the source ports add up to the same [uint64] as
    those of the destination ports, this is still so after every run of
    calls of [getIPProfile]; it is so in every profile the calls create. *)
Theorem ports_stay_balanced calls : forall (Items : gmap string IPProfile),
  map_Forall (fun _ ip => balanced ip) Items ->
  map_Forall (fun _ ip => balanced ip) (getIPProfileAll calls Items).
Proof.
  induction calls as [|[a i] calls IH]; intros Items Hall; [exact Hall|].
  unfold getIPProfileAll in *. simpl. apply IH.
  unfold getIPProfile. destruct (String.length a =? 0)%nat; [exact Hall|].
  destruct (Items !! a) as [ip|] eqn:Hip; simpl.
  - apply map_Forall_insert_2; [|exact Hall].
    apply updateProfile_balanced. exact (Hall _ _ Hip).
  - apply map_Forall_insert_2; [|exact Hall]. apply newProfile_balanced.
Qed.

End Env.

(** *** A concrete run: a second TLS client hello from 10.0.0.1 *)

(** A packet as what the analysers find in it. *)
Record DemoPacket : Type := mkDemo {
  dData : list Byte.byte;
  dTransport : option TransportLayer;
  dSNI : option string;
  dJa3 : string;
  dJa3s : string;
  dDPI : gmap string string }.

Definition demoPacket : DemoPacket :=
  mkDemo [Byte.x16; Byte.x03; Byte.x01]
    (Some (mkTransport LayerTypeTCP "51000" "443"))
    (Some "example.org") "e7d705a3286e19ea42f587b344ee6865" ""
    {["TLS" := "Web"]}.

Definition demoIdents : idents DemoPacket := mkIdents DemoPacket "1580000001.000000" demoPacket.

Definition demoProfile : IPProfile :=
  mkIPProfile "10.0.0.1" 7 "" [] "1580000000.000000" "1580000000.500000"
    ∅ {["TLS" := mkProtocol 2 "Web"]} 900
    {["51000" := mkPort 900 7 0]} {["443" := mkPort 900 7 0]}
    {["example.org" := 1]}.

Definition demoItems : gmap string IPProfile := {["10.0.0.1" := demoProfile]}.

Definition demoGetIPProfile :=
  getIPProfile DemoPacket dData dTransport string dSNI dJa3 dJa3s dDPI
    (fun _ => "Firefox") (fun cat => mkProtocol 1 cat) (fun _ => "")
    (fun _ => "") (fun _ => []) true.





Lemma getIPProfile_empty_addr_witness :
  String.length "" = 0%nat /\
  demoGetIPProfile "" demoIdents demoItems = (None, demoItems).
Proof.
  split; [reflexivity|].
  exact (getIPProfile_empty_addr DemoPacket dData dTransport string dSNI dJa3
           dJa3s dDPI (fun _ => "Firefox") (fun cat => mkProtocol 1 cat)
           (fun _ => "") (fun _ => "") (fun _ => []) true
           "" demoIdents demoItems eq_refl).
Defined.

(** The updated profile of that run, computed. *)
Example demo_updated_counters :
  match (demoGetIPProfile "10.0.0.1" demoIdents demoItems).1 with
  | Some ip' =>
      NumPackets ip' = 8 /\ Bytes ip' = 903 /\
      SrcPorts ip' !! "51000" = Some (mkPort 903 8 0) /\
      DstPorts ip' !! "443" = Some (mkPort 903 8 0) /\
      SNIs ip' !! "example.org" = Some 2 /\
      Ja3 ip' !! "e7d705a3286e19ea42f587b344ee6865" = Some "Firefox" /\
      Protocols ip' !! "TLS" = Some (mkProtocol 3 "Web")
  | None => False
  end.
Proof. vm_compute. repeat split; reflexivity. Qed.

(** *** More concrete runs *)

(** The next packet of the same client, and a client hello without a
    server name. *)
Definition nextPacket : DemoPacket :=
  mkDemo [Byte.x17; Byte.x03; Byte.x03; Byte.x00]
    (Some (mkTransport LayerTypeTCP "51000" "443")) None "" ""
    {["TLS" := "Web"]}.
Definition nextIdents : idents DemoPacket :=
  mkIdents DemoPacket "1580000002.000000" nextPacket.

Definition namelessHello : DemoPacket :=
  mkDemo [Byte.x16; Byte.x03; Byte.x01]
    (Some (mkTransport LayerTypeTCP "51001" "443")) (Some "") "" "" ∅.
Definition namelessIdents : idents DemoPacket :=
  mkIdents DemoPacket "1580000003.000000" namelessHello.

Definition demoGetIPProfileAll :=
  getIPProfileAll DemoPacket dData dTransport string dSNI dJa3 dJa3s dDPI
    (fun _ => "Firefox") (fun cat => mkProtocol 1 cat) (fun _ => "")
    (fun _ => "") (fun _ => []) true.

Lemma getIPProfile_counts_witness :
  "10.0.0.9" <> "" /\ demoItems !! "10.0.0.9" = None /\
  exists ip,
    demoGetIPProfileAll (map (pair "10.0.0.9") [demoIdents; nextIdents])
      demoItems !! "10.0.0.9" = Some ip /\
    NumPackets ip = 2 /\ Bytes ip = 7 /\
    TimestampFirst ip = "1580000001.000000" /\
    TimestampLast ip = "1580000002.000000".
Proof.
  assert (H1 : "10.0.0.9" <> "") by discriminate.
  assert (H2 : demoItems !! "10.0.0.9" = None)
    by (apply lookup_singleton_ne; discriminate).
  split; [exact H1|]. split; [exact H2|].
  destruct (getIPProfile_counts DemoPacket dData dTransport string dSNI dJa3
              dJa3s dDPI (fun _ => "Firefox") (fun cat => mkProtocol 1 cat)
              (fun _ => "") (fun _ => "") (fun _ => []) true
              "10.0.0.9" demoIdents [nextIdents] demoItems H1 H2)
    as (ip & Hip & _ & _ & Hf & Hl & Hn & Hb & _).
  exists ip. split; [exact Hip|].
  split; [exact Hn|]. split; [exact Hb|]. split; [exact Hf|exact Hl].
Defined.

Lemma profile_keeps_ja3_witness :
  demoItems !! "10.0.0.1" = Some demoProfile /\
  exists ip',
    demoGetIPProfileAll
      [("10.0.0.1", demoIdents); ("10.0.0.9", nextIdents);
       ("10.0.0.1", nextIdents)] demoItems !! "10.0.0.1" = Some ip' /\
    Ja3 demoProfile ⊆ Ja3 ip' /\
    TimestampFirst ip' = "1580000000.000000".
Proof.
  assert (H1 : demoItems !! "10.0.0.1" = Some demoProfile)
    by apply lookup_singleton_eq.
  split; [exact H1|].
  destruct (profile_keeps_ja3 DemoPacket dData dTransport string dSNI dJa3
              dJa3s dDPI (fun _ => "Firefox") (fun cat => mkProtocol 1 cat)
              (fun _ => "") (fun _ => "") (fun _ => []) true
              [("10.0.0.1", demoIdents); ("10.0.0.9", nextIdents);
               ("10.0.0.1", nextIdents)] demoItems "10.0.0.1" demoProfile H1)
    as (ip' & Hip & Hsub & _ & _ & _ & _ & Ht).
  exists ip'. split; [exact Hip|]. split; [exact Hsub|exact Ht].
Defined.

Lemma getIPProfile_protocols_witness :
  "10.0.0.1" <> "" /\
  exists ip',
    (demoGetIPProfile "10.0.0.1" demoIdents demoItems).1 = Some ip' /\
    Protocols ip' !! "TLS" = Some (mkProtocol 3 "Web") /\
    Protocols ip' !! "SSH" = None.
Proof.
  assert (H1 : "10.0.0.1" <> "") by discriminate.
  split; [exact H1|].
  destruct (getIPProfile_protocols DemoPacket dData dTransport string dSNI
              dJa3 dJa3s dDPI (fun _ => "Firefox") (fun cat => mkProtocol 1 cat)
              (fun _ => "") (fun _ => "") (fun _ => []) true
              "10.0.0.1" demoIdents demoItems H1) as [(ip' & Hip & Hk) _].
  exists ip'. split; [exact Hip|].
  split; [rewrite (Hk "TLS")|rewrite (Hk "SSH")]; vm_compute; reflexivity.
Defined.

Lemma getIPProfile_empty_SNI_witness :
  dSNI namelessHello = Some "" /\ "10.0.0.1" <> "" /\
  (exists ip',
      (demoGetIPProfile "10.0.0.1" namelessIdents demoItems).1 = Some ip' /\
      SNIs ip' = {["example.org" := 1]}) /\
  (exists ip',
      (demoGetIPProfile "10.0.0.1" namelessIdents ∅).1 = Some ip' /\
      SNIs ip' = {["" := 1]}).
Proof.
  assert (H2 : "10.0.0.1" <> "") by discriminate.
  split; [reflexivity|]. split; [exact H2|]. split.
  - destruct (getIPProfile_empty_SNI DemoPacket dData dTransport string dSNI
                dJa3 dJa3s dDPI (fun _ => "Firefox")
                (fun cat => mkProtocol 1 cat) (fun _ => "") (fun _ => "")
                (fun _ => []) true "10.0.0.1" namelessIdents demoItems
                eq_refl H2) as (ip' & Hip & Hs).
    exists ip'. split; [exact Hip|]. rewrite Hs.
    unfold demoItems. rewrite lookup_singleton_eq. reflexivity.
  - destruct (getIPProfile_empty_SNI DemoPacket dData dTransport string dSNI
                dJa3 dJa3s dDPI (fun _ => "Firefox")
                (fun cat => mkProtocol 1 cat) (fun _ => "") (fun _ => "")
                (fun _ => []) true "10.0.0.1" namelessIdents ∅
                eq_refl H2) as (ip' & Hip & Hs).
    exists ip'. split; [exact Hip|]. rewrite Hs, lookup_empty. reflexivity.
Defined.

Lemma demoItems_balanced :
  map_Forall (fun _ ip => balanced ip) demoItems.
Proof.
  apply map_Forall_singleton. unfold balanced, demoProfile, sumTotals. simpl.
  rewrite !map_fold_singleton. reflexivity.
Defined.

Lemma ports_stay_balanced_witness :
  map_Forall (fun _ ip => balanced ip) demoItems /\
  map_Forall (fun _ ip => balanced ip)
    (demoGetIPProfileAll
       [("10.0.0.1", demoIdents); ("10.0.0.9", nextIdents);
        ("10.0.0.1", namelessIdents)] demoItems).
Proof.
  split; [exact demoItems_balanced|].
  exact (ports_stay_balanced DemoPacket dData dTransport string dSNI dJa3
           dJa3s dDPI (fun _ => "Firefox") (fun cat => mkProtocol 1 cat)
           (fun _ => "") (fun _ => "") (fun _ => []) true
           [("10.0.0.1", demoIdents); ("10.0.0.9", nextIdents);
            ("10.0.0.1", namelessIdents)] demoItems demoItems_balanced).
Defined.

(** The registry of that run, computed: two addresses, and the profile of
    10.0.0.1 after three of its packets. *)
Example demo_registry_after_run :
  let items :=
    demoGetIPProfileAll
      [("10.0.0.1", demoIdents); ("10.0.0.9", nextIdents); ("", nextIdents);
       ("10.0.0.1", namelessIdents)] demoItems in
  Size items = 2 /\
  match items !! "10.0.0.1" with
  | Some ip =>
      NumPackets ip = 9 /\ Bytes ip = 906 /\
      SrcPorts ip !! "51000" = Some (mkPort 903 8 0) /\
      SrcPorts ip !! "51001" = Some (mkPort 3 1 0) /\
      DstPorts ip !! "443" = Some (mkPort 906 9 0) /\
      SNIs ip !! "example.org" = Some 2 /\ SNIs ip !! "" = None
  | None => False
  end.
Proof. vm_compute. repeat split; reflexivity. Qed.

End Profiles.

(** * TCP reassembly callbacks and the packet entry point *)

Module Reassembly.

(** [reassembly.TCPFlowDirection]. *)
Inductive TCPFlowDirection : Type := TCPDirClientToServer | TCPDirServerToClient.

Global Instance TCPFlowDirection_eq_dec : EqDecision TCPFlowDirection.
Proof. solve_decision. Defined.

(** [gopacket.Flow]: the endpoint type and the raw source and destination
    endpoints; flows are compared with [==]. *)
Record Flow : Type := mkFlow { ftyp : Z; fsrc : string; fdst : string }.

Global Instance Flow_eq_dec : EqDecision Flow.
Proof. solve_decision. Defined.

Definition Flow_Reverse (f : Flow) : Flow := mkFlow (ftyp f) (fdst f) (fsrc f).

(** [time.Time] as an instant on the time line, in nanoseconds, and
    [time.Duration], an [int64] of nanoseconds. [Time_Add] is [t.Add(d)]
    away from the ends of the representable range. *)
Definition Time : Type := Z.
Definition Duration : Type := Z.
Definition Time_Add (t : Time) (d : Duration) : Time := t + d.
Definition Time_Equal (t u : Time) : bool := t =? u.
Definition Time_After (t u : Time) : bool := u <? t.

(** Negation of a [Duration], as Go computes [-d] on an [int64]. *)
Definition Duration_neg (d : Duration) : Duration := wrapS64 (- d).

(** [reassembly.AssemblerContext], here always a [Context] holding the
    capture info, of which the timestamp is read. *)
Record AssemblerContext : Type := mkContext { Timestamp : Time }.

(** The configuration [c] of the package, as far as the code below reads
    it. *)
Record Config : Type := mkConfig {
  FlushEvery : Z;
  ClosePendingTimeOut : Duration;
  CloseInactiveTimeOut : Duration;
  AllowMissingInit : bool;
  IgnoreFSMerr : bool;
  NoOptCheck : bool;
  Checksum : bool;
  NoDefrag : bool;
  HexDump : bool }.

(** The counters [reassemblyStats], all [int64]. *)
Record Stats : Type := mkStats {
  ipdefrag : Z;
  missedBytes : Z;
  pkt : Z;
  sz : Z;
  totalsz : Z;
  rejectFsm : Z;
  rejectOpt : Z;
  rejectConnFsm : Z;
  reassembled : Z;
  outOfOrderBytes : Z;
  outOfOrderPackets : Z;
  biggestChunkBytes : Z;
  biggestChunkPackets : Z;
  overlapBytes : Z;
  overlapPackets : Z }.

Definition inc_rejectFsm (s : Stats) : Stats :=
  mkStats (ipdefrag s) (missedBytes s) (pkt s) (sz s) (totalsz s)
    (wrapS64 (rejectFsm s + 1)) (rejectOpt s) (rejectConnFsm s)
    (reassembled s) (outOfOrderBytes s) (outOfOrderPackets s)
    (biggestChunkBytes s) (biggestChunkPackets s) (overlapBytes s)
    (overlapPackets s).
Definition inc_rejectOpt (s : Stats) : Stats :=
  mkStats (ipdefrag s) (missedBytes s) (pkt s) (sz s) (totalsz s)
    (rejectFsm s) (wrapS64 (rejectOpt s + 1)) (rejectConnFsm s)
    (reassembled s) (outOfOrderBytes s) (outOfOrderPackets s)
    (biggestChunkBytes s) (biggestChunkPackets s) (overlapBytes s)
    (overlapPackets s).
Definition inc_rejectConnFsm (s : Stats) : Stats :=
  mkStats (ipdefrag s) (missedBytes s) (pkt s) (sz s) (totalsz s)
    (rejectFsm s) (rejectOpt s) (wrapS64 (rejectConnFsm s + 1))
    (reassembled s) (outOfOrderBytes s) (outOfOrderPackets s)
    (biggestChunkBytes s) (biggestChunkPackets s) (overlapBytes s)
    (overlapPackets s).
Definition inc_ipdefrag (s : Stats) : Stats :=
  mkStats (wrapS64 (ipdefrag s + 1)) (missedBytes s) (pkt s) (sz s)
    (totalsz s) (rejectFsm s) (rejectOpt s) (rejectConnFsm s)
    (reassembled s) (outOfOrderBytes s) (outOfOrderPackets s)
    (biggestChunkBytes s) (biggestChunkPackets s) (overlapBytes s)
    (overlapPackets s).
Definition add_totalsz (n : Z) (s : Stats) : Stats :=
  mkStats (ipdefrag s) (missedBytes s) (pkt s) (sz s)
    (wrapS64 (totalsz s + n)) (rejectFsm s) (rejectOpt s) (rejectConnFsm s)
    (reassembled s) (outOfOrderBytes s) (outOfOrderPackets s)
    (biggestChunkBytes s) (biggestChunkPackets s) (overlapBytes s)
    (overlapPackets s).

(** A fragment handed to a stream reader ([StreamData]). *)
Record StreamData : Type := mkStreamData {
  raw : list Byte.byte; ac : AssemblerContext; dir : TCPFlowDirection }.

Definition set_dir (d : TCPFlowDirection) (f : StreamData) : StreamData :=
  mkStreamData (raw f) (ac f) d.

(** A stream reader behind the [StreamReader] interface. Its
    implementation is not under src/; the record holds what the methods
    called here read and write: [DataChan] (the fragments sent and not yet
    taken out, and whether the channel was closed), [DataSlice],
    [SetClient] and [Network]. *)
Record StreamReader : Type := mkReader {
  isClient : bool;
  Network : Flow;
  DataChan : list StreamData;
  chanClosed : bool;
  DataSlice : list StreamData }.

Definition SetClient (b : bool) (r : StreamReader) : StreamReader :=
  mkReader b (Network r) (DataChan r) (chanClosed r) (DataSlice r).

(** [r.DataChan() <- d] on an open channel (blocking is not modelled). *)
Definition send (d : StreamData) (r : StreamReader) : StreamReader :=
  mkReader (isClient r) (Network r) (DataChan r ++ [d])%list (chanClosed r)
    (DataSlice r).

(** The fragments of [r.DataSlice()] are pointers: writing their [dir]
    changes the fragments the reader holds. *)
Definition set_DataSlice (l : list StreamData) (r : StreamReader)
  : StreamReader :=
  mkReader (isClient r) (Network r) (DataChan r) (chanClosed r) l.

(** [streamFactory], as far as [ReassembledSG] reads it. *)
Record Factory : Type := mkFactory {
  decodeSSH : bool; decodeHTTP : bool; decodePOP3 : bool }.

Section Env.

(** The FSM and the option checker of the [reassembly] package, and the TCP
    layer with its checksum, are used through their methods only. *)
Variable TCP : Type.
Variable CaptureInfo : Type.
Variable FSM : Type.
Variable OptionCheck : Type.

(** [tcpstate.CheckState(tcp, dir)]: the FSM after the segment and whether
    it accepts it. *)
Variable CheckState : FSM -> TCP -> TCPFlowDirection -> FSM * bool.

(** [optchecker.Accept(tcp, ci, dir, nextSeq, start)]: the checker after
    the segment, the value left in [*start], and the error if any. *)
Variable OptAccept :
  OptionCheck -> TCP -> CaptureInfo -> TCPFlowDirection -> Z -> bool ->
  OptionCheck * bool * option string.

(** [tcp.ComputeChecksum()]: the checksum, and the error if any. *)
Variable ComputeChecksum : TCP -> Z * option string.

(** [reverseIdent], a helper of the package that is not under src/. *)
Variable reverseIdent : string -> string.

(** [tcpConnection]. The decoder, the conversation buffers, [merged] and
    [last] are not read or written by the functions modelled here and are
    left out. *)
Record tcpConnection : Type := mkConn {
  tcpstate : FSM;
  optchecker : OptionCheck;
  net : Flow;
  transport : Flow;
  fsmerr : bool;
  isHTTP : bool;
  isHTTPS : bool;
  isPOP3 : bool;
  isSSH : bool;
  ident : string;
  client : option StreamReader;
  server : option StreamReader;
  firstPacket : Time }.

Definition set_tcpstate (f : FSM) (t : tcpConnection) : tcpConnection :=
  mkConn f (optchecker t) (net t) (transport t) (fsmerr t) (isHTTP t)
    (isHTTPS t) (isPOP3 t) (isSSH t) (ident t) (client t) (server t)
    (firstPacket t).
Definition set_optchecker (o : OptionCheck) (t : tcpConnection) : tcpConnection :=
  mkConn (tcpstate t) o (net t) (transport t) (fsmerr t) (isHTTP t)
    (isHTTPS t) (isPOP3 t) (isSSH t) (ident t) (client t) (server t)
    (firstPacket t).
Definition set_fsmerr (b : bool) (t : tcpConnection) : tcpConnection :=
  mkConn (tcpstate t) (optchecker t) (net t) (transport t) b (isHTTP t)
    (isHTTPS t) (isPOP3 t) (isSSH t) (ident t) (client t) (server t)
    (firstPacket t).
Definition set_client (r : option StreamReader) (t : tcpConnection) : tcpConnection :=
  mkConn (tcpstate t) (optchecker t) (net t) (transport t) (fsmerr t)
    (isHTTP t) (isHTTPS t) (isPOP3 t) (isSSH t) (ident t) r (server t)
    (firstPacket t).
Definition set_server (r : option StreamReader) (t : tcpConnection) : tcpConnection :=
  mkConn (tcpstate t) (optchecker t) (net t) (transport t) (fsmerr t)
    (isHTTP t) (isHTTPS t) (isPOP3 t) (isSSH t) (ident t) (client t) r
    (firstPacket t).
Definition set_firstPacket (ts : Time) (t : tcpConnection) : tcpConnection :=
  mkConn (tcpstate t) (optchecker t) (net t) (transport t) (fsmerr t)
    (isHTTP t) (isHTTPS t) (isPOP3 t) (isSSH t) (ident t) (client t)
    (server t) ts.
Definition set_ident (s : string) (t : tcpConnection) : tcpConnection :=
  mkConn (tcpstate t) (optchecker t) (net t) (transport t) (fsmerr t)
    (isHTTP t) (isHTTPS t) (isPOP3 t) (isSSH t) s (client t) (server t)
    (firstPacket t).
Definition set_net (f : Flow) (t : tcpConnection) : tcpConnection :=
  mkConn (tcpstate t) (optchecker t) f (transport t) (fsmerr t) (isHTTP t)
    (isHTTPS t) (isPOP3 t) (isSSH t) (ident t) (client t) (server t)
    (firstPacket t).
Definition set_transport (f : Flow) (t : tcpConnection) : tcpConnection :=
  mkConn (tcpstate t) (optchecker t) (net t) f (fsmerr t) (isHTTP t)
    (isHTTPS t) (isPOP3 t) (isSSH t) (ident t) (client t) (server t)
    (firstPacket t).

Variable c : Config.

(** *** Accept *)

(** The outcome of [Accept]: the boolean handed back, the value left in
    [*start], the connection and the statistics. *)
Record Accepted : Type := mkAccepted {
  accepted : bool; startOut : bool; connOut : tcpConnection; statsOut : Stats }.

Definition Accept (t : tcpConnection) (tcp : TCP) (ci : CaptureInfo)
  (dir : TCPFlowDirection) (nextSeq : Z) (start : bool) (st : Stats)
  : Accepted :=
  (* Finite State Machine *)
  let '(fsm, ok) := CheckState (tcpstate t) tcp dir in
  let t := set_tcpstate fsm t in
  let '(t, st) :=
    if negb ok then
      let st := inc_rejectFsm st in
      if negb (fsmerr t)
      then (set_fsmerr true t, inc_rejectConnFsm st)
      else (t, st)
    else (t, st) in
  if negb ok && negb (IgnoreFSMerr c) then mkAccepted false start t st
  else
    (* TCP Options *)
    let '(oc, start, err) := OptAccept (optchecker t) tcp ci dir nextSeq start in
    let t := set_optchecker oc t in
    let st := if err is Some _ then inc_rejectOpt st else st in
    if (if err is Some _ then true else false) && negb (NoOptCheck c)
    then mkAccepted false start t st
    else
      (* TCP Checksum *)
      let accept :=
        if Checksum c then
          match ComputeChecksum tcp with
          | (_, Some _) => false
          | (sum, None) => if sum =? 0 then true else false
          end
        else true in
      (* stats *)
      let st := if negb accept then inc_rejectOpt st else st in
      mkAccepted accept start t st.

(** A connection is offered segments one after the other. *)
Record Segment : Type := mkSegment {
  seg_tcp : TCP; seg_ci : CaptureInfo; seg_dir : TCPFlowDirection;
  seg_nextSeq : Z; seg_start : bool }.

Definition AcceptSegment (t : tcpConnection) (s : Segment) (st : Stats)
  : Accepted :=
  Accept t (seg_tcp s) (seg_ci s) (seg_dir s) (seg_nextSeq s) (seg_start s) st.

(** The connection and the statistics after a run of segments, with the
    verdict of the FSM on each of them. *)
Fixpoint AcceptAll (t : tcpConnection) (st : Stats) (segs : list Segment)
  : tcpConnection * Stats * list bool :=
  match segs with
  | [] => (t, st, [])
  | s :: segs =>
      let ok := (CheckState (tcpstate t) (seg_tcp s) (seg_dir s)).2 in
      let r := AcceptSegment t s st in
      let '(t', st', oks) := AcceptAll (connOut r) (statsOut r) segs in
      (t', st', ok :: oks)
  end.

(** *** ReassembledSG *)

(** [reassembly.ScatterGatherStats]. *)
Record SGStats : Type := mkSGStats {
  Packets : Z; Chunks : Z; QueuedPackets : Z; QueuedBytes : Z;
  OverlapBytes : Z; OverlapPackets : Z }.

(** A [reassembly.ScatterGather] through its methods: [Lengths], [Info],
    [Stats] and [Fetch]. *)
Record ScatterGather : Type := mkSG {
  sgLength : Z; sgSaved : Z;
  sgDir : TCPFlowDirection; sgStart : bool; sgEnd : bool; sgSkip : Z;
  sgStats : SGStats;
  Fetch : Z -> list Byte.byte }.

(** The package variable [streamFactory]. *)
Variable streamFactory : Factory.

(** [updateStats]: the statistics after the chunk (the log lines are left
    out). *)
Definition updateStats (skip length saved : Z) (sgs : SGStats) (st : Stats)
  : Stats :=
  mkStats (ipdefrag st)
    (if 0 <? skip then wrapS64 (missedBytes st + skip) else missedBytes st)
    (wrapS64 (pkt st + Packets sgs))
    (wrapS64 (sz st + wrapS64 (length - saved)))
    (totalsz st) (rejectFsm st) (rejectOpt st) (rejectConnFsm st)
    (if 1 <? Chunks sgs then wrapS64 (reassembled st + 1) else reassembled st)
    (wrapS64 (outOfOrderBytes st + QueuedBytes sgs))
    (wrapS64 (outOfOrderPackets st + QueuedPackets sgs))
    (if biggestChunkBytes st <? length then length else biggestChunkBytes st)
    (if biggestChunkPackets st <? Packets sgs then Packets sgs
     else biggestChunkPackets st)
    (wrapS64 (overlapBytes st + OverlapBytes sgs))
    (wrapS64 (overlapPackets st + OverlapPackets sgs)).

(** Go's [copy(dst, src)]: the slice [dst] afterwards and the number of
    bytes copied. *)
Definition go_copy (dst src : list Byte.byte) : list Byte.byte * nat :=
  let n := Nat.min (List.length dst) (List.length src) in
  ((firstn n src ++ skipn n dst)%list, n).

(** [feedData]: the data is copied and the copy is sent to the reader of
    its direction. A nil reader and a closed channel make the send panic. *)
Definition feedData (t : tcpConnection) (dir : TCPFlowDirection)
  (data : list Byte.byte) (ac : AssemblerContext) : result tcpConnection :=
  let '(dataCpy, l) := go_copy (repeat Byte.x00 (List.length data)) data in
  if negb (l =? List.length data)%nat then Fatal "l != len(data)"
  else
    let d := mkStreamData dataCpy ac dir in
    if decide (dir = TCPDirClientToServer) then
      match client t with
      | None => Panic Writer.nilDeref
      | Some r =>
          if chanClosed r then Panic "send on closed channel"
          else Ok (set_client (Some (send d r)) t)
      end
    else
      match server t with
      | None => Panic Writer.nilDeref
      | Some r =>
          if chanClosed r then Panic "send on closed channel"
          else Ok (set_server (Some (send d r)) t)
      end.

Definition ReassembledSG (t : tcpConnection) (sg : ScatterGather)
  (ac : AssemblerContext) (st : Stats) : result (tcpConnection * Stats) :=
  let '(length, saved) := (sgLength sg, sgSaved sg) in
  let '(dir, start, end_, skip) := (sgDir sg, sgStart sg, sgEnd sg, sgSkip sg) in
  (* update stats *)
  let st := updateStats skip length saved (sgStats sg) st in
  if negb ((skip =? -1) && AllowMissingInit c) && negb (skip =? 0)
  then (* Missing bytes in stream: do not even try to parse it *) Ok (t, st)
  else
    let data := Fetch sg length in
    (* dont process stream if protocol is disabled *)
    if isSSH t && negb (decodeSSH streamFactory) then Ok (t, st)
    else if isHTTP t && negb (decodeHTTP streamFactory) then Ok (t, st)
    else if isPOP3 t && negb (decodePOP3 streamFactory) then Ok (t, st)
    (* do not process encrypted HTTP streams for now *)
    else if isHTTPS t then Ok (t, st)
    else if 0 <? length then
      t' <-! feedData t dir data ac; Ok (t', st)
    else Ok (t, st).

(** *** ReassemblyComplete: the block that flips the connection *)

(** [for _, d := range r.DataSlice() { d.dir = dir }]. *)
Definition fixDirections (d : TCPFlowDirection) (r : StreamReader)
  : StreamReader :=
  set_DataSlice (map (set_dir d) (DataSlice r)) r.

(** The first block of [ReassemblyComplete]. What follows it in the
    function (saving the conversation and the banner, closing the
    channels, calling the decoder) does not write the fields set here. *)
Definition ReassemblyComplete_flip (t : tcpConnection) (ac : AssemblerContext)
  (flow : Flow) : tcpConnection :=
  if negb (Time_Equal (firstPacket t) (Timestamp ac))
     && Time_After (firstPacket t) (Timestamp ac)
  then
    (* update first packet timestamp on connection *)
    let t := set_firstPacket (Timestamp ac) t in
    match client t, server t with
    | Some cl, Some sv =>
        (* check if flow is identical or needs to be flipped *)
        if negb (bool_decide (Network cl = flow)) then
          (* flip *)
          let cl := SetClient false cl in
          let sv := SetClient true sv in
          let t := set_ident (reverseIdent (ident t)) t in
          let t := set_server (Some cl) (set_client (Some sv) t) in
          let t :=
            set_net (Flow_Reverse (net t))
              (set_transport (Flow_Reverse (transport t)) t) in
          (* fix directions for all data fragments *)
          let t :=
            set_client
              (option_map (fixDirections TCPDirClientToServer) (client t)) t in
          set_server
            (option_map (fixDirections TCPDirServerToClient) (server t)) t
        else t
    | _, _ => t
    end
  else t.

(** *** ReassemblePacket *)

(** The IPv4 layer, of which the code reads the length. *)
Record IPv4 : Type := mkIPv4 { ipLength : Z }.

(** What [defragger.DefragIPv4] hands back: an error, nil (more fragments
    are needed) or the packet. *)
Inductive DefragResult : Type :=
| DefragError (err : string)
| DefragPending
| DefragDone (newip4 : IPv4).

(** The calls that leave the function, in their order. *)
Inductive Event : Type :=
| EvHandleUDP
| EvDecode (newip4 : IPv4)
| EvAssemble (flow : Flow) (ts : Time)
| EvFlush (T TC : Time).

Variable Payload : TCP -> list Byte.byte.

(** The state of the IPv4 defragmenter and its one operation. *)
Variable Defragmenter : Type.
Variable DefragIPv4 : Defragmenter -> IPv4 -> Defragmenter * DefragResult.

(** [gopacket.Packet] through the methods called: the TCP, UDP and IPv4
    layers, the data, the capture timestamp, the network flow of the
    network layer (if there is one) and whether the packet is a
    [PacketBuilder]. *)
Record Packet : Type := mkPacket {
  tcpLayer : option TCP;
  hasUDP : bool;
  ip4Layer : option IPv4;
  pData : list Byte.byte;
  pTimestamp : Time;
  networkFlow : option Flow;
  isPacketBuilder : bool }.

(** [tcp.SetNetworkLayerForChecksum(packet.NetworkLayer())]: the error, if
    any. *)
Variable SetNetworkLayerForChecksum : Packet -> option string.

(** The package variables the function writes: [count], [dataBytes], the
    statistics and the defragmenter. *)
Record Globals : Type := mkGlobals {
  count : Z; dataBytes : Z; stats : Stats; defragger : Defragmenter }.

(** The defragmentation block of [ReassemblePacket]; [inl] stands for its
    [return]s, [inr] for falling through with the calls made so far. *)
Definition defragStage (g : Globals) (packet : Packet)
  : result (Globals + Globals * list Event) :=
  if negb (NoDefrag c) then
    match ip4Layer packet with
    | None => Ok (inl g)
    | Some ip4 =>
        let l := ipLength ip4 in
        let '(d, res) := DefragIPv4 (defragger g) ip4 in
        let g := mkGlobals (count g) (dataBytes g) (stats g) d in
        match res with
        | DefragError e => Fatal "Error while de-fragmenting"
        | DefragPending => Ok (inl g)
        | DefragDone newip4 =>
            if negb (ipLength newip4 =? l) then
              let g :=
                mkGlobals (count g) (dataBytes g) (inc_ipdefrag (stats g))
                  (defragger g) in
              if negb (isPacketBuilder packet) then Panic "Not a PacketBuilder"
              else Ok (inr (g, [EvDecode newip4]))
            else Ok (inr (g, []))
        end
    end
  else Ok (inr (g, [])).

(** The rest of [ReassemblePacket]: checksum set-up, the assembler, and the
    flush every [FlushEvery] packets. *)
Definition assembleStage (g : Globals) (evs : list Event) (tcp : TCP)
  (packet : Packet) : result (Globals * list Event) :=
  _ <-! (if Checksum c then
           match SetNetworkLayerForChecksum packet with
           | Some e => Fatal "Failed to set network layer for checksum"
           | None => Ok tt
           end
         else Ok tt);
  let g :=
    mkGlobals (count g) (dataBytes g)
      (add_totalsz (Z.of_nat (List.length (Payload tcp))) (stats g))
      (defragger g) in
  flow <-! (match networkFlow packet with
            | None => Panic Writer.nilDeref
            | Some f => Ok f
            end);
  let evs := (evs ++ [EvAssemble flow (pTimestamp packet)])%list in
  if FlushEvery c =? 0 then Panic "integer divide by zero"
  else
    let doFlush := Z.rem (count g) (FlushEvery c) =? 0 in
    (* flush connections in interval *)
    if doFlush then
      let ref := pTimestamp packet in
      Ok (g, (evs ++ [EvFlush
                        (Time_Add ref (Duration_neg (ClosePendingTimeOut c)))
                        (Time_Add ref (Duration_neg (CloseInactiveTimeOut c)))])%list)
    else Ok (g, evs).

Definition ReassemblePacket (g : Globals) (packet : Packet)
  : result (Globals * list Event) :=
  (* prevent passing any non TCP packets in here *)
  match tcpLayer packet with
  | None => Ok (g, if hasUDP packet then [EvHandleUDP] else [])
  | Some tcp =>
      let g :=
        mkGlobals (wrapS64 (count g + 1))
          (wrapS64 (dataBytes g + Z.of_nat (List.length (pData packet))))
          (stats g) (defragger g) in
      r <-! defragStage g packet;
      match r with
      | inl g => Ok (g, [])
      | inr (g, evs) => assembleStage g evs tcp packet
      end
  end.

(** *** Runs of chunks and of packets *)

(** The statistics after the chunks of a run went through [updateStats],
    as they do at the start of every [ReassembledSG]. *)
Definition updateStatsAll (sgs : list ScatterGather) (st : Stats) : Stats :=
  foldl (fun st sg =>
           updateStats (sgSkip sg) (sgLength sg) (sgSaved sg) (sgStats sg) st)
    st sgs.

(** [ReassembledSG] on the chunks of a connection, one after the other,
    each with its context. *)
Fixpoint ReassembledSGs (t : tcpConnection)
  (chunks : list (ScatterGather * AssemblerContext)) (st : Stats)
  : result (tcpConnection * Stats) :=
  match chunks with
  | [] => Ok (t, st)
  | (sg, ac) :: chunks =>
      r <-! ReassembledSG t sg ac st;
      ReassembledSGs r.1 chunks r.2
  end.

(** [ReassemblePacket] on the packets of a capture, one after the other:
    the package variables and the calls that left the function. *)
Fixpoint ReassemblePackets (g : Globals) (packets : list Packet)
  : result (Globals * list Event) :=
  match packets with
  | [] => Ok (g, [])
  | packet :: packets =>
      r <-! ReassemblePacket g packet;
      r' <-! ReassemblePackets r.1 packets;
      Ok (r'.1, (r.2 ++ r'.2)%list)
  end.

(** *** DecodeHTTP, the entry point of the older HTTP encoder *)

(** [nextDecoder.Decode(newip4.Payload, pb)]: the packet after the decoder
    of the next layer has added to it what it found in the payload of the
    datagram put together again. The packet is changed in place; a failure
    of the decoder is printed and the function goes on with the packet as
    the decoder left it. *)
Variable Redecode : IPv4 -> Packet -> Packet.

(** [DecodeHTTP] reads the flags [*nodefrag], [*checksum] and
    [*flushevery] and the package variables [timeout] and [closeTimeout];
    they are arguments here. It has package variables [count], [dataBytes],
    [defragger] and [reassemblyStats] of its own. It looks for the TCP
    layer after the defragmentation block, in the packet as that block
    left it. *)
Definition DecodeHTTP (nodefrag checksum : bool) (flushevery : Z)
  (timeout closeTimeout : Duration) (g : Globals) (packet : Packet)
  : result (Globals * list Event) :=
  let g :=
    mkGlobals (wrapS64 (count g + 1))
      (wrapS64 (dataBytes g + Z.of_nat (List.length (pData packet))))
      (stats g) (defragger g) in
  (* defrag the IPv4 packet if required *)
  r <-! (if negb nodefrag then
           match ip4Layer packet with
           | None => Ok (inl g)
           | Some ip4 =>
               let l := ipLength ip4 in
               let '(d, res) := DefragIPv4 (defragger g) ip4 in
               let g := mkGlobals (count g) (dataBytes g) (stats g) d in
               match res with
               | DefragError e => Fatal "Error while de-fragmenting"
               | DefragPending => Ok (inl g)
               | DefragDone newip4 =>
                   if negb (ipLength newip4 =? l) then
                     let g :=
                       mkGlobals (count g) (dataBytes g)
                         (inc_ipdefrag (stats g)) (defragger g) in
                     if negb (isPacketBuilder packet)
                     then Panic "Not a PacketBuilder"
                     else Ok (inr (g, [EvDecode newip4],
                                   Redecode newip4 packet))
                   else Ok (inr (g, [], packet))
               end
           end
         else Ok (inr (g, [], packet)));
  match r with
  | inl g => Ok (g, [])
  | inr (g, evs, packet) =>
      r <-! (match tcpLayer packet with
             | Some tcp =>
                 _ <-! (if checksum then
                          match SetNetworkLayerForChecksum packet with
                          | Some e =>
                              Fatal "Failed to set network layer for checksum"
                          | None => Ok tt
                          end
                        else Ok tt);
                 let g :=
                   mkGlobals (count g) (dataBytes g)
                     (add_totalsz (Z.of_nat (List.length (Payload tcp)))
                        (stats g))
                     (defragger g) in
                 flow <-! (match networkFlow packet with
                           | None => Panic Writer.nilDeref
                           | Some f => Ok f
                           end);
                 Ok (g, (evs ++ [EvAssemble flow (pTimestamp packet)])%list)
             | None => Ok (g, evs)
             end);
      let '(g, evs) := r in
      (* flush connections in interval *)
      if flushevery =? 0 then Panic "integer divide by zero"
      else if Z.rem (count g) flushevery =? 0 then
        let ref := pTimestamp packet in
        Ok (g, (evs ++ [EvFlush (Time_Add ref (Duration_neg timeout))
                          (Time_Add ref (Duration_neg closeTimeout))])%list)
      else Ok (g, evs)
  end.

(** *** The conversation of a connection *)

(** The buffers [conversationRaw] and [conversationColored] and the slice
    [merged] of a [tcpConnection]. *)
Record Conversation : Type := mkConversation {
  conversationRaw : list Byte.byte;
  conversationColored : list Byte.byte;
  merged : list StreamData }.

(** [sort.Sort(h.merged)]: the order of a [StreamDataSlice] is defined
    outside src/; the sort is given by what it makes of the slice. *)
Variable sortMerged : list StreamData -> list StreamData.

(** [c.Debug], the colour codes of the [ansi] package and
    [time.Time.String]. *)
Variable Debug : bool.
Variable ansiRed : list Byte.byte.
Variable ansiBlue : list Byte.byte.
Variable ansiReset : list Byte.byte.
Variable timeString : Time -> list Byte.byte.

(** What the loop writes into [conversationColored] for a fragment: the
    bytes in red for the direction client to server and in blue otherwise,
    followed by the timestamp in brackets when debugging (a fragment always
    has its context here). *)
Definition colored (d : StreamData) : list Byte.byte :=
  let ts :=
    if Debug
    then ([Byte.x0a; Byte.x5b] ++ timeString (Timestamp (ac d))
          ++ [Byte.x5d; Byte.x0a])%list
    else [] in
  ((if decide (dir d = TCPDirClientToServer) then ansiRed else ansiBlue)
   ++ raw d ++ ansiReset ++ ts)%list.

(** [ConversationRaw]: the bytes handed back and the buffers afterwards.
    The conversation is put together when the raw buffer is empty: both
    readers are asked for their fragments (a nil reader makes the call
    panic), the fragments are merged and sorted, and each is written to the
    two buffers. *)
Definition ConversationRaw (h : tcpConnection) (b : Conversation)
  : result (list Byte.byte * Conversation) :=
  (* do this only once, this method will be called once for each side of a
     connection *)
  if (List.length (conversationRaw b) =? 0)%nat then
    match client h, server h with
    | Some cl, Some sv =>
        (* concatenate both client and server data fragments *)
        let m := (DataSlice cl ++ DataSlice sv)%list in
        (* sort based on their timestamps *)
        let m := sortMerged m in
        (* create the buffer with the entire conversation *)
        let b :=
          foldl (fun b d =>
                   mkConversation (conversationRaw b ++ raw d)%list
                     (conversationColored b ++ colored d)%list (merged b))
            (mkConversation (conversationRaw b) (conversationColored b) m) m in
        Ok (conversationRaw b, b)
    | _, _ => Panic Writer.nilDeref
    end
  else Ok (conversationRaw b, b).

Definition ConversationColored (b : Conversation) : list Byte.byte :=
  conversationColored b.

(** *** Predicates and values of the statements *)

(** A counter after [n++] when [b] holds. *)
Definition bump (b : bool) (n : Z) : Z := if b then wrapS64 (n + 1) else n.

(** The FSM rejects the segment. *)
Definition fsmRejects (t : tcpConnection) (tcp : TCP) (dir : TCPFlowDirection)
  : bool := negb (CheckState (tcpstate t) tcp dir).2.

(** The segment gets past the FSM stage. *)
Definition pastFsm (t : tcpConnection) (tcp : TCP) (dir : TCPFlowDirection)
  : bool := negb (fsmRejects t tcp dir) || IgnoreFSMerr c.

(** The option checker is asked and rejects the segment. *)
Definition optRejects (t : tcpConnection) (tcp : TCP) (ci : CaptureInfo)
  (dir : TCPFlowDirection) (nextSeq : Z) (start : bool) : bool :=
  pastFsm t tcp dir &&
  (if (OptAccept (optchecker t) tcp ci dir nextSeq start).2 is Some _
   then true else false).

(** The segment gets past the option stage. *)
Definition pastOpt (t : tcpConnection) (tcp : TCP) (ci : CaptureInfo)
  (dir : TCPFlowDirection) (nextSeq : Z) (start : bool) : bool :=
  pastFsm t tcp dir &&
  (negb (optRejects t tcp ci dir nextSeq start) || NoOptCheck c).

(** The checksum is verified and fails to compute or is not zero. *)
Definition checksumRejects (t : tcpConnection) (tcp : TCP) (ci : CaptureInfo)
  (dir : TCPFlowDirection) (nextSeq : Z) (start : bool) : bool :=
  pastOpt t tcp ci dir nextSeq start && Checksum c &&
  match ComputeChecksum tcp with
  | (_, Some _) => true
  | (sum, None) => negb (sum =? 0)
  end.

(** The protocol of the connection is switched off in the factory. *)
Definition protocolDisabled (t : tcpConnection) : bool :=
  (isSSH t && negb (decodeSSH streamFactory))
  || (isHTTP t && negb (decodeHTTP streamFactory))
  || (isPOP3 t && negb (decodePOP3 streamFactory)).

(** The condition of the claim under which the chunk is delivered. *)
Definition delivers (t : tcpConnection) (sg : ScatterGather) : bool :=
  ((sgSkip sg =? 0) || ((sgSkip sg =? -1) && AllowMissingInit c))
  && (0 <? sgLength sg) && negb (isHTTPS t) && negb (protocolDisabled t).

(** The fragment that is enqueued: the fetched bytes, the context and the
    direction. *)
Definition fragmentOf (sg : ScatterGather) (ac : AssemblerContext)
  : StreamData :=
  mkStreamData (Fetch sg (sgLength sg)) ac (sgDir sg).

(** Both readers are there and their channels are open. *)
Definition readersOpen (t : tcpConnection) (cl sv : StreamReader) : Prop :=
  client t = Some cl /\ server t = Some sv /\
  chanClosed cl = false /\ chanClosed sv = false.

(** The condition of the claim under which the connection is flipped. *)
Definition flips (t : tcpConnection) (cl : StreamReader)
  (ac : AssemblerContext) (flow : Flow) : bool :=
  (Timestamp ac <? firstPacket t) && negb (bool_decide (Network cl = flow)).

(** The flushes among the calls, with their two cutoffs. *)
Definition flushes (evs : list Event) : list (Time * Time) :=
  omap (fun e => match e with EvFlush T TC => Some (T, TC) | _ => None end) evs.

(** The packet was handed to the assembler. *)
Definition assembled (evs : list Event) : bool :=
  existsb (fun e => match e with EvAssemble _ _ => true | _ => false end) evs.

(** A duration whose negation is an [int64] again. *)
Definition negatable (d : Duration) : Prop := min_int64 < d <= max_int64.

(** The cutoff [ref.Add(-d)]. *)
Definition cutoff (ref : Time) (d : Duration) : Time :=
  Time_Add ref (Duration_neg d).

(** The reader of a direction: the client reader takes the data that
    flows from the client to the server. *)
Definition readerOf (dir : TCPFlowDirection) (t : tcpConnection)
  : option StreamReader :=
  if decide (dir = TCPDirClientToServer) then client t else server t.

Definition set_readerOf (dir : TCPFlowDirection) (r : option StreamReader)
  (t : tcpConnection) : tcpConnection :=
  if decide (dir = TCPDirClientToServer) then set_client r t
  else set_server r t.

(** A reader after the fragments [l] were sent to it, in their order. *)
Definition sendAll (l : list StreamData) (r : StreamReader) : StreamReader :=
  mkReader (isClient r) (Network r) (DataChan r ++ l)%list (chanClosed r)
    (DataSlice r).

(** The fragments of the chunks of a run that are to be delivered and flow
    in the direction [dir], in the order of the run. *)
Definition deliveredTo (dir : TCPFlowDirection) (t : tcpConnection)
  (chunks : list (ScatterGather * AssemblerContext)) : list StreamData :=
  map (fun ch => fragmentOf ch.1 ch.2)
    (List.filter
       (fun ch => delivers t ch.1 && bool_decide (sgDir ch.1 = dir)) chunks).

(** A value that an [int64] can hold. *)
Definition inS64 (x : Z) : Prop := min_int64 <= x <= max_int64.

(** The packets with a TCP layer, and the bytes of their data. *)
Definition hasTCP (packet : Packet) : bool :=
  if tcpLayer packet is Some _ then true else false.
Definition tcpPackets (packets : list Packet) : list Packet :=
  List.filter hasTCP packets.
Definition dataOf (packets : list Packet) : Z :=
  foldr (fun packet n => Z.of_nat (List.length (pData packet)) + n) 0 packets.

(** The datagram that the defragmentation block decodes into the packet
    again: the one the defragmenter hands back when its length is not that
    of the IPv4 layer of the packet; none when defragmentation is off, the
    packet has no IPv4 layer or the defragmenter hands back something
    else. *)
Definition redecoded (nodefrag : bool) (g : Globals) (packet : Packet)
  : option IPv4 :=
  if nodefrag then None
  else match ip4Layer packet with
       | None => None
       | Some ip4 =>
           match (DefragIPv4 (defragger g) ip4).2 with
           | DefragDone newip4 =>
               if ipLength newip4 =? ipLength ip4 then None else Some newip4
           | _ => None
           end
       end.

(** The number of calls of the assembler among the calls. *)
Definition assemblies (evs : list Event) : nat :=
  List.length
    (List.filter (fun e => match e with EvAssemble _ _ => true | _ => false end)
       evs).

(** *** Facts about [Accept] *)

Lemma Accept_stages t tcp ci dir nextSeq start st :
  let r := Accept t tcp ci dir nextSeq start st in
  rejectFsm (statsOut r) = bump (fsmRejects t tcp dir) (rejectFsm st) /\
  rejectConnFsm (statsOut r)
    = bump (fsmRejects t tcp dir && negb (fsmerr t)) (rejectConnFsm st) /\
  fsmerr (connOut r) = fsmerr t || fsmRejects t tcp dir /\
  rejectOpt (statsOut r)
    = bump (checksumRejects t tcp ci dir nextSeq start)
        (bump (optRejects t tcp ci dir nextSeq start) (rejectOpt st)) /\
  accepted r
    = negb (fsmRejects t tcp dir && negb (IgnoreFSMerr c))
      && negb (optRejects t tcp ci dir nextSeq start && negb (NoOptCheck c))
      && negb (checksumRejects t tcp ci dir nextSeq start).
Proof.
  unfold Accept, checksumRejects, pastOpt, optRejects, pastFsm, fsmRejects, bump.
  destruct t as [fsm0 oc0 ? ? fe ? ? ? ? ? ? ? ?]; simpl.
  destruct (CheckState fsm0 tcp dir) as [fsm ok].
  destruct (OptAccept oc0 tcp ci dir nextSeq start)
    as [[oc start'] err] eqn:Hopt.
  destruct (ComputeChecksum tcp) as [sum cerr].
  destruct ok, fe, (IgnoreFSMerr c), (NoOptCheck c), (Checksum c);
    simpl; rewrite ?Hopt;
    destruct err, cerr, (sum =? 0); simpl; repeat split; reflexivity.
Qed.

Lemma iter_bump n x :
  Nat.iter n (bump true) (wrapS64 (x + 1))
  = wrapS64 (Nat.iter n (bump true) x + 1).
Proof.
  change (Nat.iter n (bump true) (bump true x)
          = bump true (Nat.iter n (bump true) x)).
  rewrite <- Nat.iter_succ_r. reflexivity.
Qed.

(** Over a run of segments [rejectFsm] is counted up once for each
    rejection by the FSM, and [rejectConnFsm] once if the connection had no
    FSM error before and some segment of the run is rejected. *)
Lemma AcceptAll_rejections segs : forall t st,
  let '(t', st', oks) := AcceptAll t st segs in
  rejectFsm st'
    = Nat.iter (length (filter (fun ok => negb ok = true) oks)) (bump true)
        (rejectFsm st) /\
  rejectConnFsm st'
    = bump (negb (fsmerr t) && existsb negb oks) (rejectConnFsm st) /\
  fsmerr t' = fsmerr t || existsb negb oks.
Proof.
  induction segs as [|s segs IH]; intros t st; simpl.
  - rewrite andb_false_r, orb_false_r. auto.
  - pose proof (Accept_stages t (seg_tcp s) (seg_ci s) (seg_dir s)
                  (seg_nextSeq s) (seg_start s) st) as (Hf & Hc & He & _).
    fold (AcceptSegment t s st) in Hf, Hc, He.
    specialize (IH (connOut (AcceptSegment t s st))
                   (statsOut (AcceptSegment t s st))).
    destruct (AcceptAll _ _ segs) as [[t' st'] oks].
    destruct IH as (IHf & IHc & IHe).
    rewrite IHf, IHc, IHe, Hf, Hc, He. clear IHf IHc IHe Hf Hc He.
    unfold fsmRejects.
    destruct (CheckState (tcpstate t) (seg_tcp s) (seg_dir s)) as [fsm ok].
    simpl. destruct ok, (fsmerr t), (existsb negb oks); simpl;
      rewrite ?filter_cons_True, ?filter_cons_False by (simpl; congruence);
      simpl; rewrite ?iter_bump; auto.
Qed.

(** C2. [Accept], stage by stage. A rejection by the FSM counts
    [rejectFsm] up, counts [rejectConnFsm] up if it is the first of the
    connection, and makes [Accept] hand back false unless [IgnoreFSMerr]
    is set. A rejection by the option checker counts [rejectOpt] up and
    makes [Accept] hand back false unless [NoOptCheck] is set. With
    [Checksum] set, a checksum that fails to compute or is not zero counts
    [rejectOpt] up and makes [Accept] hand back false. [Accept] hands back
    true in no other case. Over all the segments of a connection
    [rejectConnFsm] is counted up once, if there is any rejection by the
    FSM, and [rejectFsm] once per rejection. *)
Theorem Accept_rejections :
  (forall t tcp ci dir nextSeq start st,
      let r := Accept t tcp ci dir nextSeq start st in
      rejectFsm (statsOut r) = bump (fsmRejects t tcp dir) (rejectFsm st) /\
      rejectConnFsm (statsOut r)
        = bump (fsmRejects t tcp dir && negb (fsmerr t)) (rejectConnFsm st) /\
      fsmerr (connOut r) = fsmerr t || fsmRejects t tcp dir /\
      rejectOpt (statsOut r)
        = bump (checksumRejects t tcp ci dir nextSeq start)
            (bump (optRejects t tcp ci dir nextSeq start) (rejectOpt st)) /\
      accepted r
        = negb (fsmRejects t tcp dir && negb (IgnoreFSMerr c))
          && negb (optRejects t tcp ci dir nextSeq start && negb (NoOptCheck c))
          && negb (checksumRejects t tcp ci dir nextSeq start))
  /\ (forall segs t st,
        let '(t', st', oks) := AcceptAll t st segs in
        rejectFsm st'
          = Nat.iter (length (filter (fun ok => negb ok = true) oks))
              (bump true) (rejectFsm st) /\
        rejectConnFsm st'
          = bump (negb (fsmerr t) && existsb negb oks) (rejectConnFsm st)).
Proof.
  split.
  - intros. apply Accept_stages.
  - intros segs t st. pose proof (AcceptAll_rejections segs t st) as H.
    destruct (AcceptAll t st segs) as [[t' st'] oks]. tauto.
Qed.

(** *** Facts about [ReassembledSG] *)

Lemma go_copy_fresh data :
  go_copy (repeat Byte.x00 (List.length data)) data = (data, List.length data).
Proof.
  unfold go_copy. rewrite repeat_length, Nat.min_id.
  rewrite firstn_all, skipn_all2 by (rewrite repeat_length; lia).
  rewrite app_nil_r. reflexivity.
Qed.

(** C3. On a connection with both readers and open channels,
    [ReassembledSG] returns, with the statistics of [updateStats]; when the
    chunk is to be delivered (skip is 0, or -1 with [AllowMissingInit];
    length above 0; the connection not HTTPS; its protocol not disabled)
    the fragment (a copy of the fetched bytes with the context and the
    direction) is appended to the channel of the client reader if the
    direction is client to server and to that of the server reader
    otherwise, and the other reader is as before; in every other case both
    readers are as before. *)
Theorem ReassembledSG_delivery t sg ac st cl sv :
  readersOpen t cl sv ->
  exists t',
    ReassembledSG t sg ac st
      = Ok (t', updateStats (sgSkip sg) (sgLength sg) (sgSaved sg)
                  (sgStats sg) st) /\
    client t'
      = Some (if delivers t sg && bool_decide (sgDir sg = TCPDirClientToServer)
              then send (fragmentOf sg ac) cl else cl) /\
    server t'
      = Some (if delivers t sg && bool_decide (sgDir sg = TCPDirServerToClient)
              then send (fragmentOf sg ac) sv else sv).
Proof.
  intros (Hcl & Hsv & Hocl & Hosv).
  unfold ReassembledSG, delivers, protocolDisabled, feedData, fragmentOf, rbind.
  rewrite go_copy_fresh, Nat.eqb_refl. simpl negb.
  destruct t as [? ? ? ? ? iH iS iP iSsh ? tcl tsv ?]; simpl in *. subst tcl tsv.
  rewrite Hocl, Hosv.
  destruct (iSsh && negb (decodeSSH streamFactory)),
    (iH && negb (decodeHTTP streamFactory)),
    (iP && negb (decodePOP3 streamFactory)), iS,
    (sgSkip sg =? 0), (sgSkip sg =? -1), (AllowMissingInit c),
    (0 <? sgLength sg), (sgDir sg);
    simpl; eexists; (split; [reflexivity|]); simpl; split; reflexivity.
Qed.

(** *** Facts about the flip *)

Lemma fixDirections_all d r :
  Forall (fun f => dir f = d) (DataSlice (fixDirections d r)).
Proof.
  unfold fixDirections. simpl.
  induction (DataSlice r) as [|f l IH]; simpl; constructor; auto.
Qed.

(** C4. On a connection with both readers: if the timestamp of the
    triggering packet is strictly before the first-packet time and the
    flow is not the network flow of the client reader, the readers are
    swapped (the old server reader is the client, marked as client, the
    old client reader is the server), net and transport flow are reversed,
    the identity is reversed, and every fragment of the new client reader
    is tagged client-to-server and every fragment of the new server reader
    server-to-client; otherwise readers, flows and identity stay as they
    are. With the timestamp equal to the first-packet time the connection
    is unchanged. *)
Theorem ReassemblyComplete_flip_iff t ac flow cl sv :
  client t = Some cl -> server t = Some sv ->
  let t' := ReassemblyComplete_flip t ac flow in
  (if flips t cl ac flow then
     client t' = Some (fixDirections TCPDirClientToServer (SetClient true sv)) /\
     server t' = Some (fixDirections TCPDirServerToClient (SetClient false cl)) /\
     net t' = Flow_Reverse (net t) /\
     transport t' = Flow_Reverse (transport t) /\
     ident t' = reverseIdent (ident t) /\
     (forall r, client t' = Some r ->
                Forall (fun f => dir f = TCPDirClientToServer) (DataSlice r)) /\
     (forall r, server t' = Some r ->
                Forall (fun f => dir f = TCPDirServerToClient) (DataSlice r))
   else
     client t' = Some cl /\ server t' = Some sv /\
     net t' = net t /\ transport t' = transport t /\ ident t' = ident t)
  /\ (Timestamp ac = firstPacket t -> t' = t).
Proof.
  intros Hcl Hsv. simpl.
  unfold ReassemblyComplete_flip, flips, Time_Equal, Time_After.
  destruct t as [? ? ? ? ? ? ? ? ? ? tcl tsv fp]; simpl in *. subst tcl tsv.
  split.
  - destruct (Timestamp ac <? fp) eqn:Hlt.
    + assert ((fp =? Timestamp ac) = false) as -> by lia. simpl.
      destruct (bool_decide (Network cl = flow)); simpl.
      * auto.
      * repeat split; try reflexivity.
        -- intros r [= <-]. apply fixDirections_all.
        -- intros r [= <-]. apply fixDirections_all.
    + rewrite andb_false_r. simpl. auto.
  - intros ->. rewrite Z.eqb_refl. reflexivity.
Qed.

(** *** Facts about [ReassemblePacket] *)

Lemma cutoff_negatable ref d : negatable d -> cutoff ref d = ref - d.
Proof.
  unfold negatable, cutoff, Time_Add, Duration_neg. intros H.
  rewrite wrapS64_small by (unfold min_int64, max_int64 in *; lia). lia.
Qed.

Lemma defragStage_count g packet r :
  defragStage g packet = Ok r ->
  match r with
  | inl g1 => count g1 = count g
  | inr (g1, evs1) =>
      count g1 = count g /\ assembled evs1 = false /\ flushes evs1 = []
  end.
Proof.
  unfold defragStage. destruct (NoDefrag c); simpl.
  { intros H%Ok_inj. subst r. auto. }
  destruct (ip4Layer packet) as [ip4|].
  2: { intros H%Ok_inj. subst r. reflexivity. }
  destruct (DefragIPv4 (defragger g) ip4) as [d [e| |newip4]];
    try discriminate.
  { intros H%Ok_inj. subst r. reflexivity. }
  destruct (ipLength newip4 =? ipLength ip4); simpl.
  { intros H%Ok_inj. subst r. auto. }
  destruct (isPacketBuilder packet); simpl; try discriminate.
  intros H%Ok_inj. subst r. auto.
Qed.

Lemma assembleStage_flush g1 evs1 tcp packet g' evs :
  assembled evs1 = false -> flushes evs1 = [] ->
  assembleStage g1 evs1 tcp packet = Ok (g', evs) ->
  count g' = count g1 /\ assembled evs = true /\
  flushes evs
  = if Z.rem (count g') (FlushEvery c) =? 0
    then [(cutoff (pTimestamp packet) (ClosePendingTimeOut c),
           cutoff (pTimestamp packet) (CloseInactiveTimeOut c))]
    else [].
Proof.
  intros Ha Hf. unfold assembleStage, rbind, cutoff.
  destruct (if Checksum c then _ else _) as [[]| |]; try discriminate.
  destruct (networkFlow packet) as [flow|]; try discriminate.
  destruct (FlushEvery c =? 0); try discriminate. cbn [count].
  destruct (Z.rem (count g1) (FlushEvery c) =? 0) eqn:Hrem;
    intros H%Ok_inj; injection H as <- <-; simpl; rewrite Hrem;
    unfold flushes, assembled in *;
    rewrite ?omap_app, ?existsb_app, Hf, Ha; simpl;
    rewrite ?orb_true_r; repeat split.
Qed.

(** C5 (as the code has it). When [ReassemblePacket] returns: a packet
    that was handed to the assembler, and whose running count is a
    multiple of [FlushEvery], is followed by one flush with the cutoffs
    [ref.Add(-ClosePendingTimeOut)] and [ref.Add(-CloseInactiveTimeOut)],
    [ref] being its capture timestamp; no other packet is followed by a
    flush: neither one whose count is not a multiple, nor one that was not
    handed to the assembler (no TCP layer, no IPv4 layer while
    defragmenting, a fragment that waits for more). The count is the
    number of packets with a TCP layer seen so far. For every timeout but
    the least [int64] the cutoff [ref.Add(-d)] is [ref - d]. *)
Theorem ReassemblePacket_flush g packet g' evs :
  ReassemblePacket g packet = Ok (g', evs) ->
  flushes evs
    = (if assembled evs && (Z.rem (count g') (FlushEvery c) =? 0)
       then [(cutoff (pTimestamp packet) (ClosePendingTimeOut c),
              cutoff (pTimestamp packet) (CloseInactiveTimeOut c))]
       else [])
  /\ count g' = (if tcpLayer packet is Some _ then wrapS64 (count g + 1)
                 else count g)
  /\ (forall ref d, negatable d -> cutoff ref d = ref - d).
Proof.
  unfold ReassemblePacket, rbind. intros H.
  split; [|split]; [| |apply cutoff_negatable]; revert H.
  - destruct (tcpLayer packet) as [tcp|].
    2: { intros H%Ok_inj. injection H as <- <-. destruct (hasUDP packet); auto. }
    destruct (defragStage _ packet) as [r| |] eqn:Hd; try discriminate.
    apply defragStage_count in Hd. simpl in Hd.
    destruct r as [g1|[g1 evs1]].
    + intros H%Ok_inj. injection H as <- <-. auto.
    + destruct Hd as (Hc & Ha & Hf). intros H.
      apply assembleStage_flush in H as (Hc' & Ha' & Hf'); try assumption.
      rewrite Hf', Ha'. reflexivity.
  - destruct (tcpLayer packet) as [tcp|].
    2: { intros H%Ok_inj. injection H as <- <-. reflexivity. }
    destruct (defragStage _ packet) as [r| |] eqn:Hd; try discriminate.
    apply defragStage_count in Hd. simpl in Hd.
    destruct r as [g1|[g1 evs1]].
    + intros H%Ok_inj. injection H as <- <-. auto.
    + destruct Hd as (Hc & Ha & Hf). intros H.
      apply assembleStage_flush in H as (Hc' & _ & _); try assumption.
      congruence.
Qed.

(** *** More about the callbacks *)

(** The send of [feedData]: the copy equals [data], so the check of the
    number of bytes copied passes and the fragment goes to the reader of
    the direction. *)
Lemma feedData_send t dir data ac :
  feedData t dir data ac
  = match readerOf dir t with
    | None => Panic Writer.nilDeref
    | Some r =>
        if chanClosed r then Panic "send on closed channel"
        else Ok (set_readerOf dir (Some (send (mkStreamData data ac dir) r)) t)
    end.
Proof.
  unfold feedData, readerOf, set_readerOf.
  rewrite go_copy_fresh, Nat.eqb_refl. simpl.
  destruct (decide (dir = TCPDirClientToServer)); reflexivity.
Qed.

(** X11. [feedData] hands on exactly the bytes it got. The check of
    the number of bytes copied never fails, so [log.Fatal] is never
    reached; the fragment sent holds the bytes of [data], the context and
    the direction, and goes to the end of the channel of the client reader
    for the direction client to server and of the server reader otherwise;
    nothing else of the connection changes. The call panics when that
    reader is nil or its channel is closed, and in no other case. *)
Theorem feedData_outcome t dir data ac :
  feedData t dir data ac
  = match readerOf dir t with
    | None => Panic Writer.nilDeref
    | Some r =>
        if chanClosed r then Panic "send on closed channel"
        else Ok (set_readerOf dir (Some (send (mkStreamData data ac dir) r)) t)
    end
  /\ (forall msg, feedData t dir data ac <> Fatal msg).
Proof.
  split; [apply feedData_send|]. intros msg. rewrite feedData_send.
  destruct (readerOf dir t) as [r|]; [|discriminate].
  destruct (chanClosed r); discriminate.
Qed.

(** X12. A chunk that is not to be delivered leaves every connection as
    it is. When the condition of delivery fails (bytes are missing, the
    chunk is empty, the connection is HTTPS, or its protocol is switched
    off), [ReassembledSG] returns with the connection unchanged and the
    statistics of [updateStats], whatever the readers are, nil included.
    When the condition holds the outcome is that of [feedData] on the bytes
    fetched: a panic if the reader of the direction is nil or its channel is
    closed. *)
Theorem ReassembledSG_without_delivery t sg ac st :
  let st' := updateStats (sgSkip sg) (sgLength sg) (sgSaved sg) (sgStats sg) st in
  (delivers t sg = false -> ReassembledSG t sg ac st = Ok (t, st'))
  /\ (delivers t sg = true ->
      ReassembledSG t sg ac st
      = match readerOf (sgDir sg) t with
        | None => Panic Writer.nilDeref
        | Some r =>
            if chanClosed r then Panic "send on closed channel"
            else Ok (set_readerOf (sgDir sg)
                       (Some (send (fragmentOf sg ac) r)) t, st')
        end).
Proof.
  cbv zeta.
  pose proof (feedData_send t (sgDir sg) (Fetch sg (sgLength sg)) ac)
    as Hfeed.
  unfold ReassembledSG, delivers, protocolDisabled, fragmentOf, rbind.
  rewrite Hfeed. clear Hfeed.
  destruct (isSSH t && negb (decodeSSH streamFactory)),
    (isHTTP t && negb (decodeHTTP streamFactory)),
    (isPOP3 t && negb (decodePOP3 streamFactory)), (isHTTPS t),
    (sgSkip sg =? 0), (sgSkip sg =? -1), (AllowMissingInit c),
    (0 <? sgLength sg); simpl; split; try discriminate; try reflexivity;
    intros _; destruct (readerOf (sgDir sg) t) as [r|]; try reflexivity;
    destruct (chanClosed r); reflexivity.
Qed.

Lemma updateStats_max skip length saved sgs st :
  biggestChunkBytes (updateStats skip length saved sgs st)
  = Z.max (biggestChunkBytes st) length /\
  biggestChunkPackets (updateStats skip length saved sgs st)
  = Z.max (biggestChunkPackets st) (Packets sgs).
Proof.
  unfold updateStats. simpl. split.
  - destruct (biggestChunkBytes st <? length) eqn:H; lia.
  - destruct (biggestChunkPackets st <? Packets sgs) eqn:H; lia.
Qed.

(** X13. The statistics over a run of chunks. [biggestChunkBytes] and
    [biggestChunkPackets] are running maxima: after the chunks they hold the
    greatest of their old value and the lengths (the packet counts) of the
    chunks; the packet counter and the byte counter hold their old value
    plus the packets and the bytes (length less saved) of the chunks, as
    [int64]s; the counters of [Accept] and of [ReassemblePacket]
    ([rejectFsm], [rejectOpt], [rejectConnFsm], [ipdefrag], [totalsz]) are
    not touched; and [missedBytes] stays as it is when no chunk skipped
    bytes (a skip of -1, the missing start, counts for nothing). *)
Theorem updateStats_run sgs : forall st,
  let st' := updateStatsAll sgs st in
  biggestChunkBytes st'
  = foldl Z.max (biggestChunkBytes st) (map sgLength sgs) /\
  biggestChunkPackets st'
  = foldl Z.max (biggestChunkPackets st)
      (map (fun sg => Packets (sgStats sg)) sgs) /\
  wrapS64 (pkt st')
  = wrapS64 (pkt st + foldr Z.add 0 (map (fun sg => Packets (sgStats sg)) sgs)) /\
  wrapS64 (sz st')
  = wrapS64 (sz st + foldr Z.add 0 (map (fun sg => sgLength sg - sgSaved sg) sgs)) /\
  (rejectFsm st', rejectOpt st', rejectConnFsm st', ipdefrag st', totalsz st')
  = (rejectFsm st, rejectOpt st, rejectConnFsm st, ipdefrag st, totalsz st) /\
  (Forall (fun sg => sgSkip sg <= 0) sgs -> missedBytes st' = missedBytes st).
Proof.
  induction sgs as [|sg sgs IH]; intros st.
  - simpl. rewrite !Z.add_0_r. repeat split; reflexivity.
  - cbv zeta. unfold updateStatsAll in *. simpl.
    specialize (IH (updateStats (sgSkip sg) (sgLength sg) (sgSaved sg)
                      (sgStats sg) st)).
    cbv zeta in IH. destruct IH as (Hb & Hp & Hk & Hs & Hr & Hm).
    pose proof (updateStats_max (sgSkip sg) (sgLength sg) (sgSaved sg)
                  (sgStats sg) st) as [Hb1 Hp1].
    rewrite Hb, Hp, Hk, Hs, Hr, Hb1, Hp1. clear Hb Hp Hk Hs Hr Hb1 Hp1.
    split; [reflexivity|]. split; [reflexivity|].
    split. { simpl. rewrite wrapS64_idemp_l. f_equal. lia. }
    split. { simpl. rewrite wrapS64_idemp_l, (Z.add_comm (sz st)),
               <- Z.add_assoc, wrapS64_idemp_l. f_equal. lia. }
    split; [reflexivity|].
    intros Hall. inversion Hall as [|? ? Hle Hrest]; subst.
    rewrite (Hm Hrest). simpl.
    destruct (0 <? sgSkip sg) eqn:Hlt; [lia|reflexivity].
Qed.

(** X14. The first-packet time only moves back, and a completion is
    handled once. After [ReassemblyComplete] has looked at a completion,
    the first-packet time of the connection is the earlier of its old value
    and the timestamp of the completion; a completion whose timestamp is
    not before the first-packet time changes nothing, so the same
    completion seen again, with whatever flow, flips nothing back. *)
Theorem ReassemblyComplete_flip_once t ac flow :
  let t' := ReassemblyComplete_flip t ac flow in
  firstPacket t' = Z.min (firstPacket t) (Timestamp ac) /\
  (forall ac' flow',
      firstPacket t' <= Timestamp ac' ->
      ReassemblyComplete_flip t' ac' flow' = t') /\
  (forall flow', ReassemblyComplete_flip t' ac flow' = t').
Proof.
  cbv zeta.
  assert (Hmin : firstPacket (ReassemblyComplete_flip t ac flow)
                 = Z.min (firstPacket t) (Timestamp ac)).
  { unfold ReassemblyComplete_flip, Time_Equal, Time_After.
    destruct (firstPacket t =? Timestamp ac) eqn:He;
      destruct (Timestamp ac <? firstPacket t) eqn:Hl; simpl; try lia.
    destruct (client t) as [cl|]; simpl; [|lia].
    destruct (server t) as [sv|]; simpl; [|lia].
    destruct (bool_decide (Network cl = flow)); simpl; lia. }
  assert (Hlater : forall ac' flow',
             firstPacket (ReassemblyComplete_flip t ac flow) <= Timestamp ac' ->
             ReassemblyComplete_flip (ReassemblyComplete_flip t ac flow) ac' flow'
             = ReassemblyComplete_flip t ac flow).
  { intros ac' flow' Hle.
    unfold ReassemblyComplete_flip at 1. unfold Time_Equal, Time_After.
    destruct (Timestamp ac' <? _) eqn:Hl; [lia|].
    rewrite andb_false_r. reflexivity. }
  split; [exact Hmin|]. split; [exact Hlater|].
  intros flow'. apply Hlater. rewrite Hmin. lia.
Qed.

(** X15. A segment the FSM turns down is not shown to the option
    checker. When the FSM rejects the segment and [IgnoreFSMerr] is not
    set, [Accept] hands back false at once: the option checker keeps its
    state, [*start] keeps its value and [rejectOpt] is not counted up; the
    FSM has taken the segment in, and the connection is marked as having an
    FSM error. *)
Theorem Accept_fsm_rejection_stops t tcp ci dir nextSeq start st :
  fsmRejects t tcp dir = true -> IgnoreFSMerr c = false ->
  let r := Accept t tcp ci dir nextSeq start st in
  accepted r = false /\ startOut r = start /\
  optchecker (connOut r) = optchecker t /\
  rejectOpt (statsOut r) = rejectOpt st /\
  tcpstate (connOut r) = (CheckState (tcpstate t) tcp dir).1 /\
  fsmerr (connOut r) = true.
Proof.
  unfold fsmRejects, Accept. intros Hrej Hig.
  destruct t as [fsm0 oc0 ? ? fe ? ? ? ? ? ? ? ?]; simpl in *.
  destruct (CheckState fsm0 tcp dir) as [fsm ok]. simpl in *.
  destruct ok; [discriminate|]. rewrite Hig. simpl.
  destruct fe; simpl; repeat split; reflexivity.
Qed.

(** X16. With every check switched off [Accept] takes every segment.
    When [IgnoreFSMerr] and [NoOptCheck] are set and [Checksum] is not,
    [Accept] hands back true for every segment; the rejections of the FSM
    and of the option checker are counted all the same, and [*start] is
    what the option checker left in it. *)
Theorem Accept_permissive t tcp ci dir nextSeq start st :
  IgnoreFSMerr c = true -> NoOptCheck c = true -> Checksum c = false ->
  let r := Accept t tcp ci dir nextSeq start st in
  accepted r = true /\
  startOut r = (OptAccept (optchecker t) tcp ci dir nextSeq start).1.2 /\
  rejectFsm (statsOut r) = bump (fsmRejects t tcp dir) (rejectFsm st) /\
  rejectOpt (statsOut r)
  = bump (if (OptAccept (optchecker t) tcp ci dir nextSeq start).2 is Some _
          then true else false) (rejectOpt st).
Proof.
  intros Hi Hn Hc. unfold fsmRejects, Accept, bump.
  destruct t as [fsm0 oc0 ? ? fe ? ? ? ? ? ? ? ?]; simpl.
  destruct (CheckState fsm0 tcp dir) as [fsm ok].
  rewrite Hi, Hn, Hc. simpl.
  destruct (OptAccept oc0 tcp ci dir nextSeq start) as [[oc start'] err] eqn:Ho.
  destruct ok, fe; simpl; rewrite ?Ho; destruct err; simpl;
    repeat split; reflexivity.
Qed.

(** One chunk on a connection with both readers and open channels. *)
Lemma ReassembledSG_step t sg ac st cl sv :
  readersOpen t cl sv ->
  exists t',
    ReassembledSG t sg ac st
    = Ok (t', updateStats (sgSkip sg) (sgLength sg) (sgSaved sg)
                (sgStats sg) st) /\
    readersOpen t'
      (sendAll (deliveredTo TCPDirClientToServer t [(sg, ac)]) cl)
      (sendAll (deliveredTo TCPDirServerToClient t [(sg, ac)]) sv) /\
    (isSSH t', isHTTP t', isPOP3 t', isHTTPS t')
    = (isSSH t, isHTTP t, isPOP3 t, isHTTPS t).
Proof.
  intros (Hcl & Hsv & Hocl & Hosv).
  destruct cl as [c1 c2 c3 c4 c5], sv as [s1 s2 s3 s4 s5].
  simpl in Hocl, Hosv. subst c4 s4.
  unfold ReassembledSG, deliveredTo, delivers, protocolDisabled, feedData,
    fragmentOf, readersOpen, sendAll, rbind.
  rewrite go_copy_fresh, Nat.eqb_refl. simpl negb.
  destruct t as [? ? ? ? ? iH iS iP iSsh ? tcl tsv ?]; simpl in *. subst tcl tsv.
  destruct (iSsh && negb (decodeSSH streamFactory)),
    (iH && negb (decodeHTTP streamFactory)),
    (iP && negb (decodePOP3 streamFactory)), iS,
    (sgSkip sg =? 0), (sgSkip sg =? -1), (AllowMissingInit c),
    (0 <? sgLength sg), (sgDir sg) eqn:Hdir;
    simpl; rewrite ?app_nil_r; eexists; (split; [reflexivity|]);
    unfold send; simpl; rewrite ?Hdir; repeat split; auto.
Qed.

Lemma sendAll_sendAll l1 l2 r :
  sendAll l2 (sendAll l1 r) = sendAll (l1 ++ l2) r.
Proof. unfold sendAll. simpl. rewrite app_assoc. reflexivity. Qed.

Lemma deliveredTo_cons dir t t' ch chunks :
  (isSSH t', isHTTP t', isPOP3 t', isHTTPS t')
  = (isSSH t, isHTTP t, isPOP3 t, isHTTPS t) ->
  (deliveredTo dir t [ch] ++ deliveredTo dir t' chunks)%list
  = deliveredTo dir t (ch :: chunks).
Proof.
  intros Hflags.
  assert (Hd : forall sg', delivers t' sg' = delivers t sg').
  { intros sg'. unfold delivers, protocolDisabled.
    injection Hflags as -> -> -> ->. reflexivity. }
  unfold deliveredTo. simpl.
  assert (Hf : List.filter
                 (fun ch => delivers t' ch.1 && bool_decide (sgDir ch.1 = dir))
                 chunks
               = List.filter
                   (fun ch => delivers t ch.1 && bool_decide (sgDir ch.1 = dir))
                   chunks).
  { apply List.filter_ext. intros x. rewrite Hd. reflexivity. }
  rewrite Hf.
  destruct (delivers t ch.1 && bool_decide (sgDir ch.1 = dir)); reflexivity.
Qed.

(** X27. Fragments arrive in the order of the chunks, each once. On a
    connection with both readers and open channels, [ReassembledSG] returns
    for every chunk of a run; afterwards the channel of the client reader
    holds what it held, followed by the fragments of the chunks that were
    to be delivered and flow from the client to the server, in the order of
    the chunks, and the channel of the server reader the same for the other
    direction; no fragment is left out, doubled or sent to the other
    reader, and the statistics are those of [updateStats] over all
    chunks. *)
Theorem ReassembledSGs_in_order chunks : forall t st cl sv,
  readersOpen t cl sv ->
  exists t',
    ReassembledSGs t chunks st = Ok (t', updateStatsAll chunks.*1 st) /\
    client t' = Some (sendAll (deliveredTo TCPDirClientToServer t chunks) cl) /\
    server t' = Some (sendAll (deliveredTo TCPDirServerToClient t chunks) sv).
Proof.
  induction chunks as [|[sg ac] chunks IH]; intros t st cl sv Hopen.
  - exists t. split; [reflexivity|].
    destruct Hopen as (Hcl & Hsv & _).
    unfold sendAll, deliveredTo. simpl. rewrite !app_nil_r.
    destruct cl, sv. auto.
  - destruct (ReassembledSG_step t sg ac st cl sv Hopen)
      as (t1 & Hstep & Hopen1 & Hd).
    destruct (IH t1 (updateStats (sgSkip sg) (sgLength sg) (sgSaved sg)
                       (sgStats sg) st) _ _ Hopen1)
      as (t' & Hrun & Hc' & Hs').
    exists t'. cbn [ReassembledSGs]. unfold rbind. rewrite Hstep.
    cbn [fst snd]. split; [exact Hrun|].
    rewrite Hc', Hs', !sendAll_sendAll, !(deliveredTo_cons _ _ _ _ _ Hd).
    auto.
Qed.

(** *** The conversation of a connection *)

Lemma conversation_loop l : forall r k m,
  foldl (fun b d =>
           mkConversation (conversationRaw b ++ raw d)%list
             (conversationColored b ++ colored d)%list (merged b))
    (mkConversation r k m) l
  = mkConversation (r ++ concat (map raw l))%list
      (k ++ concat (map colored l))%list m.
Proof.
  induction l as [|d l IH]; intros r k m; simpl.
  - rewrite !app_nil_r. reflexivity.
  - rewrite IH, <- !app_assoc. reflexivity.
Qed.

Lemma raw_length_Permutation (l l' : list StreamData) :
  l ≡ₚ l' ->
  List.length (concat (map raw l)) = List.length (concat (map raw l')).
Proof.
  induction 1 as [|d l l' _ IH|d d' l|l l' l'' _ IH1 _ IH2]; simpl.
  - reflexivity.
  - rewrite !length_app, IH. reflexivity.
  - rewrite !length_app. lia.
  - congruence.
Qed.

(** X25. The conversation is put together once, from all fragments.
    When the sort hands back a rearrangement of the slice it is given, the
    first [ConversationRaw] on a connection with both readers returns the
    bytes of the fragments of the two readers in the order of the sort:
    as many bytes as the fragments of both readers hold together;
    [merged] holds these fragments; [ConversationColored] then hands back
    the same fragments, each between its colour codes. When bytes were
    returned, every later call returns the same bytes and writes nothing. *)
Theorem ConversationRaw_once h b cl sv :
  (forall l, sortMerged l ≡ₚ l) ->
  client h = Some cl -> server h = Some sv ->
  conversationRaw b = [] ->
  exists out b',
    ConversationRaw h b = Ok (out, b') /\
    out = concat (map raw (sortMerged (DataSlice cl ++ DataSlice sv)%list)) /\
    List.length out
    = (List.length (concat (map raw (DataSlice cl)))
       + List.length (concat (map raw (DataSlice sv))))%nat /\
    merged b' ≡ₚ (DataSlice cl ++ DataSlice sv)%list /\
    ConversationColored b'
    = (conversationColored b ++ concat (map colored (merged b')))%list /\
    (out <> [] -> ConversationRaw h b' = Ok (out, b')).
Proof.
  intros Hsort Hcl Hsv Hraw.
  unfold ConversationRaw at 1. rewrite Hraw, Hcl, Hsv. simpl.
  rewrite conversation_loop. simpl.
  eexists. eexists. split; [reflexivity|].
  split; [reflexivity|]. split; [|split; [|split]].
  - rewrite (raw_length_Permutation _ _ (Hsort _)).
    rewrite map_app, concat_app, length_app. reflexivity.
  - apply Hsort.
  - reflexivity.
  - intros Hne. unfold ConversationRaw. simpl.
    destruct (concat (map raw (sortMerged (DataSlice cl ++ DataSlice sv))))
      as [|x out] eqn:Hout; [congruence|]. reflexivity.
Qed.

(** *** More about [ReassemblePacket] *)

Lemma defragStage_data g packet r :
  defragStage g packet = Ok r ->
  match r with
  | inl g1 => dataBytes g1 = dataBytes g
  | inr (g1, evs1) =>
      dataBytes g1 = dataBytes g /\ assemblies evs1 = 0%nat
  end.
Proof.
  unfold defragStage. destruct (NoDefrag c); simpl.
  { intros H%Ok_inj. subst r. auto. }
  destruct (ip4Layer packet) as [ip4|].
  2: { intros H%Ok_inj. subst r. reflexivity. }
  destruct (DefragIPv4 (defragger g) ip4) as [d [e| |newip4]];
    try discriminate.
  { intros H%Ok_inj. subst r. reflexivity. }
  destruct (ipLength newip4 =? ipLength ip4); simpl.
  { intros H%Ok_inj. subst r. auto. }
  destruct (isPacketBuilder packet); simpl; try discriminate.
  intros H%Ok_inj. subst r. auto.
Qed.

Lemma assembleStage_data g1 evs1 tcp packet g' evs :
  assemblies evs1 = 0%nat -> flushes evs1 = [] ->
  assembleStage g1 evs1 tcp packet = Ok (g', evs) ->
  dataBytes g' = dataBytes g1 /\ assemblies evs = 1%nat /\
  (List.length (flushes evs) <= 1)%nat /\ FlushEvery c <> 0.
Proof.
  intros Ha Hf. unfold assembleStage, rbind.
  destruct (if Checksum c then _ else _) as [[]| |]; try discriminate.
  destruct (networkFlow packet) as [flow|]; try discriminate.
  destruct (FlushEvery c =? 0) eqn:Hz; try discriminate.
  apply Z.eqb_neq in Hz.
  destruct (Z.rem _ (FlushEvery c) =? 0);
    intros H%Ok_inj; injection H as <- <-; simpl;
    unfold flushes, assemblies in *;
    rewrite ?omap_app, ?List.filter_app, ?length_app, Hf, Ha; simpl;
    repeat split; auto.
Qed.

(** One packet: what [ReassemblePacket] does to the counters, and how many
    calls of the assembler and flushes it makes. *)
Lemma ReassemblePacket_step g packet g' evs :
  ReassemblePacket g packet = Ok (g', evs) ->
  count g' = (if hasTCP packet then wrapS64 (count g + 1) else count g) /\
  dataBytes g'
  = (if hasTCP packet
     then wrapS64 (dataBytes g + Z.of_nat (List.length (pData packet)))
     else dataBytes g) /\
  (assemblies evs <= if hasTCP packet then 1 else 0)%nat /\
  (List.length (flushes evs) <= assemblies evs)%nat /\
  (assemblies evs = 1%nat -> FlushEvery c <> 0).
Proof.
  unfold ReassemblePacket, hasTCP, rbind.
  destruct (tcpLayer packet) as [tcp|].
  2: { intros H%Ok_inj. injection H as <- <-.
       destruct (hasUDP packet); simpl; repeat split; auto; discriminate. }
  destruct (defragStage _ packet) as [r| |] eqn:Hd; try discriminate.
  pose proof (defragStage_count _ _ _ Hd) as Hc.
  pose proof (defragStage_data _ _ _ Hd) as Hb. simpl in Hc, Hb.
  destruct r as [g1|[g1 evs1]].
  - intros H%Ok_inj. injection H as <- <-. simpl.
    repeat split; auto; discriminate.
  - destruct Hc as (Hc & Has & Hf). destruct Hb as (Hb & Ha). intros H.
    pose proof (assembleStage_flush _ _ _ _ _ _ Has Hf H) as (Hc' & _ & _).
    apply assembleStage_data in H as (Hb' & Ha' & Hf' & Hz); try assumption.
    rewrite Ha'. repeat split; try congruence; auto.
Qed.

(** X17. With [FlushEvery] zero no packet gets past the assembler.
    The remainder [count % c.FlushEvery] is taken after the call of the
    assembler, for every packet that reaches it. So with [FlushEvery] zero
    [ReassemblePacket] panics on the division for every packet that has a
    TCP layer and a network layer, that the defragmentation block lets
    through and whose checksum set-up does not fail; and the calls that
    return have not called the assembler and flush nothing. *)
Theorem ReassemblePacket_FlushEvery_zero g packet :
  FlushEvery c = 0 ->
  (forall g' evs,
      ReassemblePacket g packet = Ok (g', evs) ->
      assembled evs = false /\ flushes evs = []) /\
  (forall tcp flow g1 evs1,
      tcpLayer packet = Some tcp ->
      defragStage
        (mkGlobals (wrapS64 (count g + 1))
           (wrapS64 (dataBytes g + Z.of_nat (List.length (pData packet))))
           (stats g) (defragger g)) packet
      = Ok (inr (g1, evs1)) ->
      (Checksum c = true -> SetNetworkLayerForChecksum packet = None) ->
      networkFlow packet = Some flow ->
      ReassemblePacket g packet = Panic "integer divide by zero").
Proof.
  intros Hz. split.
  - intros g' evs H.
    pose proof (ReassemblePacket_step _ _ _ _ H) as (_ & _ & Ha & Hf & Hnz).
    assert (Ha0 : assemblies evs = 0%nat).
    { destruct (assemblies evs) as [|[|n]] eqn:E; [reflexivity| |].
      - exfalso. apply Hnz; [reflexivity|exact Hz].
      - destruct (hasTCP packet); lia. }
    split.
    + unfold assembled, assemblies in *. clear -Ha0.
      induction evs as [|e evs IH]; [reflexivity|].
      simpl in *. destruct e; simpl in *; auto; discriminate.
    + rewrite Ha0 in Hf. destruct (flushes evs); [reflexivity|simpl in Hf; lia].
  - intros tcp flow g1 evs1 Ht Hd Hc Hn.
    unfold ReassemblePacket, rbind. rewrite Ht, Hd.
    unfold assembleStage, rbind. rewrite Hn, Hz.
    destruct (Checksum c); [rewrite (Hc eq_refl)|]; reflexivity.
Qed.

Lemma tcpPackets_cons packet packets :
  tcpPackets (packet :: packets)
  = if hasTCP packet then packet :: tcpPackets packets else tcpPackets packets.
Proof. reflexivity. Qed.

(** X18. The counters over a capture. When [ReassemblePacket] has
    returned for every packet of a run, [count] has gone up by the number
    of packets with a TCP layer and [dataBytes] by the bytes of these
    packets, as [int64]s, whatever became of the packets afterwards
    (dropped as fragments or handed on); the assembler was called at most
    once for each of these packets and there were no more flushes than
    calls of the assembler. *)
Theorem ReassemblePackets_counts packets : forall g g' evs,
  inS64 (count g) -> inS64 (dataBytes g) ->
  ReassemblePackets g packets = Ok (g', evs) ->
  count g' = wrapS64 (count g + Z.of_nat (List.length (tcpPackets packets))) /\
  dataBytes g' = wrapS64 (dataBytes g + dataOf (tcpPackets packets)) /\
  (assemblies evs <= List.length (tcpPackets packets))%nat /\
  (List.length (flushes evs) <= assemblies evs)%nat.
Proof.
  induction packets as [|packet packets IH]; intros g g' evs Hc Hb.
  - simpl. intros H%Ok_inj. injection H as <- <-. simpl.
    rewrite !Z.add_0_r, !wrapS64_small by assumption.
    repeat split; unfold assemblies; simpl; lia.
  - cbn [ReassemblePackets]. unfold rbind.
    destruct (ReassemblePacket g packet) as [[g1 evs1]| |] eqn:H1;
      try discriminate.
    cbn [fst snd].
    destruct (ReassemblePackets g1 packets) as [[g2 evs2]| |] eqn:H2;
      try discriminate.
    intros H%Ok_inj. injection H as <- <-.
    apply ReassemblePacket_step in H1 as (Hc1 & Hb1 & Ha1 & Hf1 & _).
    assert (Hc1' : inS64 (count g1)).
    { rewrite Hc1. destruct (hasTCP packet); [apply wrapS64_bounds|exact Hc]. }
    assert (Hb1' : inS64 (dataBytes g1)).
    { rewrite Hb1. destruct (hasTCP packet); [apply wrapS64_bounds|exact Hb]. }
    destruct (IH g1 g2 evs2 Hc1' Hb1' H2) as (Hc2 & Hb2 & Ha2 & Hf2).
    rewrite Hc2, Hb2, Hc1, Hb1, tcpPackets_cons.
    unfold assemblies, flushes in *.
    rewrite List.filter_app, omap_app, !length_app.
    destruct (hasTCP packet); simpl.
    + rewrite !wrapS64_idemp_l. repeat split; try lia; f_equal; lia.
    + repeat split; lia.
Qed.

(** X19. The older entry point [DecodeHTTP] and [ReassemblePacket].
    With the same settings the two do the same for every packet that has a
    TCP layer and is not decoded again by the defragmentation block: same
    counters, same calls of the defragmenter, of the assembler and of the
    flush, same panics. [DecodeHTTP] counts every packet it is given, with
    or without a TCP layer. The two differ on a packet without a TCP layer:
    [ReassemblePacket] leaves at once, without counting and without the
    assembler; [DecodeHTTP] looks for the TCP layer after the
    defragmentation block, so it hands the packet to the assembler exactly
    when the block decoded a datagram into it again and the packet has a
    TCP layer then. *)
Theorem DecodeHTTP_agrees g packet :
  (is_Some (tcpLayer packet) -> redecoded (NoDefrag c) g packet = None ->
   DecodeHTTP (NoDefrag c) (Checksum c) (FlushEvery c) (ClosePendingTimeOut c)
     (CloseInactiveTimeOut c) g packet
   = ReassemblePacket g packet)
  /\ (forall nodefrag checksum flushevery timeout closeTimeout g' evs,
        DecodeHTTP nodefrag checksum flushevery timeout closeTimeout g packet
        = Ok (g', evs) ->
        count g' = wrapS64 (count g + 1) /\
        dataBytes g'
        = wrapS64 (dataBytes g + Z.of_nat (List.length (pData packet))))
  /\ (tcpLayer packet = None ->
      ReassemblePacket g packet
      = Ok (g, if hasUDP packet then [EvHandleUDP] else []) /\
      forall nodefrag checksum flushevery timeout closeTimeout g' evs,
        DecodeHTTP nodefrag checksum flushevery timeout closeTimeout g packet
        = Ok (g', evs) ->
        (assembled evs = true <->
         exists newip4,
           redecoded nodefrag g packet = Some newip4 /\
           is_Some (tcpLayer (Redecode newip4 packet)))).
Proof.
  split; [|split].
  - intros [tcp Ht] Hre.
    unfold DecodeHTTP, ReassemblePacket, defragStage, assembleStage, rbind.
    unfold redecoded in Hre.
    rewrite Ht.
    destruct (NoDefrag c); simpl; rewrite ?Ht.
    + destruct (Checksum c); [destruct (SetNetworkLayerForChecksum packet)|];
        try reflexivity;
        destruct (networkFlow packet); reflexivity.
    + destruct (ip4Layer packet) as [ip4|]; [|reflexivity].
      destruct (DefragIPv4 (defragger g) ip4) as [d [e| |newip4]];
        try reflexivity.
      simpl in Hre.
      destruct (ipLength newip4 =? ipLength ip4); [|discriminate]. simpl.
      rewrite Ht.
      destruct (Checksum c);
        [destruct (SetNetworkLayerForChecksum packet)|];
        try reflexivity;
        destruct (networkFlow packet); reflexivity.
  - intros nodefrag checksum flushevery timeout closeTimeout g' evs.
    unfold DecodeHTTP, rbind.
    destruct nodefrag; simpl.
    + destruct (tcpLayer packet) as [tcp|].
      * destruct (if checksum then _ else _) as [[]| |]; try discriminate.
        destruct (networkFlow packet); try discriminate.
        destruct (flushevery =? 0); try discriminate.
        destruct (Z.rem _ flushevery =? 0);
          intros H%Ok_inj; injection H as <- <-; auto.
      * destruct (flushevery =? 0); try discriminate.
        destruct (Z.rem _ flushevery =? 0);
          intros H%Ok_inj; injection H as <- <-; auto.
    + destruct (ip4Layer packet) as [ip4|].
      2: { intros H%Ok_inj; injection H as <- <-; auto. }
      destruct (DefragIPv4 (defragger g) ip4) as [d [e| |newip4]];
        try discriminate.
      { intros H%Ok_inj; injection H as <- <-; auto. }
      destruct (ipLength newip4 =? ipLength ip4); simpl;
        [|destruct (isPacketBuilder packet); simpl; [|discriminate]];
        (match goal with
         | |- context [tcpLayer ?pk] => destruct (tcpLayer pk) as [tcp|]
         end;
         [destruct (if checksum then _ else _) as [[]| |]; try discriminate;
          match goal with
          | |- context [networkFlow ?pk] => destruct (networkFlow pk)
          end; try discriminate|];
         destruct (flushevery =? 0); try discriminate;
         destruct (Z.rem _ flushevery =? 0);
         intros H%Ok_inj; injection H as <- <-; auto).
  - intros Ht. split.
    { unfold ReassemblePacket. rewrite Ht. reflexivity. }
    intros nodefrag checksum flushevery timeout closeTimeout g' evs.
    unfold DecodeHTTP, redecoded, rbind.
    destruct nodefrag; simpl.
    + rewrite Ht.
      destruct (flushevery =? 0); try discriminate.
      destruct (Z.rem _ flushevery =? 0);
        intros H%Ok_inj; injection H as <- <-; simpl;
        (split; [discriminate|intros (n & Hn & _); discriminate]).
    + destruct (ip4Layer packet) as [ip4|].
      2: { intros H%Ok_inj; injection H as <- <-; simpl.
           split; [discriminate|intros (n & Hn & _); discriminate]. }
      destruct (DefragIPv4 (defragger g) ip4) as [d [e| |newip4]];
        try discriminate.
      { intros H%Ok_inj; injection H as <- <-; simpl.
        split; [discriminate|intros (n & Hn & _); discriminate]. }
      simpl.
      destruct (ipLength newip4 =? ipLength ip4); simpl.
      * rewrite Ht.
        destruct (flushevery =? 0); try discriminate.
        destruct (Z.rem _ flushevery =? 0);
          intros H%Ok_inj; injection H as <- <-; simpl;
          (split; [discriminate|intros (n & Hn & _); discriminate]).
      * destruct (isPacketBuilder packet); simpl; [|discriminate].
        destruct (tcpLayer (Redecode newip4 packet)) as [tcp|] eqn:Ht'.
        -- destruct (if checksum then _ else _) as [[]| |]; try discriminate.
           destruct (networkFlow (Redecode newip4 packet)); try discriminate.
           destruct (flushevery =? 0); try discriminate.
           destruct (Z.rem _ flushevery =? 0);
             intros H%Ok_inj; injection H as <- <-; simpl;
             (split; [intros _; exists newip4; split; [reflexivity|];
                      rewrite Ht'; eauto
                     |reflexivity]).
        -- destruct (flushevery =? 0); try discriminate.
           destruct (Z.rem _ flushevery =? 0);
             intros H%Ok_inj; injection H as <- <-; simpl;
             (split; [discriminate|];
              intros (n & [= <-] & [tcp Hs]); congruence).
Qed.

End Env.

(** *** Concrete runs *)

(** A connection first seen in a segment from 10.0.0.2 (port 80) to
    10.0.0.1 (port 51000) at time 100: the side seen first is taken for the
    client. Each reader holds one fragment. *)
Definition flowBA : Flow := mkFlow 1 "10.0.0.2" "10.0.0.1".
Definition flowAB : Flow := mkFlow 1 "10.0.0.1" "10.0.0.2".
Definition portsBA : Flow := mkFlow 4 "80" "51000".

Definition fragB : StreamData :=
  mkStreamData [Byte.x48; Byte.x54; Byte.x54; Byte.x50] (mkContext 100)
    TCPDirClientToServer.
Definition fragA : StreamData :=
  mkStreamData [Byte.x47; Byte.x45; Byte.x54] (mkContext 101)
    TCPDirServerToClient.

Definition readerB : StreamReader := mkReader true flowBA [] false [fragB].
Definition readerA : StreamReader := mkReader false flowAB [] false [fragA].

Definition demoConn : tcpConnection unit unit :=
  mkConn unit unit tt tt flowBA portsBA false false false false false
    "10.0.0.2->10.0.0.1 80->51000" (Some readerB) (Some readerA) 100.

Definition demoConfig : Config :=
  mkConfig 2 5000000000 86400000000000 true false false false false false.

Definition demoFactory : Factory := mkFactory true true true.

Definition zeroStats : Stats := mkStats 0 0 0 0 0 0 0 0 0 0 0 0 0 0 0.

(** Three bytes for the client-to-server direction, nothing skipped. *)
Definition demoSG : ScatterGather :=
  mkSG 3 0 TCPDirClientToServer true false 0 (mkSGStats 1 1 0 0 0 0)
    (fun _ => [Byte.x47; Byte.x45; Byte.x54]).

Lemma ReassembledSG_delivery_witness :
  readersOpen unit unit demoConn readerB readerA /\
  exists t',
    ReassembledSG unit unit demoConfig demoFactory demoConn demoSG
      (mkContext 105) zeroStats
    = Ok (t', mkStats 0 0 1 3 0 0 0 0 0 0 0 3 1 0 0) /\
    client unit unit t'
    = Some (mkReader true flowBA
              [mkStreamData [Byte.x47; Byte.x45; Byte.x54] (mkContext 105)
                 TCPDirClientToServer] false [fragB]) /\
    server unit unit t' = Some readerA.
Proof.
  assert (H : readersOpen unit unit demoConn readerB readerA)
    by (repeat split; reflexivity).
  split; [exact H|].
  exact (ReassembledSG_delivery unit unit demoConfig demoFactory demoConn
           demoSG (mkContext 105) zeroStats readerB readerA H).
Defined.

(** Segments as pairs: whether the segment is on the path of the FSM, and
    its checksum. The option checker accepts everything. Of the three
    segments offered the first and the third are off the path. *)
Definition demoCheckState (s : unit) (tcp : bool * Z) (_ : TCPFlowDirection)
  : unit * bool := (s, tcp.1).
Definition demoOptAccept (o : unit) (_ : bool * Z) (_ : unit)
  (_ : TCPFlowDirection) (_ : Z) (start : bool) : unit * bool * option string :=
  (o, start, None).
Definition demoChecksum (tcp : bool * Z) : Z * option string := (tcp.2, None).

Example AcceptAll_three_segments :
  let segs :=
    [mkSegment (bool * Z) unit (false, 0) tt TCPDirClientToServer 0 false;
     mkSegment (bool * Z) unit (true, 0) tt TCPDirServerToClient 0 false;
     mkSegment (bool * Z) unit (false, 0) tt TCPDirClientToServer 0 false] in
  let '(t', st', oks) :=
    AcceptAll (bool * Z) unit unit unit demoCheckState demoOptAccept
      demoChecksum demoConfig demoConn zeroStats segs in
  oks = [false; true; false] /\ rejectFsm st' = 2 /\ rejectConnFsm st' = 1 /\
  rejectOpt st' = 0 /\ fsmerr unit unit t' = true.
Proof. vm_compute. repeat split; reflexivity. Qed.

Definition demoReverseIdent (_ : string) : string :=
  "10.0.0.1->10.0.0.2 51000->80".

(** The connection completes on a segment of time 90 from 10.0.0.1: it is
    older than the first packet and not of the client's flow. *)
Lemma ReassemblyComplete_flip_iff_witness :
  client unit unit demoConn = Some readerB /\
  server unit unit demoConn = Some readerA /\
  let t' := ReassemblyComplete_flip unit unit demoReverseIdent demoConn
              (mkContext 90) flowAB in
  client unit unit t'
  = Some (mkReader true flowAB [] false [set_dir TCPDirClientToServer fragA]) /\
  server unit unit t'
  = Some (mkReader false flowBA [] false [set_dir TCPDirServerToClient fragB]) /\
  net unit unit t' = flowAB /\
  transport unit unit t' = mkFlow 4 "51000" "80" /\
  ident unit unit t' = "10.0.0.1->10.0.0.2 51000->80".
Proof.
  split; [reflexivity|]. split; [reflexivity|].
  destruct (ReassemblyComplete_flip_iff unit unit demoReverseIdent demoConn
              (mkContext 90) flowAB readerB readerA eq_refl eq_refl)
    as [(H1 & H2 & H3 & H4 & H5 & _) _].
  simpl. repeat split; assumption.
Defined.

(** With the timestamp equal to the first-packet time nothing is flipped. *)
Example ReassemblyComplete_same_time :
  ReassemblyComplete_flip unit unit demoReverseIdent demoConn (mkContext 100)
    flowAB = demoConn.
Proof. reflexivity. Qed.

(** Packets as byte strings for payload; a defragmenter that hands every
    packet back as it is. *)
Definition demoDefrag (d : unit) (ip : IPv4) : unit * DefragResult :=
  (d, DefragDone ip).
Definition demoSetNetworkLayer (_ : Packet (list Byte.byte)) : option string :=
  None.
Definition demoReassemblePacket (cfg : Config) :=
  ReassemblePacket (list Byte.byte) cfg (fun tcp => tcp) unit demoDefrag
    demoSetNetworkLayer.

(** A TCP segment over IPv4 captured at time 7000000000. *)
Definition tcp4Packet : Packet (list Byte.byte) :=
  mkPacket (list Byte.byte) (Some [Byte.x47]) false (Some (mkIPv4 41))
    [Byte.x45; Byte.x00] 7000000000 (Some flowAB) true.

(** A TCP segment over IPv6: no IPv4 layer. *)
Definition tcp6Packet : Packet (list Byte.byte) :=
  mkPacket (list Byte.byte) (Some [Byte.x47]) false None
    [Byte.x60; Byte.x00] 7000000000 (Some (mkFlow 2 "fe80::1" "fe80::2")) true.

Lemma ReassemblePacket_flush_witness :
  demoReassemblePacket demoConfig (mkGlobals unit 1 0 zeroStats tt) tcp4Packet
  = Ok (mkGlobals unit 2 2 (add_totalsz 1 zeroStats) tt,
        [EvAssemble flowAB 7000000000;
         EvFlush 2000000000 (-86393000000000)]) /\
  flushes [EvAssemble flowAB 7000000000; EvFlush 2000000000 (-86393000000000)]
  = [(7000000000 - 5000000000, 7000000000 - 86400000000000)].
Proof.
  assert (H : demoReassemblePacket demoConfig
                (mkGlobals unit 1 0 zeroStats tt) tcp4Packet
              = Ok (mkGlobals unit 2 2 (add_totalsz 1 zeroStats) tt,
                    [EvAssemble flowAB 7000000000;
                     EvFlush 2000000000 (-86393000000000)]))
    by (vm_compute; reflexivity).
  split; [exact H|].
  exact (proj1 (ReassemblePacket_flush (list Byte.byte) demoConfig
                  (fun tcp => tcp) unit demoDefrag demoSetNetworkLayer
                  _ _ _ _ H)).
Defined.

(** C5, the claim as written fails for a packet that leaves the function
    before the assembler: with [FlushEvery] 1 and defragmentation on, a TCP
    segment over IPv6 is counted (the count, 1, is a multiple of 1) and no
    flush follows. *)
Lemma ReassemblePacket_counted_without_flush :
  exists g' evs,
    demoReassemblePacket
      (mkConfig 1 5000000000 86400000000000 true false false false false false)
      (mkGlobals unit 0 0 zeroStats tt) tcp6Packet
    = Ok (g', evs) /\
    count unit g' = 1 /\ Z.rem (count unit g') 1 = 0 /\ flushes evs = [].
Proof.
  exists (mkGlobals unit 1 2 zeroStats tt), [].
  split; [vm_compute; reflexivity|]. repeat split.
Qed.

(** *** More concrete runs *)

(** A segment off the path of the FSM, offered to the connection. *)
Lemma Accept_fsm_rejection_stops_witness :
  fsmRejects (bool * Z) unit unit demoCheckState demoConn (false, 0)
    TCPDirClientToServer = true /\
  IgnoreFSMerr demoConfig = false /\
  let r := Accept (bool * Z) unit unit unit demoCheckState demoOptAccept
             demoChecksum demoConfig demoConn (false, 0) tt
             TCPDirClientToServer 0 false zeroStats in
  accepted _ _ r = false /\ startOut _ _ r = false /\
  fsmerr _ _ (connOut _ _ r) = true /\ rejectOpt (statsOut _ _ r) = 0.
Proof.
  split; [reflexivity|]. split; [reflexivity|].
  destruct (Accept_fsm_rejection_stops (bool * Z) unit unit unit
              demoCheckState demoOptAccept demoChecksum demoConfig demoConn
              (false, 0) tt TCPDirClientToServer 0 false zeroStats
              eq_refl eq_refl) as (Ha & Hs & _ & Ho & _ & He).
  cbv zeta. split; [exact Ha|]. split; [exact Hs|]. split; [exact He|exact Ho].
Defined.

(** The same segment under a configuration that ignores every check. *)
Definition permissiveConfig : Config :=
  mkConfig 2 5000000000 86400000000000 true true true false false false.

Lemma Accept_permissive_witness :
  IgnoreFSMerr permissiveConfig = true /\
  NoOptCheck permissiveConfig = true /\
  Checksum permissiveConfig = false /\
  let r := Accept (bool * Z) unit unit unit demoCheckState demoOptAccept
             demoChecksum permissiveConfig demoConn (false, 7) tt
             TCPDirClientToServer 0 false zeroStats in
  accepted _ _ r = true /\ rejectFsm (statsOut _ _ r) = 1.
Proof.
  split; [reflexivity|]. split; [reflexivity|]. split; [reflexivity|].
  destruct (Accept_permissive (bool * Z) unit unit unit demoCheckState
              demoOptAccept demoChecksum permissiveConfig demoConn (false, 7)
              tt TCPDirClientToServer 0 false zeroStats
              eq_refl eq_refl eq_refl) as (Ha & _ & Hf & _).
  cbv zeta. split; [exact Ha|exact Hf].
Defined.

(** A chunk with two bytes missing in front of it, for a connection that
    has no readers: nothing is delivered and nothing panics. *)
Example ReassembledSG_gap_without_readers :
  let t := mkConn unit unit tt tt flowBA portsBA false false false false false
             "10.0.0.2->10.0.0.1 80->51000" None None 100 in
  ReassembledSG unit unit demoConfig demoFactory t
    (mkSG 3 0 TCPDirClientToServer false false 2 (mkSGStats 1 1 0 0 0 0)
       (fun _ => [Byte.x47; Byte.x45; Byte.x54]))
    (mkContext 105) zeroStats
  = Ok (t, mkStats 0 2 1 3 0 0 0 0 0 0 0 3 1 0 0).
Proof. reflexivity. Qed.

(** A configuration without defragmentation and with [FlushEvery] zero. *)
Definition zeroFlushConfig : Config :=
  mkConfig 0 5000000000 86400000000000 true false false false true false.

Lemma ReassemblePacket_FlushEvery_zero_witness :
  FlushEvery zeroFlushConfig = 0 /\
  demoReassemblePacket zeroFlushConfig (mkGlobals unit 0 0 zeroStats tt)
    tcp4Packet
  = Panic "integer divide by zero".
Proof.
  split; [reflexivity|].
  destruct (ReassemblePacket_FlushEvery_zero (list Byte.byte) zeroFlushConfig
              (fun tcp => tcp) unit demoDefrag demoSetNetworkLayer
              (mkGlobals unit 0 0 zeroStats tt) tcp4Packet eq_refl)
    as [_ Hp].
  exact (Hp [Byte.x47] flowAB _ [] eq_refl eq_refl
           (fun H : false = true => False_ind _ (diff_false_true H)) eq_refl).
Defined.

(** A UDP datagram. *)
Definition udpPacket : Packet (list Byte.byte) :=
  mkPacket (list Byte.byte) None true (Some (mkIPv4 36))
    [Byte.x45; Byte.x00; Byte.x00] 7000000001 (Some flowAB) true.

Definition demoReassemblePackets (cfg : Config) :=
  ReassemblePackets (list Byte.byte) cfg (fun tcp => tcp) unit demoDefrag
    demoSetNetworkLayer.

(** Three packets: TCP over IPv4, TCP over IPv6 (dropped by the
    defragmentation block) and UDP. Two are counted, one reaches the
    assembler, and the count of 2 is not followed by a flush. *)
Lemma ReassemblePackets_counts_witness :
  inS64 0 /\
  demoReassemblePackets demoConfig (mkGlobals unit 0 0 zeroStats tt)
    [tcp4Packet; tcp6Packet; udpPacket]
  = Ok (mkGlobals unit 2 4 (add_totalsz 1 zeroStats) tt,
        [EvAssemble flowAB 7000000000; EvHandleUDP]) /\
  2 = wrapS64 (0 + Z.of_nat
                     (List.length
                        (tcpPackets (list Byte.byte)
                           [tcp4Packet; tcp6Packet; udpPacket]))).
Proof.
  assert (H0 : inS64 0) by (unfold inS64, min_int64, max_int64; lia).
  assert (H : demoReassemblePackets demoConfig
                (mkGlobals unit 0 0 zeroStats tt)
                [tcp4Packet; tcp6Packet; udpPacket]
              = Ok (mkGlobals unit 2 4 (add_totalsz 1 zeroStats) tt,
                    [EvAssemble flowAB 7000000000; EvHandleUDP]))
    by (vm_compute; reflexivity).
  split; [exact H0|]. split; [exact H|].
  exact (proj1 (ReassemblePackets_counts (list Byte.byte) demoConfig
                  (fun tcp => tcp) unit demoDefrag demoSetNetworkLayer
                  [tcp4Packet; tcp6Packet; udpPacket]
                  (mkGlobals unit 0 0 zeroStats tt) _ _ H0 H0 H)).
Defined.

(** The next decoder of the runs here: it finds a TCP segment of two
    bytes in the datagram and adds it to the packet. *)
Definition demoRedecode (newip4 : IPv4) (packet : Packet (list Byte.byte))
  : Packet (list Byte.byte) :=
  mkPacket (list Byte.byte) (Some [Byte.x47; Byte.x45]) (hasUDP _ packet)
    (ip4Layer _ packet) (pData _ packet) (pTimestamp _ packet)
    (networkFlow _ packet) (isPacketBuilder _ packet).

(** The older entry point on the UDP datagram: it is counted, and with
    [flushevery] 1 it is followed by a flush; [ReassemblePacket] hands it
    to the UDP handler and counts nothing. *)
Example DecodeHTTP_counts_udp :
  DecodeHTTP (list Byte.byte) (fun tcp => tcp) unit demoDefrag
    demoSetNetworkLayer demoRedecode true false 1 5000000000 86400000000000
    (mkGlobals unit 0 0 zeroStats tt) udpPacket
  = Ok (mkGlobals unit 1 3 zeroStats tt,
        [EvFlush 2000000001 (-86392999999999)]) /\
  demoReassemblePacket zeroFlushConfig (mkGlobals unit 0 0 zeroStats tt)
    udpPacket
  = Ok (mkGlobals unit 0 0 zeroStats tt, [EvHandleUDP]).
Proof. split; vm_compute; reflexivity. Qed.

(** The last fragment of a TCP segment: it has no TCP layer when it
    arrives, and the defragmenter hands back the whole datagram of 60
    bytes for it. *)
Definition lastFragment : Packet (list Byte.byte) :=
  mkPacket (list Byte.byte) None false (Some (mkIPv4 36))
    [Byte.x45; Byte.x00; Byte.x00] 7000000002 (Some flowAB) true.
Definition joinDefrag (d : unit) (ip : IPv4) : unit * DefragResult :=
  (d, DefragDone (mkIPv4 60)).

(** The older entry point hands the segment found in the datagram to the
    assembler and counts its two bytes; [ReassemblePacket], with the same
    settings, leaves before it counts anything. *)
Example DecodeHTTP_assembles_last_fragment :
  DecodeHTTP (list Byte.byte) (fun tcp => tcp) unit joinDefrag
    demoSetNetworkLayer demoRedecode false false 2 5000000000 86400000000000
    (mkGlobals unit 0 0 zeroStats tt) lastFragment
  = Ok (mkGlobals unit 1 3 (add_totalsz 2 (inc_ipdefrag zeroStats)) tt,
        [EvDecode (mkIPv4 60); EvAssemble flowAB 7000000002]) /\
  ReassemblePacket (list Byte.byte) demoConfig (fun tcp => tcp) unit
    joinDefrag demoSetNetworkLayer (mkGlobals unit 0 0 zeroStats tt)
    lastFragment
  = Ok (mkGlobals unit 0 0 zeroStats tt, []).
Proof. split; vm_compute; reflexivity. Qed.

(** Three chunks of 3, 10 and 4 bytes, the second after a gap of 5. *)
Example updateStats_three_chunks :
  let chunk length skip :=
    mkSG length 0 TCPDirClientToServer false false skip
      (mkSGStats 1 1 0 0 0 0) (fun _ => []) in
  updateStatsAll [chunk 3 0; chunk 10 5; chunk 4 (-1)] zeroStats
  = mkStats 0 5 3 17 0 0 0 0 0 0 0 10 1 0 0.
Proof. reflexivity. Qed.

(** Three chunks on the connection: a request of three bytes, a chunk
    behind a gap of two bytes, and a reply of four bytes. The request goes
    to the client reader, the reply to the server reader, the chunk behind
    the gap to neither. *)
Definition replySG : ScatterGather :=
  mkSG 4 0 TCPDirServerToClient false false 0 (mkSGStats 1 1 0 0 0 0)
    (fun _ => [Byte.x48; Byte.x54; Byte.x54; Byte.x50]).
Definition gapSG : ScatterGather :=
  mkSG 5 0 TCPDirClientToServer false false 2 (mkSGStats 1 1 0 0 0 0)
    (fun _ => [Byte.x00; Byte.x00; Byte.x00; Byte.x00; Byte.x00]).

Lemma ReassembledSGs_in_order_witness :
  readersOpen unit unit demoConn readerB readerA /\
  exists t',
    ReassembledSGs unit unit demoConfig demoFactory demoConn
      [(demoSG, mkContext 105); (gapSG, mkContext 106);
       (replySG, mkContext 107)] zeroStats
    = Ok (t', mkStats 0 2 3 12 0 0 0 0 0 0 0 5 1 0 0) /\
    client unit unit t'
    = Some (mkReader true flowBA
              [mkStreamData [Byte.x47; Byte.x45; Byte.x54] (mkContext 105)
                 TCPDirClientToServer] false [fragB]) /\
    server unit unit t'
    = Some (mkReader false flowAB
              [mkStreamData [Byte.x48; Byte.x54; Byte.x54; Byte.x50]
                 (mkContext 107) TCPDirServerToClient] false [fragA]).
Proof.
  assert (H : readersOpen unit unit demoConn readerB readerA)
    by (repeat split; reflexivity).
  split; [exact H|].
  exact (ReassembledSGs_in_order unit unit demoConfig demoFactory
           [(demoSG, mkContext 105); (gapSG, mkContext 106);
            (replySG, mkContext 107)] demoConn zeroStats readerB readerA H).
Defined.

(** The fragments in the order of their timestamps, no colours shown. *)
Definition byTime (l : list StreamData) : list StreamData :=
  @merge_sort StreamData
    (fun d1 d2 => Timestamp (ac d1) <= Timestamp (ac d2))
    (fun d1 d2 => Z_le_dec (Timestamp (ac d1)) (Timestamp (ac d2))) l.

Definition demoConversationRaw :=
  ConversationRaw unit unit byTime false [] [] [] (fun _ => []).

Lemma ConversationRaw_once_witness :
  (forall l, byTime l ≡ₚ l) /\
  client unit unit demoConn = Some readerB /\
  server unit unit demoConn = Some readerA /\
  exists out b',
    demoConversationRaw demoConn (mkConversation [] [] []) = Ok (out, b') /\
    out = [Byte.x48; Byte.x54; Byte.x54; Byte.x50; Byte.x47; Byte.x45; Byte.x54] /\
    demoConversationRaw demoConn b' = Ok (out, b').
Proof.
  assert (Hsort : forall l, byTime l ≡ₚ l)
    by (intros l; apply merge_sort_Permutation).
  split; [exact Hsort|]. split; [reflexivity|]. split; [reflexivity|].
  destruct (ConversationRaw_once unit unit byTime false [] [] []
              (fun _ => []) demoConn (mkConversation [] [] []) readerB readerA
              Hsort eq_refl eq_refl eq_refl)
    as (out & b' & Hr & Hout & _ & _ & _ & Hagain).
  exists out, b'. split; [exact Hr|].
  assert (Hval : out = [Byte.x48; Byte.x54; Byte.x54; Byte.x50;
                        Byte.x47; Byte.x45; Byte.x54])
    by (rewrite Hout; vm_compute; reflexivity).
  split; [exact Hval|]. apply Hagain. rewrite Hval. discriminate.
Defined.

End Reassembly.

(** * The HTTP encoder: what is flushed at the end of the capture *)

Module HTTP.

(** [http.Header] and [Header.Get]: the key is brought into its canonical
    form (first letter and every letter after a hyphen in upper case, the
    others in lower case) and the first value stored under it is handed
    back, or the empty string. *)
Definition Header : Type := gmap string (list string).

Definition upperAscii (a : ascii) : ascii :=
  let n := Ascii.nat_of_ascii a in
  if ((97 <=? n) && (n <=? 122))%nat then Ascii.ascii_of_nat (n - 32) else a.

Definition lowerAscii (a : ascii) : ascii :=
  let n := Ascii.nat_of_ascii a in
  if ((65 <=? n) && (n <=? 90))%nat then Ascii.ascii_of_nat (n + 32) else a.

Fixpoint canonical (upper : bool) (s : string) : string :=
  match s with
  | EmptyString => EmptyString
  | String a s' =>
      String (if upper then upperAscii a else lowerAscii a)
        (canonical (Ascii.eqb a "-"%char) s')
  end.

Definition CanonicalMIMEHeaderKey (s : string) : string := canonical true s.

Definition Header_Get (h : Header) (key : string) : string :=
  match h !! CanonicalMIMEHeaderKey key with
  | Some (v :: _) => v
  | _ => ""
  end.

(** [strings.Replace(s, ",", "(comma)", -1)]. *)
Fixpoint replaceCommas (s : string) : string :=
  match s with
  | EmptyString => EmptyString
  | String a s' =>
      if Ascii.eqb a ","%char
      then String.append "(comma)" (replaceCommas s')
      else String a (replaceCommas s')
  end.

(** [http.Request] and [http.Response], with the fields the encoder reads;
    [rURL] is [req.URL.String()]. *)
Record Request : Type := mkRequest {
  rMethod : string;
  rProto : string;
  rHost : string;
  rHeader : Header;
  rContentLength : Z;
  rURL : string }.

Definition UserAgent (r : Request) : string := Header_Get (rHeader r) "User-Agent".
Definition Referer (r : Request) : string := Header_Get (rHeader r) "Referer".

Record Response : Type := mkResponse {
  ContentLength : Z;
  resHeader : Header;
  StatusCode : Z;
  Request_ : option Request }.

(** [types.HTTP], with the fields the encoder sets. *)
Record HTTPRecord : Type := mkHTTP {
  Timestamp : string;
  Proto : string;
  Method : string;
  Host : string;
  UserAgent_ : string;
  Referer_ : string;
  ReqContentLength : Z;
  URL : string;
  ResContentLength : Z;
  ContentType : string;
  StatusCode_ : Z;
  SrcIP : string;
  DstIP : string }.

(** [&types.HTTP{}]. *)
Definition emptyHTTP : HTTPRecord := mkHTTP "" "" "" "" "" "" 0 "" 0 "" 0 "" "".

(** The record the response loop starts from. *)
Definition responseHTTP (res : Response) : HTTPRecord :=
  mkHTTP "" "" "" "" "" "" 0 ""
    (wrapS32 (ContentLength res))
    (Header_Get (resHeader res) "Content-Type")
    (wrapS32 (StatusCode res)) "" "".

(** [setRequest]: set HTTP request on types.HTTP. *)
Definition setRequest (h : HTTPRecord) (req : Request) : HTTPRecord :=
  mkHTTP
    (Header_Get (rHeader req) "netcap-ts")
    (rProto req)
    (rMethod req)
    (rHost req)
    (replaceCommas (UserAgent req))
    (replaceCommas (Referer req))
    (wrapS32 (rContentLength req))
    (replaceCommas (rURL req))
    (ResContentLength h) (ContentType h) (StatusCode_ h)
    (Header_Get (rHeader req) "netcap-clientip")
    (Header_Get (rHeader req) "netcap-serverip").

(** A stream: its network and its transport flow. *)
Definition Stream : Type := Reassembly.Flow * Reassembly.Flow.

(** [Stream.Reverse]. *)
Definition Stream_Reverse (s : Stream) : Stream :=
  (Reassembly.Flow_Reverse s.1, Reassembly.Flow_Reverse s.2).

(** The two writers of the encoder. *)
Inductive Sink : Type := CSVWriter | ProtoWriter.

(** The custom encoder [d]: the CSV flag, the record counter, the records
    handed to its writers so far, and the errors counted by [errorMap.Inc]. *)
Record Encoder : Type := mkEncoder {
  csv : bool;
  numRecords : Z;
  written : list (Sink * HTTPRecord);
  errors : list string }.

Section Flush.

(** The error, if any, that a writer hands back for a record. *)
Variable WriteRecord : HTTPRecord -> option string.
Variable PutProto : HTTPRecord -> option string.

Definition countError (err : option string) (errs : list string) : list string :=
  match err with
  | Some e => (errs ++ [e])%list
  | None => errs
  end.

(** [atomic.AddInt64(&d.numRecords, 1)] and the write of a record that
    carries a response. *)
Definition writeResponseRecord (h : HTTPRecord) (d : Encoder) : Encoder :=
  let n := wrapS64 (numRecords d + 1) in
  if csv d
  then mkEncoder (csv d) n (written d ++ [(CSVWriter, h)])%list
         (countError (WriteRecord h) (errors d))
  else mkEncoder (csv d) n (written d ++ [(ProtoWriter, h)])%list
         (countError (PutProto h) (errors d)).

(** The same for a record that carries a request only: it goes to
    [d.aWriter], whatever the CSV flag. *)
Definition writeRequestRecord (h : HTTPRecord) (d : Encoder) : Encoder :=
  mkEncoder (csv d) (wrapS64 (numRecords d + 1))
    (written d ++ [(ProtoWriter, h)])%list
    (countError (PutProto h) (errors d)).

(** The loop over the responses of one stream: the encoder, the counter
    [total] and [newRes] after it. *)
Fixpoint rangeResponses (resArr : list Response) (d : Encoder) (total : Z)
  (newRes : list Response) : Encoder * Z * list Response :=
  match resArr with
  | [] => (d, total, newRes)
  | res :: resArr =>
      (* populate types.HTTP with all infos from request *)
      let h := responseHTTP res in
      match Request_ res with
      | Some req =>
          let h := setRequest h req in
          let d := writeResponseRecord h d in
          rangeResponses resArr d (wrapS64 (total + 1)) newRes
      | None => rangeResponses resArr d total (newRes ++ [res])%list
      end
  end.

(** [for s, resArr := range httpResMap]: the map is given by its entries in
    the order in which the range statement visits them; the entry of [s] is
    set to [newRes]. *)
Fixpoint rangeResMap (httpResMap : list (Stream * list Response))
  (d : Encoder) (total : Z)
  : Encoder * Z * list (Stream * list Response) :=
  match httpResMap with
  | [] => (d, total, [])
  | (s, resArr) :: rest =>
      let '(d, total, newRes) := rangeResponses resArr d total [] in
      (* newRes are all responses for which there is no request *)
      let '(d, total, rest) := rangeResMap rest d total in
      (d, total, (s, newRes) :: rest)
  end.

(** The loop over the requests of one stream; a request may be nil. *)
Fixpoint rangeRequests (reqArr : list (option Request)) (d : Encoder)
  (total : Z) : Encoder * Z :=
  match reqArr with
  | [] => (d, total)
  | req :: reqArr =>
      let total := wrapS64 (total + 1) in
      match req with
      | Some req =>
          let h := setRequest emptyHTTP req in
          rangeRequests reqArr (writeRequestRecord h d) total
      | None => rangeRequests reqArr d total
      end
  end.

(** [for _, reqArr := range httpReqMap]: process all leftover requests. *)
Fixpoint rangeReqMap (httpReqMap : list (Stream * list (option Request)))
  (d : Encoder) (total : Z) : Encoder * Z :=
  match httpReqMap with
  | [] => (d, total)
  | (_, reqArr) :: rest =>
      let '(d, total) := rangeRequests reqArr d total in
      rangeReqMap rest d total
  end.

(** The part of the encoder's last function between the taking and the
    release of the two locks: the encoder, [httpResMap] and [total]
    afterwards. The loop over the leftover responses is commented out in
    the source and so is not here. *)
Definition flushHTTP (d : Encoder)
  (httpResMap : list (Stream * list Response))
  (httpReqMap : list (Stream * list (option Request)))
  : Encoder * list (Stream * list Response) * Z :=
  let total := 0 in
  let sum := wrapS64 (Z.of_nat (List.length httpResMap + List.length httpReqMap)) in
  if sum =? 0 then (d, httpResMap, total)
  else
    let '(d, total, httpResMap) := rangeResMap httpResMap d total in
    let '(d, total) := rangeReqMap httpReqMap d total in
    (d, httpResMap, total).

(** *** What the flush writes *)

(** The record of a response with its request, and of a request alone. *)
Definition combinedRecord (res : Response) (req : Request) : HTTPRecord :=
  setRequest (responseHTTP res) req.
Definition requestRecord (req : Request) : HTTPRecord :=
  setRequest emptyHTTP req.

(** The combined records of the matched responses of a stream, the
    responses without a request, and the records of the requests that are
    there. *)
Definition matchedOf (resArr : list Response) : list HTTPRecord :=
  omap (fun res => option_map (combinedRecord res) (Request_ res)) resArr.
Definition unmatchedOf (resArr : list Response) : list Response :=
  List.filter (fun res => if Request_ res is Some _ then false else true) resArr.
Definition requestsOf (reqArr : list (option Request)) : list HTTPRecord :=
  omap (option_map requestRecord) reqArr.

(** The writer that takes the records with a response. *)
Definition responseSink (d : Encoder) : Sink :=
  if csv d then CSVWriter else ProtoWriter.

(** A counter after [n] increments. *)
Definition counted (n : nat) (z : Z) : Z :=
  Nat.iter n (fun z => wrapS64 (z + 1)) z.

(** *** Values of the further statements *)

(** Whether a string holds a comma. *)
Fixpoint hasComma (s : string) : bool :=
  match s with
  | EmptyString => false
  | String a s' => Ascii.eqb a ","%char || hasComma s'
  end.

(** A value that an [int32] can hold. *)
Definition inS32 (x : Z) : Prop := - 2 ^ 31 <= x < 2 ^ 31.

(** The error of the writer that a record was handed to. *)
Definition errorOf (e : Sink * HTTPRecord) : option string :=
  match e.1 with
  | CSVWriter => WriteRecord e.2
  | ProtoWriter => PutProto e.2
  end.

(** One encoder after another: the second has been handed the records
    [l] on top of the first, and has counted their errors. *)
Definition extends (d d' : Encoder) (l : list (Sink * HTTPRecord)) : Prop :=
  written d' = (written d ++ l)%list /\
  errors d' = (errors d ++ omap errorOf l)%list.

(** The entries of the request map, nil or not. *)
Definition entriesOf (httpReqMap : list (Stream * list (option Request)))
  : list (option Request) :=
  flat_map (fun e => e.2) httpReqMap.

Lemma counted_S n z : counted n (wrapS64 (z + 1)) = counted (S n) z.
Proof.
  unfold counted.
  exact (eq_sym (Nat.iter_succ_r n (fun z => wrapS64 (z + 1)) z)).
Qed.

Lemma counted_add n m z : counted m (counted n z) = counted (n + m) z.
Proof. unfold counted. rewrite Nat.add_comm, Nat.iter_add. reflexivity. Qed.

Lemma rangeResponses_spec resArr : forall d total newRes,
  let r := rangeResponses resArr d total newRes in
  written r.1.1
    = (written d ++ map (pair (responseSink d)) (matchedOf resArr))%list /\
  r.2 = (newRes ++ unmatchedOf resArr)%list /\
  csv r.1.1 = csv d /\
  numRecords r.1.1 = counted (List.length (matchedOf resArr)) (numRecords d).
Proof.
  induction resArr as [|res resArr IH]; intros d total newRes; simpl.
  - rewrite !app_nil_r. auto.
  - unfold matchedOf, unmatchedOf in *. simpl.
    destruct (Request_ res) as [req|]; simpl.
    + specialize (IH (writeResponseRecord (setRequest (responseHTTP res) req) d)
                    (wrapS64 (total + 1)) newRes).
      simpl in IH. destruct IH as (Hw & Hn & Hc & Hr).
      rewrite Hw, Hn, Hc, Hr. unfold writeResponseRecord, responseSink.
      destruct (csv d); simpl; rewrite <- app_assoc, counted_S; auto.
    + specialize (IH d total (newRes ++ [res])%list).
      simpl in IH. destruct IH as (Hw & Hn & Hc & Hr).
      rewrite Hw, Hn, Hc, Hr, <- app_assoc. auto.
Qed.

Lemma rangeResMap_spec httpResMap : forall d total,
  let r := rangeResMap httpResMap d total in
  written r.1.1
    = (written d ++
       map (pair (responseSink d))
         (flat_map (fun e => matchedOf e.2) httpResMap))%list /\
  r.2 = map (fun e => (e.1, unmatchedOf e.2)) httpResMap /\
  csv r.1.1 = csv d /\
  numRecords r.1.1
    = counted (List.length (flat_map (fun e => matchedOf e.2) httpResMap))
        (numRecords d).
Proof.
  induction httpResMap as [|[s resArr] rest IH]; intros d total; simpl.
  - rewrite app_nil_r. auto.
  - pose proof (rangeResponses_spec resArr d total []) as H1. simpl in H1.
    destruct (rangeResponses resArr d total []) as [[d1 total1] newRes].
    simpl in H1. destruct H1 as (Hw1 & Hn1 & Hc1 & Hr1).
    specialize (IH d1 total1). simpl in IH.
    destruct (rangeResMap rest d1 total1) as [[d2 total2] rest'].
    simpl in *. destruct IH as (Hw2 & Hn2 & Hc2 & Hr2).
    rewrite Hw2, Hn2, Hc2, Hr2, Hw1, Hn1, Hr1.
    unfold responseSink. rewrite Hc1.
    rewrite map_app, length_app, <- app_assoc, counted_add. auto.
Qed.

Lemma rangeRequests_spec reqArr : forall d total,
  let r := rangeRequests reqArr d total in
  written r.1
    = (written d ++ map (pair ProtoWriter) (requestsOf reqArr))%list /\
  csv r.1 = csv d /\
  numRecords r.1 = counted (List.length (requestsOf reqArr)) (numRecords d).
Proof.
  induction reqArr as [|req reqArr IH]; intros d total; simpl.
  - rewrite app_nil_r. auto.
  - unfold requestsOf in *. destruct req as [req|]; simpl.
    + specialize (IH (writeRequestRecord (setRequest emptyHTTP req) d)
                    (wrapS64 (total + 1))).
      simpl in IH. destruct IH as (Hw & Hc & Hr).
      rewrite Hw, Hc, Hr. simpl. rewrite <- app_assoc, counted_S. auto.
    + apply IH.
Qed.

Lemma rangeReqMap_spec httpReqMap : forall d total,
  let r := rangeReqMap httpReqMap d total in
  written r.1
    = (written d ++
       map (pair ProtoWriter)
         (flat_map (fun e => requestsOf e.2) httpReqMap))%list /\
  csv r.1 = csv d /\
  numRecords r.1
    = counted (List.length (flat_map (fun e => requestsOf e.2) httpReqMap))
        (numRecords d).
Proof.
  induction httpReqMap as [|[s reqArr] rest IH]; intros d total; simpl.
  - rewrite app_nil_r. auto.
  - pose proof (rangeRequests_spec reqArr d total) as H1. simpl in H1.
    destruct (rangeRequests reqArr d total) as [d1 total1].
    simpl in H1. destruct H1 as (Hw1 & Hc1 & Hr1).
    specialize (IH d1 total1). simpl in IH. destruct IH as (Hw2 & Hc2 & Hr2).
    rewrite Hw2, Hc2, Hr2, Hw1, Hr1.
    rewrite map_app, length_app, <- app_assoc, counted_add. auto.
Qed.

(** The number of entries of both maps is zero as an [int64] only when
    both maps are empty. *)
Lemma sum_zero (a b : nat) :
  Z.of_nat a <= max_int64 -> Z.of_nat b <= max_int64 ->
  (wrapS64 (Z.of_nat (a + b)) =? 0) = true -> a = 0%nat /\ b = 0%nat.
Proof.
  unfold max_int64, wrapS64. intros Ha Hb H. apply Z.eqb_eq in H.
  assert (Hm : (Z.of_nat (a + b) + 2 ^ 63) mod 2 ^ 64 = 2 ^ 63) by lia.
  destruct (Z.eq_dec (Z.of_nat (a + b)) 0) as [H0|H0]; [lia|].
  exfalso.
  assert (H1 : 2 ^ 63 <= Z.of_nat (a + b) + 2 ^ 63 < 2 ^ 63 + 2 ^ 64) by lia.
  destruct (Z_lt_ge_dec (Z.of_nat (a + b) + 2 ^ 63) (2 ^ 64)) as [Hlt|Hge].
  - rewrite Z.mod_small in Hm by lia. lia.
  - replace (Z.of_nat (a + b) + 2 ^ 63)
      with ((Z.of_nat (a + b) + 2 ^ 63 - 2 ^ 64) + 1 * 2 ^ 64) in Hm by lia.
    rewrite Z.mod_add in Hm by lia. rewrite Z.mod_small in Hm by lia. lia.
Qed.

(** C1 (as the code has it). At the end of the capture, for maps whose
    sizes fit an [int]: every response that carries its request is written
    as one record that combines both, in the order of the response map;
    every request of the request map that is not nil is written as a
    request-only record; nothing else is written, so a response without a
    request is not written: it stays in the response map under its stream.
    The record counter goes up by one for each record written. *)
Theorem flushHTTP_writes d httpResMap httpReqMap :
  Z.of_nat (List.length httpResMap) <= max_int64 ->
  Z.of_nat (List.length httpReqMap) <= max_int64 ->
  let r := flushHTTP d httpResMap httpReqMap in
  written r.1.1
    = (written d
       ++ map (pair (responseSink d))
            (flat_map (fun e => matchedOf e.2) httpResMap)
       ++ map (pair ProtoWriter)
            (flat_map (fun e => requestsOf e.2) httpReqMap))%list /\
  r.1.2 = map (fun e => (e.1, unmatchedOf e.2)) httpResMap /\
  numRecords r.1.1
    = counted (List.length (flat_map (fun e => matchedOf e.2) httpResMap)
               + List.length (flat_map (fun e => requestsOf e.2) httpReqMap))
        (numRecords d).
Proof.
  intros Hres Hreq. unfold flushHTTP.
  destruct (_ =? 0) eqn:Hsum.
  - apply sum_zero in Hsum as [H1 H2]; try assumption.
    destruct httpResMap; [|discriminate]. destruct httpReqMap; [|discriminate].
    simpl. rewrite app_nil_r. auto.
  - pose proof (rangeResMap_spec httpResMap d 0) as H1. simpl in H1.
    destruct (rangeResMap httpResMap d 0) as [[d1 total1] resMap1].
    simpl in H1. destruct H1 as (Hw1 & Hm1 & Hc1 & Hr1).
    pose proof (rangeReqMap_spec httpReqMap d1 total1) as H2. simpl in H2.
    destruct (rangeReqMap httpReqMap d1 total1) as [d2 total2].
    simpl in *. destruct H2 as (Hw2 & Hc2 & Hr2).
    rewrite Hw2, Hw1, Hr2, Hr1, <- app_assoc, counted_add. auto.
Qed.

(** X26. Reversing a stream twice gives the stream back. [Reverse]
    swaps source and destination of both flows of a stream; done twice it
    hands back the stream it started from, and a stream is its own reverse
    only when source and destination are the same in both of its flows. *)
Theorem Stream_Reverse_involutive (s : Stream) :
  Stream_Reverse (Stream_Reverse s) = s /\
  (Stream_Reverse s = s <->
   Reassembly.fsrc s.1 = Reassembly.fdst s.1 /\
   Reassembly.fsrc s.2 = Reassembly.fdst s.2).
Proof.
  destruct s as [[ta sa da] [tb sb db]].
  unfold Stream_Reverse, Reassembly.Flow_Reverse. simpl.
  split; [reflexivity|]. split.
  - intros H. injection H as H1 H2 H3 H4. auto.
  - intros [-> ->]. reflexivity.
Qed.

(** *** Commas and content lengths in the records *)

Lemma hasComma_append a b :
  hasComma (String.append a b) = hasComma a || hasComma b.
Proof.
  induction a as [|x a IH]; simpl; [reflexivity|].
  rewrite IH, orb_assoc. reflexivity.
Qed.

Lemma replaceCommas_clean s : hasComma (replaceCommas s) = false.
Proof.
  induction s as [|a s IH]; simpl; [reflexivity|].
  destruct (Ascii.eqb a ",") eqn:Ha.
  - rewrite hasComma_append, IH. reflexivity.
  - simpl. rewrite Ha, IH. reflexivity.
Qed.

Lemma replaceCommas_id s : hasComma s = false -> replaceCommas s = s.
Proof.
  induction s as [|a s IH]; simpl; [reflexivity|].
  destruct (Ascii.eqb a ","); simpl; [discriminate|].
  intros H. rewrite (IH H). reflexivity.
Qed.

(** X20. No comma gets into the fields [setRequest] cleans. Whatever
    the request, the user agent, the referer and the URL of the record hold
    no comma afterwards, and each of them is the string of the request
    itself when that holds no comma; the fields taken from the response
    before (its content length, content type and status code) are kept.
    Host, method and protocol are copied as they are. *)
Theorem setRequest_no_commas h req :
  let h' := setRequest h req in
  hasComma (UserAgent_ h') = false /\
  hasComma (Referer_ h') = false /\
  hasComma (URL h') = false /\
  (hasComma (UserAgent req) = false -> UserAgent_ h' = UserAgent req) /\
  (hasComma (Referer req) = false -> Referer_ h' = Referer req) /\
  (hasComma (rURL req) = false -> URL h' = rURL req) /\
  (ResContentLength h', ContentType h', StatusCode_ h')
  = (ResContentLength h, ContentType h, StatusCode_ h) /\
  (Host h', Method h', Proto h') = (rHost req, rMethod req, rProto req).
Proof.
  cbv zeta. unfold setRequest. cbn [UserAgent_ Referer_ URL ResContentLength
    ContentType StatusCode_ Host Method Proto].
  repeat split; try apply replaceCommas_clean; try apply replaceCommas_id.
Qed.

Lemma wrapS32_small x : inS32 x -> wrapS32 x = x.
Proof.
  unfold inS32, wrapS32. intros H. rewrite Z.mod_small by lia. lia.
Qed.

Lemma wrapS32_range x : inS32 (wrapS32 x).
Proof.
  unfold inS32, wrapS32.
  pose proof (Z.mod_pos_bound (x + 2 ^ 31) (2 ^ 32) ltac:(lia)). lia.
Qed.

(** X21. Content lengths are cut to 32 bits. The content length of the
    request in the record of [setRequest], and the content length and the
    status code of the response in the record the response loop starts
    from, are [int32]s; each is the number of the message exactly when that
    number fits an [int32], so -1 (length unknown) is kept, and a length of
    2 GiB or more is not. *)
Theorem content_lengths_int32 h req res :
  inS32 (ReqContentLength (setRequest h req)) /\
  (ReqContentLength (setRequest h req) = rContentLength req
   <-> inS32 (rContentLength req)) /\
  inS32 (ResContentLength (responseHTTP res)) /\
  (ResContentLength (responseHTTP res) = ContentLength res
   <-> inS32 (ContentLength res)) /\
  (StatusCode_ (responseHTTP res) = StatusCode res <-> inS32 (StatusCode res)).
Proof.
  unfold setRequest, responseHTTP. cbn [ReqContentLength ResContentLength StatusCode_].
  assert (Hiff : forall x, wrapS32 x = x <-> inS32 x).
  { intros x. split; [|apply wrapS32_small].
    intros H. rewrite <- H. apply wrapS32_range. }
  split; [apply wrapS32_range|]. split; [apply Hiff|].
  split; [apply wrapS32_range|]. split; apply Hiff.
Qed.

(** *** Counting and errors in the flush *)

Lemma rangeResponses_total resArr : forall d total newRes,
  (rangeResponses resArr d total newRes).1.2
  = counted (List.length (matchedOf resArr)) total.
Proof.
  induction resArr as [|res resArr IH]; intros d total newRes; simpl.
  - reflexivity.
  - unfold matchedOf in *. simpl. destruct (Request_ res) as [req|]; simpl.
    + rewrite IH, counted_S. reflexivity.
    + apply IH.
Qed.

Lemma rangeResMap_total httpResMap : forall d total,
  (rangeResMap httpResMap d total).1.2
  = counted (List.length (flat_map (fun e => matchedOf e.2) httpResMap)) total.
Proof.
  induction httpResMap as [|[s resArr] rest IH]; intros d total; simpl.
  - reflexivity.
  - pose proof (rangeResponses_total resArr d total []) as H1.
    destruct (rangeResponses resArr d total []) as [[d1 total1] newRes].
    simpl in H1. specialize (IH d1 total1).
    destruct (rangeResMap rest d1 total1) as [[d2 total2] rest'].
    simpl in *. rewrite IH, H1, length_app, counted_add. reflexivity.
Qed.

Lemma rangeRequests_total reqArr : forall d total,
  (rangeRequests reqArr d total).2 = counted (List.length reqArr) total.
Proof.
  induction reqArr as [|req reqArr IH]; intros d total; simpl.
  - reflexivity.
  - destruct req as [req|]; rewrite IH, counted_S; reflexivity.
Qed.

Lemma rangeReqMap_total httpReqMap : forall d total,
  (rangeReqMap httpReqMap d total).2
  = counted (List.length (entriesOf httpReqMap)) total.
Proof.
  induction httpReqMap as [|[s reqArr] rest IH]; intros d total; simpl.
  - reflexivity.
  - pose proof (rangeRequests_total reqArr d total) as H1.
    destruct (rangeRequests reqArr d total) as [d1 total1].
    simpl in H1. rewrite IH, H1. unfold entriesOf. simpl.
    rewrite length_app, counted_add. reflexivity.
Qed.

(** X22. What the flush counts as flushed. For maps whose sizes fit an
    [int], the number [total] that the flush reports is the number of
    responses written with their request plus the number of entries of the
    request map, the nil entries as well; the record counter goes up by the
    records written only, so the two differ by the number of nil
    requests. *)
Theorem flushHTTP_total d httpResMap httpReqMap :
  Z.of_nat (List.length httpResMap) <= max_int64 ->
  Z.of_nat (List.length httpReqMap) <= max_int64 ->
  let r := flushHTTP d httpResMap httpReqMap in
  let matched := flat_map (fun e => matchedOf e.2) httpResMap in
  r.2 = counted (List.length matched + List.length (entriesOf httpReqMap)) 0 /\
  numRecords r.1.1
  = counted (List.length matched
             + List.length (flat_map (fun e => requestsOf e.2) httpReqMap))
      (numRecords d) /\
  List.length (entriesOf httpReqMap)
  = (List.length (flat_map (fun e => requestsOf e.2) httpReqMap)
     + List.length (List.filter (fun req => if req is None then true else false)
                      (entriesOf httpReqMap)))%nat.
Proof.
  intros Hres Hreq. cbv zeta. split; [|split].
  - unfold flushHTTP. destruct (_ =? 0) eqn:Hsum.
    + apply sum_zero in Hsum as [H1 H2]; try assumption.
      destruct httpResMap; [|discriminate]. destruct httpReqMap; [|discriminate].
      reflexivity.
    + pose proof (rangeResMap_total httpResMap d 0) as H1.
      destruct (rangeResMap httpResMap d 0) as [[d1 total1] resMap1].
      simpl in H1.
      pose proof (rangeReqMap_total httpReqMap d1 total1) as H2.
      destruct (rangeReqMap httpReqMap d1 total1) as [d2 total2].
      simpl in *. rewrite H2, H1, counted_add. reflexivity.
  - unfold flushHTTP. destruct (_ =? 0) eqn:Hsum.
    + apply sum_zero in Hsum as [H1 H2]; try assumption.
      destruct httpResMap; [|discriminate]. destruct httpReqMap; [|discriminate].
      reflexivity.
    + pose proof (rangeResMap_spec httpResMap d 0) as H1. simpl in H1.
      destruct (rangeResMap httpResMap d 0) as [[d1 total1] resMap1].
      simpl in H1. destruct H1 as (_ & _ & _ & Hr1).
      pose proof (rangeReqMap_spec httpReqMap d1 total1) as H2. simpl in H2.
      destruct (rangeReqMap httpReqMap d1 total1) as [d2 total2].
      simpl in *. destruct H2 as (_ & _ & Hr2).
      rewrite Hr2, Hr1, counted_add. reflexivity.
  - unfold entriesOf, requestsOf. clear.
    induction httpReqMap as [|[s reqArr] rest IH]; [reflexivity|].
    simpl. rewrite !length_app, List.filter_app, length_app, IH.
    assert (H : List.length reqArr
                = (List.length (omap (option_map requestRecord) reqArr)
                   + List.length
                       (List.filter
                          (fun req => if req is None then true else false)
                          reqArr))%nat).
    { clear. induction reqArr as [|[req|] reqArr IH]; cbn; lia. }
    lia.
Qed.

Lemma extends_refl d : extends d d [].
Proof. unfold extends. rewrite !app_nil_r. auto. Qed.

Lemma extends_trans d1 d2 d3 l1 l2 :
  extends d1 d2 l1 -> extends d2 d3 l2 -> extends d1 d3 (l1 ++ l2)%list.
Proof.
  unfold extends. intros [Hw1 He1] [Hw2 He2].
  rewrite Hw2, Hw1, He2, He1, omap_app, <- !app_assoc. auto.
Qed.

Lemma countError_omap (err : option string) errs :
  countError err errs = (errs ++ omap id [err])%list.
Proof. destruct err; simpl; [reflexivity|rewrite app_nil_r; reflexivity]. Qed.

Lemma writeResponseRecord_extends h d :
  extends d (writeResponseRecord h d) [(responseSink d, h)].
Proof.
  unfold extends, writeResponseRecord, responseSink, errorOf.
  destruct (csv d); simpl; split; try reflexivity.
  - destruct (WriteRecord h); simpl; [reflexivity|apply eq_sym, app_nil_r].
  - destruct (PutProto h); simpl; [reflexivity|apply eq_sym, app_nil_r].
Qed.

Lemma writeRequestRecord_extends h d :
  extends d (writeRequestRecord h d) [(ProtoWriter, h)].
Proof.
  unfold extends, writeRequestRecord, errorOf. simpl. split; [reflexivity|].
  destruct (PutProto h); simpl; [reflexivity|apply eq_sym, app_nil_r].
Qed.

Lemma writeResponseRecord_csv h d : csv (writeResponseRecord h d) = csv d.
Proof. unfold writeResponseRecord. destruct (csv d) eqn:Hc; simpl; auto. Qed.

Lemma rangeResponses_extends resArr : forall d total newRes,
  extends d (rangeResponses resArr d total newRes).1.1
    (map (pair (responseSink d)) (matchedOf resArr)).
Proof.
  induction resArr as [|res resArr IH]; intros d total newRes; simpl.
  - apply extends_refl.
  - unfold matchedOf in *. cbn.
    destruct (Request_ res) as [req|]; cbn; [|apply IH].
    pose proof (IH (writeResponseRecord (setRequest (responseHTTP res) req) d)
                  (wrapS64 (total + 1)) newRes) as Hl.
    unfold responseSink in Hl. rewrite writeResponseRecord_csv in Hl.
    exact (extends_trans _ _ _ _ _ (writeResponseRecord_extends _ d) Hl).
Qed.

Lemma rangeResMap_extends httpResMap : forall d total,
  extends d (rangeResMap httpResMap d total).1.1
    (map (pair (responseSink d))
       (flat_map (fun e => matchedOf e.2) httpResMap)).
Proof.
  induction httpResMap as [|[s resArr] rest IH]; intros d total; simpl.
  - apply extends_refl.
  - pose proof (rangeResponses_extends resArr d total []) as H1.
    pose proof (rangeResponses_spec resArr d total []) as Hs. simpl in Hs.
    destruct (rangeResponses resArr d total []) as [[d1 total1] newRes].
    pose proof (IH d1 total1) as H2.
    destruct (rangeResMap rest d1 total1) as [[d2 total2] rest'].
    simpl in *. destruct Hs as (_ & _ & Hc & _).
    unfold responseSink in H2. rewrite Hc in H2.
    rewrite map_app. eapply extends_trans; eassumption.
Qed.

Lemma rangeRequests_extends reqArr : forall d total,
  extends d (rangeRequests reqArr d total).1
    (map (pair ProtoWriter) (requestsOf reqArr)).
Proof.
  induction reqArr as [|req reqArr IH]; intros d total; simpl.
  - apply extends_refl.
  - unfold requestsOf in *. cbn.
    destruct req as [req|]; cbn; [|apply IH].
    pose proof (IH (writeRequestRecord (setRequest emptyHTTP req) d)
                  (wrapS64 (total + 1))) as Hl.
    exact (extends_trans _ _ _ _ _ (writeRequestRecord_extends _ d) Hl).
Qed.

Lemma rangeReqMap_extends httpReqMap : forall d total,
  extends d (rangeReqMap httpReqMap d total).1
    (map (pair ProtoWriter)
       (flat_map (fun e => requestsOf e.2) httpReqMap)).
Proof.
  induction httpReqMap as [|[s reqArr] rest IH]; intros d total; simpl.
  - apply extends_refl.
  - pose proof (rangeRequests_extends reqArr d total) as H1.
    destruct (rangeRequests reqArr d total) as [d1 total1].
    pose proof (IH d1 total1) as H2. simpl in *.
    rewrite map_app. eapply extends_trans; eassumption.
Qed.

(** X23. A failed write does not stop the flush. For maps whose sizes
    fit an [int], whatever the writers hand back: the flush hands to its
    writer every record it has to write, the combined record of every
    response with a request and then the record of every request that is
    not nil, in the order of the maps; the records written do not depend on
    which writes fail. The error of each write that fails is counted once
    and in the order of the writes: the errors counted afterwards are those
    counted before, followed by the errors of these records, and nothing
    else. *)
Theorem flushHTTP_errors d httpResMap httpReqMap :
  Z.of_nat (List.length httpResMap) <= max_int64 ->
  Z.of_nat (List.length httpReqMap) <= max_int64 ->
  let r := flushHTTP d httpResMap httpReqMap in
  let l :=
    (map (pair (responseSink d))
       (flat_map (fun e => matchedOf e.2) httpResMap)
     ++ map (pair ProtoWriter)
          (flat_map (fun e => requestsOf e.2) httpReqMap))%list in
  written r.1.1 = (written d ++ l)%list /\
  errors r.1.1 = (errors d ++ omap errorOf l)%list /\
  (List.length (errors r.1.1) <= List.length (errors d) + List.length l)%nat.
Proof.
  intros Hres Hreq. cbv zeta.
  assert (H : extends d (flushHTTP d httpResMap httpReqMap).1.1
                (map (pair (responseSink d))
                   (flat_map (fun e => matchedOf e.2) httpResMap)
                 ++ map (pair ProtoWriter)
                      (flat_map (fun e => requestsOf e.2) httpReqMap))%list).
  { unfold flushHTTP. destruct (_ =? 0) eqn:Hsum.
    - apply sum_zero in Hsum as [H1 H2]; try assumption.
      destruct httpResMap; [|discriminate].
      destruct httpReqMap; [|discriminate].
      apply extends_refl.
    - pose proof (rangeResMap_extends httpResMap d 0) as H1.
      destruct (rangeResMap httpResMap d 0) as [[d1 total1] resMap1].
      pose proof (rangeReqMap_extends httpReqMap d1 total1) as H2.
      destruct (rangeReqMap httpReqMap d1 total1) as [d2 total2].
      simpl in *. eapply extends_trans; eassumption. }
  destruct H as [Hw He]. split; [exact Hw|]. split; [exact He|].
  rewrite He, length_app.
  match goal with
  | |- (_ + List.length (omap errorOf ?l) <= _)%nat =>
      assert (Hlen : (List.length (omap errorOf l) <= List.length l)%nat)
  end.
  { generalize (map (pair (responseSink d))
                  (flat_map (fun e => matchedOf e.2) httpResMap)
                ++ map (pair ProtoWriter)
                     (flat_map (fun e => requestsOf e.2) httpReqMap))%list.
    clear. intros l. induction l as [|e l IH]; cbn; [lia|].
    destruct (errorOf e); cbn; lia. }
  lia.
Qed.

Lemma matchedOf_unmatched resArr : matchedOf (unmatchedOf resArr) = [].
Proof.
  unfold matchedOf, unmatchedOf.
  induction resArr as [|res resArr IH]; simpl; [reflexivity|].
  destruct (Request_ res) eqn:Hr; simpl; [exact IH|].
  rewrite Hr. simpl. exact IH.
Qed.

Lemma unmatchedOf_idem resArr : unmatchedOf (unmatchedOf resArr) = unmatchedOf resArr.
Proof.
  unfold unmatchedOf.
  induction resArr as [|res resArr IH]; simpl; [reflexivity|].
  destruct (Request_ res) eqn:Hr; simpl; [exact IH|].
  rewrite Hr. simpl. rewrite IH. reflexivity.
Qed.

(** X24. The flush run again. For maps whose sizes fit an [int]: after
    the flush the response map holds, under each of its streams, the
    responses without a request and no other, so a second flush writes no
    response (none twice) and leaves the response map as it is; the
    request map is not emptied by the flush, and the second flush writes
    the record of every request that is not nil once more. *)
Theorem flushHTTP_again d httpResMap httpReqMap :
  Z.of_nat (List.length httpResMap) <= max_int64 ->
  Z.of_nat (List.length httpReqMap) <= max_int64 ->
  let r1 := flushHTTP d httpResMap httpReqMap in
  let r2 := flushHTTP r1.1.1 r1.1.2 httpReqMap in
  Forall (fun e => Forall (fun res => Request_ res = None) e.2) r1.1.2 /\
  r2.1.2 = r1.1.2 /\
  written r2.1.1
  = (written r1.1.1
     ++ map (pair ProtoWriter)
          (flat_map (fun e => requestsOf e.2) httpReqMap))%list.
Proof.
  intros Hres Hreq. cbv zeta.
  assert (Hspec : forall d0 resMap,
             Z.of_nat (List.length resMap) <= max_int64 ->
             (flushHTTP d0 resMap httpReqMap).1.2
             = map (fun e => (e.1, unmatchedOf e.2)) resMap /\
             written (flushHTTP d0 resMap httpReqMap).1.1
             = (written d0
                ++ map (pair (responseSink d0))
                     (flat_map (fun e => matchedOf e.2) resMap)
                ++ map (pair ProtoWriter)
                     (flat_map (fun e => requestsOf e.2) httpReqMap))%list).
  { intros d0 resMap Hlen. unfold flushHTTP. destruct (_ =? 0) eqn:Hsum.
    - apply sum_zero in Hsum as [H1 H2]; try assumption.
      destruct resMap; [|discriminate]. destruct httpReqMap; [|discriminate].
      simpl. rewrite app_nil_r. auto.
    - pose proof (rangeResMap_spec resMap d0 0) as H1. simpl in H1.
      destruct (rangeResMap resMap d0 0) as [[d1 total1] resMap1].
      simpl in H1. destruct H1 as (Hw1 & Hm1 & Hc1 & Hr1).
      pose proof (rangeReqMap_spec httpReqMap d1 total1) as H2. simpl in H2.
      destruct (rangeReqMap httpReqMap d1 total1) as [d2 total2].
      simpl in *. destruct H2 as (Hw2 & Hc2 & Hr2).
      rewrite Hw2, Hw1, <- app_assoc. auto. }
  destruct (Hspec d httpResMap Hres) as [Hm1 Hw1].
  assert (Hlen : Z.of_nat (List.length (flushHTTP d httpResMap httpReqMap).1.2)
                 <= max_int64).
  { rewrite Hm1, length_map. exact Hres. }
  destruct (Hspec (flushHTTP d httpResMap httpReqMap).1.1 _ Hlen) as [Hm2 Hw2].
  split; [|split].
  - rewrite Hm1. clear. induction httpResMap as [|[s resArr] rest IH]; simpl;
      constructor; [|exact IH].
    simpl. unfold unmatchedOf. clear.
    induction resArr as [|res resArr IH]; simpl; [constructor|].
    destruct (Request_ res) eqn:Hr; [exact IH|]. constructor; assumption.
  - rewrite Hm2, Hm1, map_map. apply map_ext.
    intros [s resArr]. simpl. rewrite unmatchedOf_idem. reflexivity.
  - rewrite Hw2. f_equal.
    assert (Hnone : flat_map (fun e => matchedOf e.2)
                      (flushHTTP d httpResMap httpReqMap).1.2 = []).
    { rewrite Hm1. clear.
      induction httpResMap as [|[s resArr] rest IH]; simpl; [reflexivity|].
      rewrite matchedOf_unmatched, IH. reflexivity. }
    rewrite Hnone. reflexivity.
Qed.

End Flush.

(** *** A concrete run *)

Definition demoStream : Stream :=
  (Reassembly.mkFlow 1 "10.0.0.1" "10.0.0.2", Reassembly.mkFlow 4 "51000" "80").

Definition getIndex : Request :=
  mkRequest "GET" "HTTP/1.1" "example.org"
    {["User-Agent" := ["curl/7.68, test"]; "Netcap-Ts" := ["1580000000"];
      "Netcap-Clientip" := ["10.0.0.1"]; "Netcap-Serverip" := ["10.0.0.2"]]}
    0 "/index.html?a=1,2".

Definition postForm : Request :=
  mkRequest "POST" "HTTP/1.1" "example.org" {["Netcap-Ts" := ["1580000002"]]}
    11 "/form".

(** A response with its request, and one left without. *)
Definition ok200 : Response :=
  mkResponse 42 {["Content-Type" := ["text/html"]]} 200 (Some getIndex).
Definition notFound404 : Response :=
  mkResponse 0 {["Content-Type" := ["text/plain"]]} 404 None.

Definition demoResMap : list (Stream * list Response) :=
  [(demoStream, [ok200; notFound404])].
Definition demoReqMap : list (Stream * list (option Request)) :=
  [(demoStream, [Some postForm; None])].

Definition freshEncoder : Encoder := mkEncoder false 0 [] [].
Definition noError (_ : HTTPRecord) : option string := None.

Lemma flushHTTP_writes_witness :
  Z.of_nat (List.length demoResMap) <= max_int64 /\
  Z.of_nat (List.length demoReqMap) <= max_int64 /\
  let r := flushHTTP noError noError freshEncoder demoResMap demoReqMap in
  written r.1.1
  = [(ProtoWriter,
      mkHTTP "1580000000" "HTTP/1.1" "GET" "example.org"
        "curl/7.68(comma) test" "" 0 "/index.html?a=1(comma)2" 42 "text/html"
        200 "10.0.0.1" "10.0.0.2");
     (ProtoWriter,
      mkHTTP "1580000002" "HTTP/1.1" "POST" "example.org" "" "" 11 "/form"
        0 "" 0 "" "")] /\
  r.1.2 = [(demoStream, [notFound404])].
Proof.
  assert (H1 : Z.of_nat (List.length demoResMap) <= max_int64)
    by (unfold max_int64; simpl; lia).
  assert (H2 : Z.of_nat (List.length demoReqMap) <= max_int64)
    by (unfold max_int64; simpl; lia).
  split; [exact H1|]. split; [exact H2|].
  destruct (flushHTTP_writes noError noError freshEncoder demoResMap
              demoReqMap H1 H2) as (Hw & Hm & _).
  split.
  - rewrite Hw. vm_compute. reflexivity.
  - rewrite Hm. reflexivity.
Defined.

(** C1, the claim as written fails for the responses without a request:
    the response left unmatched is not written, neither as a response-only
    record nor otherwise; it stays in the response map. *)
Lemma flushHTTP_keeps_unmatched_response :
  let r := flushHTTP noError noError freshEncoder
             [(demoStream, [notFound404])] [] in
  Request_ notFound404 = None /\
  written r.1.1 = [] /\
  ~ In (ProtoWriter, responseHTTP notFound404) (written r.1.1) /\
  r.1.2 = [(demoStream, [notFound404])].
Proof.
  assert (H : flushHTTP noError noError freshEncoder
                [(demoStream, [notFound404])] []
              = (freshEncoder, [(demoStream, [notFound404])], 0))
    by (vm_compute; reflexivity).
  cbv zeta. rewrite H. simpl. repeat split; auto.
Qed.

(** The same run, counted: three things flushed, two records written. *)
Lemma flushHTTP_total_witness :
  Z.of_nat (List.length demoResMap) <= max_int64 /\
  Z.of_nat (List.length demoReqMap) <= max_int64 /\
  let r := flushHTTP noError noError freshEncoder demoResMap demoReqMap in
  r.2 = 3 /\ numRecords r.1.1 = 2.
Proof.
  assert (H1 : Z.of_nat (List.length demoResMap) <= max_int64)
    by (unfold max_int64; simpl; lia).
  assert (H2 : Z.of_nat (List.length demoReqMap) <= max_int64)
    by (unfold max_int64; simpl; lia).
  split; [exact H1|]. split; [exact H2|].
  destruct (flushHTTP_total noError noError freshEncoder demoResMap
              demoReqMap H1 H2) as (Ht & Hn & _).
  split.
  - rewrite Ht. reflexivity.
  - rewrite Hn. reflexivity.
Defined.

(** A protobuf writer that fails on every record without a host. *)
Definition needsHost (h : HTTPRecord) : option string :=
  if String.eqb (Host h) "" then Some "no host" else None.

(** With it the flush of a request without a host goes on to the next
    request, and counts one error. *)
Example flushHTTP_goes_on_after_error :
  let r := flushHTTP noError needsHost freshEncoder []
             [(demoStream,
               [Some (mkRequest "GET" "HTTP/1.0" "" ∅ 0 "/");
                Some postForm])] in
  List.length (written r.1.1) = 2%nat /\ errors r.1.1 = ["no host"].
Proof. vm_compute. split; reflexivity. Qed.

(** A protobuf writer that fails on every record. On the two maps of the
    run above both records are still handed to it, the same records as
    with writers that never fail, and both errors are counted. *)
Definition alwaysFails (_ : HTTPRecord) : option string := Some "disk full".

Lemma flushHTTP_errors_witness :
  Z.of_nat (List.length demoResMap) <= max_int64 /\
  Z.of_nat (List.length demoReqMap) <= max_int64 /\
  let r := flushHTTP noError alwaysFails freshEncoder demoResMap demoReqMap in
  List.length (written r.1.1) = 2%nat /\
  errors r.1.1 = ["disk full"; "disk full"] /\
  written r.1.1
  = written (flushHTTP noError noError freshEncoder demoResMap demoReqMap).1.1.
Proof.
  assert (H1 : Z.of_nat (List.length demoResMap) <= max_int64)
    by (unfold max_int64; simpl; lia).
  assert (H2 : Z.of_nat (List.length demoReqMap) <= max_int64)
    by (unfold max_int64; simpl; lia).
  split; [exact H1|]. split; [exact H2|].
  destruct (flushHTTP_errors noError alwaysFails freshEncoder demoResMap
              demoReqMap H1 H2) as (Hw & He & _).
  cbv zeta. split; [rewrite Hw; reflexivity|].
  split; [rewrite He; reflexivity|].
  rewrite Hw. vm_compute. reflexivity.
Defined.

Lemma flushHTTP_again_witness :
  Z.of_nat (List.length demoResMap) <= max_int64 /\
  Z.of_nat (List.length demoReqMap) <= max_int64 /\
  let r1 := flushHTTP noError noError freshEncoder demoResMap demoReqMap in
  let r2 := flushHTTP noError noError r1.1.1 r1.1.2 demoReqMap in
  r2.1.2 = [(demoStream, [notFound404])] /\
  List.length (written r1.1.1) = 2%nat /\
  List.length (written r2.1.1) = 3%nat.
Proof.
  assert (H1 : Z.of_nat (List.length demoResMap) <= max_int64)
    by (unfold max_int64; simpl; lia).
  assert (H2 : Z.of_nat (List.length demoReqMap) <= max_int64)
    by (unfold max_int64; simpl; lia).
  split; [exact H1|]. split; [exact H2|].
  destruct (flushHTTP_again noError noError freshEncoder demoResMap
              demoReqMap H1 H2) as (_ & Hm & Hw).
  cbv zeta. split; [rewrite Hm; reflexivity|].
  split; [reflexivity|]. rewrite Hw, length_app. reflexivity.
Defined.

(** A content length of 2 GiB becomes negative in the record; a comma in
    the URL is spelled out. *)
Example setRequest_large_body :
  let h := setRequest emptyHTTP
             (mkRequest "PUT" "HTTP/1.1" "example.org" ∅ 2147483648 "/a,b") in
  ReqContentLength h = -2147483648 /\ URL h = "/a(comma)b".
Proof. split; reflexivity. Qed.

End HTTP.
